(** * Thermal testbed: plant bridge, controller and sandboxed control engine

    A shallow embedding of the two-node control testbed (ESP32 firmware in C):

    - [bridge/main/bridge1.c] and [bridge/main/bridge.c]: the simulated
      thermal plant, its receive handler and its physics tick;
    - [controller/main/controller1.c], [controller_wamr.c], [controller2.c]:
      the controller node, its host calls, its receive handler, its sender
      loop and the WAMR engine driver [run_wasm];
    - [controller/containers/controller.c]: the guest control program;
    - [controller/main/controller.c]: the thermostat over ADC and GPIO.

    C [float] values are IEEE-754 binary32 numbers, modelled with the
    Standard Library's [SpecFloat] at precision 24 and maximal exponent 128,
    every operation rounded to nearest-even on its own, as the C code
    computes it when no two operations are contracted into one.  The update
    law of the plant is written once over an interface of arithmetic
    operations, so that it can also be read over exact rationals.

    A FreeRTOS mutex acquisition [xSemaphoreTake (m, pdMS_TO_TICKS (10))]
    either succeeds within its bound or times out; each call site takes that
    outcome as a boolean input.  Calls into the WAMR runtime, the GPIO driver
    and the logger are external: their results are inputs, their invocations
    are recorded as events. *)

From Stdlib Require Import ZArith List Bool Lia String Ascii.
From Stdlib.Strings Require Import Byte.
From Stdlib Require Import QArith Qfield Lqa.
From Stdlib Require Import Floats.SpecFloat.
Import ListNotations.

Local Open Scope Z_scope.

(** ** IEEE-754 binary32 *)

Module F32.

Definition prec : Z := 24.
Definition emax : Z := 128.

Definition float : Type := spec_float.

Definition add : float -> float -> float := SFadd prec emax.
Definition sub : float -> float -> float := SFsub prec emax.
Definition mul : float -> float -> float := SFmul prec emax.
Definition div : float -> float -> float := SFdiv prec emax.
Definition opp : float -> float := SFopp.
Definition ltb : float -> float -> bool := SFltb.
Definition leb : float -> float -> bool := SFleb.
Definition eqb : float -> float -> bool := SFeqb.

(** [(float) z] for an integer [z]: the nearest binary32 value. *)
Definition of_int (z : Z) : float := binary_normalize prec emax z 0 false.

(** A decimal constant [n / d] of the source ([0.8f] is [lit 8 10]): the
    correctly rounded quotient of two exactly representable integers. *)
Definition lit (n d : Z) : float := div (of_int n) (of_int d).

Definition is_nan (x : float) : bool :=
  match x with S754_nan => true | _ => false end.

(** The value a 32-bit word denotes: sign bit 31, biased exponent in bits
    30..23, fraction in bits 22..0. *)
Definition of_bits (w : Z) : float :=
  let s := Z.testbit w 31 in
  let e := Z.land (Z.shiftr w 23) 255 in
  let m := Z.land w 8388607 in
  if e =? 0 then
    match m with
    | Zpos p => S754_finite s p (-149)
    | _ => S754_zero s
    end
  else if e =? 255 then
    (if m =? 0 then S754_infinity s else S754_nan)
  else
    match m + 8388608 with
    | Zpos p => S754_finite s p (e - 150)
    | _ => S754_nan
    end.

End F32.

(** ** The arithmetic the sources perform on [float] *)

Class FloatArith (F : Type) : Type := {
  f_add : F -> F -> F;
  f_sub : F -> F -> F;
  f_mul : F -> F -> F;
  f_div : F -> F -> F;
  f_opp : F -> F;
  f_lt : F -> F -> bool;
  f_le : F -> F -> bool;
  f_of_int : Z -> F;
  f_lit : Z -> Z -> F
}.

Declare Scope float_scope.
Delimit Scope float_scope with flt.
Infix "+" := f_add : float_scope.
Infix "-" := f_sub : float_scope.
Infix "*" := f_mul : float_scope.
Infix "/" := f_div : float_scope.
Notation "- x" := (f_opp x) : float_scope.
Infix "<" := f_lt : float_scope.
Infix "<=" := f_le : float_scope.
Notation "x > y" := (f_lt y x) : float_scope.
Notation "x >= y" := (f_le y x) : float_scope.

#[export] Instance binary32 : FloatArith F32.float := {
  f_add := F32.add;
  f_sub := F32.sub;
  f_mul := F32.mul;
  f_div := F32.div;
  f_opp := F32.opp;
  f_lt := F32.ltb;
  f_le := F32.leb;
  f_of_int := F32.of_int;
  f_lit := F32.lit
}.

(** Exact rational arithmetic: the same operations with no rounding. *)
#[export] Instance exact : FloatArith Q := {
  f_add := Qplus;
  f_sub := Qminus;
  f_mul := Qmult;
  f_div := Qdiv;
  f_opp := Qopp;
  f_lt := fun x y => negb (Qle_bool y x);
  f_le := Qle_bool;
  f_of_int := inject_Z;
  f_lit := fun n d => Qmake n (Z.to_pos d)
}.

(** ** The thermal plant law ([bridge1.c], [bridge.c])

    Both plant variants share the constants and the update; they differ in
    where the command comes from and in the clamp applied afterwards. *)

Section ThermalLaw.

Context {F : Type} `{FloatArith F}.
Local Open Scope float_scope.

Definition AMBIENT_TEMP : F := f_lit 25 1.
Definition HEATING_RATE : F := f_lit 8 10.
Definition COOLING_RATE : F := f_lit 2 100.
Definition THERMAL_MASS : F := f_lit 95 100.

(** [bridge.c]: "Max allowed temp". *)
Definition MAX_TEMP : F := f_lit 100 1.
(** [bridge1.c]: "Max temp if heater stays on forever"; declared, never used. *)
Definition MAX_HEATER_TEMP : F := f_lit 200 1.

(** The four statements under "UPDATE PHYSICS": the new [current_temp]. *)
Definition thermal_update (current_temp heater_cmd : F) : F :=
  let energy_in := heater_cmd * HEATING_RATE in
  let energy_out := (current_temp - AMBIENT_TEMP) * COOLING_RATE in
  let target_next_temp := current_temp + energy_in - energy_out in
  (current_temp * THERMAL_MASS)
  + (target_next_temp * (f_lit 1 1 - THERMAL_MASS)).

(** [bridge.c] only: "Clamp temperature to valid range". *)
Definition clamp_temp (current_temp : F) : F :=
  let current_temp :=
    if current_temp > MAX_TEMP then MAX_TEMP else current_temp in
  if current_temp < AMBIENT_TEMP then AMBIENT_TEMP else current_temp.

(** [random_float]: [rand_val] is the 32-bit draw of [esp_random]. *)
Definition UINT32_MAX : Z := 4294967295.

Definition random_float (rand_val : Z) (min max : F) : F :=
  let normalized := f_of_int rand_val / f_of_int UINT32_MAX in
  min + normalized * (max - min).

End ThermalLaw.

Abbreviation float := F32.float.

(** ** The wire record ([simulation_data_packet.h]) *)

Module Wire.

(** [typedef struct __attribute__((packed)) { uint8_t device_id; uint8_t id;
    float value; uint32_t counter; } SimPacket;] *)
Record SimPacket : Type := {
  device_id : Z;
  id : Z;
  value : float;
  counter : Z
}.

(** [sizeof (SimPacket)]: a packed record of 1 + 1 + 4 + 4 bytes. *)
Definition sizeof_SimPacket : Z := 10.

Definition byte_at (data : list byte) (i : nat) : Z :=
  Z.of_N (Byte.to_N (nth i data x00)).

(** Four bytes from offset [i], least significant first (both nodes share
    the little-endian byte order of the ESP32). *)
Definition word_at (data : list byte) (i : nat) : Z :=
  byte_at data i
  + Z.shiftl (byte_at data (i + 1)) 8
  + Z.shiftl (byte_at data (i + 2)) 16
  + Z.shiftl (byte_at data (i + 3)) 24.

(** [(SimPacket * ) data]: the fields read at their packed offsets. *)
Definition cast (data : list byte) : SimPacket :=
  {| device_id := byte_at data 0;
     id := byte_at data 1;
     value := F32.of_bits (word_at data 2);
     counter := word_at data 6 |}.

(** The guard every receive handler opens with,
    [if (len == sizeof (SimPacket)) { SimPacket *p = (SimPacket * ) data; ...]:
    the packet the handler goes on with, if any. *)
Definition received (data : list byte) : option SimPacket :=
  if Z.of_nat (List.length data) =? sizeof_SimPacket then Some (cast data)
  else None.

(** [(uint8_t * ) &packet]: the ten bytes of a packet in memory, for a
    value whose 32-bit pattern is [value_bits]. *)
Definition octet (z : Z) : byte :=
  match Byte.of_N (Z.to_N (Z.land z 255)) with
  | Some b => b
  | None => x00
  end.

Definition le_bytes (w : Z) : list byte :=
  map (fun k => octet (Z.shiftr w (8 * k))) [0; 1; 2; 3].

Definition bytes_of (dev kind value_bits ctr : Z) : list byte :=
  [octet dev; octet kind] ++ le_bytes value_bits ++ le_bytes ctr.

End Wire.

(** ** The plant node over ESP-NOW ([bridge/main/bridge1.c]) *)

Module Bridge1.

Import Wire.
Local Open Scope float_scope.

(** [static float current_temp = AMBIENT_TEMP; static float heater_cmd = 0.0f;] *)
Record state : Type := {
  current_temp : float;
  heater_cmd : float
}.

Definition initial : state :=
  {| current_temp := AMBIENT_TEMP; heater_cmd := f_lit 0 1 |}.

(** [onReceiveData]; [take] is the outcome of
    [xSemaphoreTake (heater_mutex, pdMS_TO_TICKS (10))]. *)
Definition onReceiveData (data : list byte) (take : bool) (st : state)
  : state :=
  match received data with
  | Some packet =>
      if (device_id packet =? 1)%Z && (id packet =? 1)%Z then
        let new_cmd := value packet in
        let new_cmd := if new_cmd <= f_lit 0 1 then f_lit 0 1 else new_cmd in
        let new_cmd := if new_cmd >= f_lit 1 1 then f_lit 1 1 else new_cmd in
        if take then
          {| current_temp := current_temp st; heater_cmd := new_cmd |}
        else st
      else st
  | None => st
  end.

(** One round of the [while (1)] loop of [physics_simulation_task]:
    [take] is the outcome of the mutex acquisition, [rand_val] the draw of
    [esp_random], [timestamp] the milliseconds elapsed since the task
    started.  The result is the new state and the packet handed to
    [esp_now_send]. *)
Definition physics_simulation_task (take : bool) (rand_val timestamp : Z)
    (st : state) : state * SimPacket :=
  let local_heater_cmd := if take then heater_cmd st else f_lit 0 1 in
  let current_temp' := thermal_update (current_temp st) local_heater_cmd in
  let noise := random_float rand_val (- f_lit 3 10) (f_lit 3 10) in
  let simulated_reading := current_temp' + noise in
  ({| current_temp := current_temp'; heater_cmd := heater_cmd st |},
   {| device_id := 0; id := 1; value := simulated_reading;
      counter := timestamp |}).

(** What happens to the plant of [bridge1.c]: the receive callback runs on
    [data], or the physics task goes through one round.  The task reads
    [heater_cmd] once a round, under the mutex, and it alone writes
    [current_temp]; the callback alone writes [heater_cmd], under the
    mutex: a run of the node is a sequence of such events. *)
Inductive event : Type :=
| arrival (data : list byte) (take : bool)
| round (take : bool) (rand_val timestamp : Z).

Definition step (st : state) (ev : event) : state :=
  match ev with
  | arrival data take => onReceiveData data take st
  | round take rand_val timestamp =>
      fst (physics_simulation_task take rand_val timestamp st)
  end.

Definition after (evs : list event) : state := fold_left step evs initial.

(** The event is the arrival of a packet whose value is not a number. *)
Definition carries_nan (ev : event) : bool :=
  match ev with
  | arrival data _ =>
      match received data with
      | Some p => F32.is_nan (value p)
      | None => false
      end
  | round _ _ _ => false
  end.

End Bridge1.

(** ** The plant node over DAC and GPIO ([bridge/main/bridge.c]) *)

Module Bridge.

Local Open Scope float_scope.

(** [static float current_temp = 25.0f;] *)
Definition initial : float := f_lit 25 1.

Definition NOISE_RANGE : float := f_lit 3 10.

(** One round of the [while (1)] loop of [physics_simulation_loop]:
    [heater_state] is what [gpio_get_level] returned, [rand_val] the draw
    of [esp_random].  The result is the new [current_temp] and the noisy
    reading sent to the DAC. *)
Definition physics_simulation_loop (heater_state rand_val : Z)
    (current_temp : float) : float * float :=
  let heater_cmd := f_of_int heater_state in
  let current_temp := clamp_temp (thermal_update current_temp heater_cmd) in
  let noise := random_float rand_val (- NOISE_RANGE) NOISE_RANGE in
  let simulated_reading := current_temp + noise in
  (current_temp, simulated_reading).

(** [on_capture_event], falling edge: the duty cycle measured on the
    capture pin, clamped and stored in [received_heater_power]. *)
Definition on_capture_event (pos_edge_timestamp neg_edge_timestamp : Z)
  : float :=
  let high_time_us := (neg_edge_timestamp - pos_edge_timestamp) mod 2 ^ 32 in
  let power := f_of_int high_time_us / f_lit 1000 1 in
  let power := if power > f_lit 1 1 then f_lit 1 1 else power in
  if power < f_lit 0 1 then f_lit 0 1 else power.

End Bridge.

(** ** The WAMR runtime and the drivers, as the controller calls them *)

Module Wamr.

Inductive log_level : Type := LOGE | LOGW | LOGI.

(** The external calls [run_wasm] and the host functions make.  A log
    line keeps its format string and its string argument; the text of
    [error_buf] is the runtime's and is not recorded. *)
Inductive event : Type :=
| wasm_runtime_load
| wasm_runtime_instantiate (stack_size heap_size : Z)
| wasm_runtime_create_exec_env (stack_size : Z)
| wasm_runtime_lookup_function (name : string)
| wasm_runtime_call_wasm
| wasm_runtime_get_exception
| wasm_runtime_destroy_exec_env
| wasm_runtime_deinstantiate
| wasm_runtime_unload
| set_global_module_inst (live : bool)
| gpio_set_level (pin level : Z)
| esp_log (level : log_level) (format : string) (arg : option string).

(** What [wasm_runtime_call_wasm] returns, with the answer of
    [wasm_runtime_get_exception] when it returns false ([None] is NULL). *)
Inductive call_result : Type :=
| call_true
| call_false (exception : option string).

(** The answers of the runtime to one run: whether [wasm_runtime_load],
    [wasm_runtime_instantiate] and [wasm_runtime_create_exec_env] return a
    non-NULL handle, whether the lookup of ["main"] finds a function, and
    how the call ends. *)
Record runtime : Type := {
  load : bool;
  instantiate : bool;
  create_exec_env : bool;
  lookup_main : bool;
  call_main : call_result
}.

(** Commands: a result and the external calls made on the way. *)
Definition Cmd (A : Type) : Type := A * list event.

Definition ret {A : Type} (a : A) : Cmd A := (a, []).

Definition bind {A B : Type} (c : Cmd A) (k : A -> Cmd B) : Cmd B :=
  let (a, t) := c in
  let (b, t') := k a in
  (b, t ++ t').

Definition call {A : Type} (e : event) (answer : A) : Cmd A := (answer, [e]).

Definition do (e : event) : Cmd unit := call e tt.

Definition trace_of {A : Type} (c : Cmd A) : list event := snd c.

(** [strstr (exception, needle) != NULL]. *)
Definition strstr (exception needle : string) : bool :=
  match index 0 needle exception with
  | Some _ => true
  | None => false
  end.

End Wamr.

Declare Scope cmd_scope.
Delimit Scope cmd_scope with cmd.
Notation "x <- c ;; k" := (Wamr.bind c (fun x => k))
  (at level 61, c at next level, right associativity) : cmd_scope.
Notation "c ;; k" := (Wamr.bind c (fun _ => k))
  (at level 61, right associativity) : cmd_scope.

(** ** The controller node with the sandboxed engine over ESP-NOW
       ([controller/main/controller1.c]) *)

Module Controller1.

Import Wire Wamr.
Local Open Scope float_scope.

(** [static float current_temp = 25.0f; static float heater_cmd = 0.0f;] *)
Record state : Type := {
  current_temp : float;
  heater_cmd : float
}.

Definition initial : state :=
  {| current_temp := f_lit 25 1; heater_cmd := f_lit 0 1 |}.

(** [host_get_temperature]; [take] is the outcome of
    [xSemaphoreTake (temp_mutex, pdMS_TO_TICKS (10))]. *)
Definition host_get_temperature (take : bool) (st : state) : float :=
  let temp := f_lit 25 1 in
  if take then current_temp st else temp.

(** [host_set_heater]. *)
Definition host_set_heater (value : float) (take : bool) (st : state)
  : state :=
  let value := if value < f_lit 0 1 then f_lit 0 1 else value in
  let value := if value > f_lit 1 1 then f_lit 1 1 else value in
  if take then {| current_temp := current_temp st; heater_cmd := value |}
  else st.

(** [onReceiveData]: "updates current temperature". *)
Definition onReceiveData (data : list byte) (take : bool) (st : state)
  : state :=
  match received data with
  | Some p =>
      if (device_id p =? 0)%Z && (id p =? 1)%Z then
        if take then
          {| current_temp := value p; heater_cmd := heater_cmd st |}
        else st
      else st
  | None => st
  end.

(** One round of the [while (1)] loop of [sender_task]: the packet handed
    to [esp_now_send] and the next [packet_counter]. *)
Definition sender_task (take : bool) (packet_counter : Z) (st : state)
  : SimPacket * Z :=
  let cmd_to_send := if take then heater_cmd st else f_lit 0 1 in
  ({| device_id := 1; id := 1; value := cmd_to_send;
      counter := packet_counter |},
   packet_counter + 1)%Z.

Local Open Scope cmd_scope.
Local Open Scope string_scope.

(** [run_wasm]: the sequence of runtime calls and log lines of one run. *)
Definition run_wasm (rt : runtime) : Cmd unit :=
  module <- call wasm_runtime_load (load rt) ;;
  if negb module then
    do (esp_log LOGE "WASM load failed: %s" None)
  else
    module_inst <-
      call (wasm_runtime_instantiate (8 * 1024) (8 * 1024)) (instantiate rt) ;;
    if negb module_inst then
      do (esp_log LOGE "WASM instantiation failed: %s" None) ;;
      do wasm_runtime_unload
    else
      exec_env <-
        call (wasm_runtime_create_exec_env (8 * 1024)) (create_exec_env rt) ;;
      if negb exec_env then
        do (esp_log LOGE "Exec env creation failed" None) ;;
        do wasm_runtime_deinstantiate ;;
        do wasm_runtime_unload
      else
        do (set_global_module_inst true) ;;
        do (esp_log LOGI "Starting WASM Control Module..." None) ;;
        func <- call (wasm_runtime_lookup_function "main") (lookup_main rt) ;;
        (if func then
           result <- call wasm_runtime_call_wasm (call_main rt) ;;
           match result with
           | call_false exception =>
               do wasm_runtime_get_exception ;;
               match exception with
               | Some msg =>
                   if strstr msg "terminated" then
                     do (esp_log LOGW "WASM execution terminated" None)
                   else
                     do (esp_log LOGE "WASM exception: %s" (Some msg))
               | None =>
                   do (esp_log LOGE "WASM exception: %s" (Some "unknown"))
               end
           | call_true =>
               do (esp_log LOGI "WASM execution completed successfully" None)
           end
         else
           do (esp_log LOGE "No main function found in WASM module" None)) ;;
        do (set_global_module_inst false) ;;
        do wasm_runtime_destroy_exec_env ;;
        do wasm_runtime_deinstantiate ;;
        do wasm_runtime_unload.

End Controller1.

(** ** The controller node with the sandboxed engine over ADC and GPIO
       ([controller/main/controller_wamr.c]) *)

Module ControllerWamr.

Import Wamr.
Local Open Scope float_scope.

Definition PIN_HEATER_OUT : Z := 26.

(** [static float current_temp = 25.0f; static float heater_cmd = 0.0f;] *)
Record state : Type := {
  current_temp : float;
  heater_cmd : float
}.

Definition initial : state :=
  {| current_temp := f_lit 25 1; heater_cmd := f_lit 0 1 |}.

(** [host_get_temperature]. *)
Definition host_get_temperature (take : bool) (st : state) : float :=
  let temp := f_lit 25 1 in
  if take then current_temp st else temp.

(** [host_set_heater (exec_env, int value)]: its body is the comment
    "Clamp value to 0-1 range" and the one call
    [gpio_set_level (PIN_HEATER_OUT, value)]. *)
Definition host_set_heater (value : Z) : Cmd unit :=
  do (gpio_set_level PIN_HEATER_OUT value).

(** One round of the [while (1)] loop of [reader_task], after the ADC
    read and its calibration gave [voltage_mv]. *)
Definition reader_task (voltage_mv : Z) (take : bool) (st : state) : state :=
  let temperature := (f_of_int voltage_mv / f_lit 3300 1) * f_lit 100 1 in
  if take then
    {| current_temp := temperature; heater_cmd := heater_cmd st |}
  else st.

Local Open Scope cmd_scope.
Local Open Scope string_scope.

(** [run_wasm]. *)
Definition run_wasm (rt : runtime) : Cmd unit :=
  module <- call wasm_runtime_load (load rt) ;;
  if negb module then
    do (esp_log LOGE "WASM load failed: %s" None)
  else
    module_inst <-
      call (wasm_runtime_instantiate (16 * 1024) (16 * 1024))
           (instantiate rt) ;;
    if negb module_inst then
      do (esp_log LOGE "WASM instantiation failed: %s" None) ;;
      do wasm_runtime_unload
    else
      exec_env <-
        call (wasm_runtime_create_exec_env (8 * 1024)) (create_exec_env rt) ;;
      if negb exec_env then
        do (esp_log LOGE "Exec env creation failed" None) ;;
        do wasm_runtime_deinstantiate ;;
        do wasm_runtime_unload
      else
        do (esp_log LOGI "Starting WASM Control Module..." None) ;;
        func <- call (wasm_runtime_lookup_function "main") (lookup_main rt) ;;
        (if func then
           result <- call wasm_runtime_call_wasm (call_main rt) ;;
           match result with
           | call_false exception =>
               do wasm_runtime_get_exception ;;
               match exception with
               | Some msg =>
                   if strstr msg "terminated" then
                     do (esp_log LOGW "WASM execution terminated" None)
                   else
                     do (esp_log LOGE "WASM exception: %s" (Some msg))
               | None =>
                   do (esp_log LOGE "WASM exception: %s" (Some "unknown"))
               end
           | call_true =>
               do (esp_log LOGI "WASM execution completed successfully" None)
           end
         else
           do (esp_log LOGE "No main function found in WASM module" None)) ;;
        do wasm_runtime_destroy_exec_env ;;
        do wasm_runtime_deinstantiate ;;
        do wasm_runtime_unload.

End ControllerWamr.

(** ** The controller node with the native hysteresis law
       ([controller/main/controller2.c]) *)

Module Controller2.

Import Wire.
Local Open Scope float_scope.

(** [static float current_temp = 25.0f; static float heater_cmd = 0.0f;] *)
Record state : Type := {
  current_temp : float;
  heater_cmd : float
}.

Definition initial : state :=
  {| current_temp := f_lit 25 1; heater_cmd := f_lit 0 1 |}.

Section Law.

(** The file uses [target_temp] and [hysteresis] and declares neither:
    they are taken as given. *)
Variables target_temp hysteresis : float.

(** [onReceiveData]: the deposit of the reading and, under the same
    mutex, "Bang-bang control with hysteresis". *)
Definition onReceiveData (data : list byte) (take : bool) (st : state)
  : state :=
  match received data with
  | Some p =>
      if (device_id p =? 0)%Z && (id p =? 1)%Z then
        if take then
          let current_temp := value p in
          let heater_cmd :=
            if current_temp < (target_temp - hysteresis) then f_lit 1 1
            else if current_temp > (target_temp + hysteresis) then f_lit 0 1
            else heater_cmd st in
          {| current_temp := current_temp; heater_cmd := heater_cmd |}
        else st
      else st
  | None => st
  end.

End Law.

(** One round of the [while (1)] loop of [app_main]. *)
Definition app_main (take : bool) (packet_counter : Z) (st : state)
  : SimPacket * Z :=
  let cmd_to_send := if take then heater_cmd st else f_lit 0 1 in
  ({| device_id := 1; id := 1; value := cmd_to_send;
      counter := packet_counter |},
   packet_counter + 1)%Z.

End Controller2.

(** ** The guest control program ([controller/containers/controller.c]) *)

Module Guest.

Local Open Scope float_scope.

Definition TARGET_TEMP : float := f_lit 50 1.
Definition HYSTERESIS : float := f_lit 1 1.
Definition CONTROL_PERIOD : Z := 100.

(** The host functions the program imports. *)
Inductive host_call : Type :=
| host_log (msg : string)
| host_get_temperature
| host_set_heater (value : Z)
| host_delay (ms : Z).

Local Open Scope string_scope.

(** One round of the [while (1)] loop of [main]: [current_temp] is what
    [host_get_temperature] returned; the result is the new [heater_state]
    and the host calls of the round, in order. *)
Definition control_round (current_temp : float) (heater_state : Z)
  : Z * list host_call :=
  let (heater_state', calls) :=
    if current_temp < (TARGET_TEMP - HYSTERESIS) then
      if (heater_state =? 0)%Z then
        (1%Z, [host_set_heater 1; host_log "Heater ON - temp below threshold"])
      else (heater_state, [])
    else if current_temp > (TARGET_TEMP + HYSTERESIS) then
      if (heater_state =? 1)%Z then
        (0%Z, [host_set_heater 0; host_log "Heater OFF - temp above threshold"])
      else (heater_state, [])
    else (heater_state, []) in
  (heater_state',
   (host_get_temperature :: calls ++ [host_delay CONTROL_PERIOD])%list).

(** [main] run for as many rounds as there are readings: the state of
    the heater after each round and all host calls made. *)
Fixpoint rounds (readings : list float) (heater_state : Z)
  : list Z * list host_call :=
  match readings with
  | [] => ([], [])
  | r :: rest =>
      let (s, calls) := control_round r heater_state in
      let (states, calls') := rounds rest s in
      (s :: states, (calls ++ calls')%list)
  end.

Definition main (readings : list float) : list Z * list host_call :=
  let (states, calls) := rounds readings 0 in
  (states,
   host_log "Temperature Controller Started"
     :: host_log "Target: 50C with +/-1C hysteresis" :: calls).

End Guest.

(** * Properties *)

(** ** Vocabulary of the statements *)

(** A number lies in the closed interval from [lo] to [hi]. *)
Definition within (lo hi x : float) : Prop :=
  F32.leb lo x = true /\ F32.leb x hi = true.

(** A number lies outside the closed interval: below [lo] or above [hi]. *)
Definition outside (lo hi x : float) : Prop :=
  F32.ltb x lo = true \/ F32.ltb hi x = true.

Definition zero : float := f_lit 0 1.
Definition one : float := f_lit 1 1.

Module Teardown.

Import Wamr.

(** The three handles a run acquires. *)
Inductive resource : Type := module | module_inst | exec_env.

(** The handle a call acquires when the runtime answers non-NULL. *)
Definition acquires (rt : runtime) (e : event) : option resource :=
  match e with
  | wasm_runtime_load => if load rt then Some module else None
  | wasm_runtime_instantiate _ _ =>
      if instantiate rt then Some module_inst else None
  | wasm_runtime_create_exec_env _ =>
      if create_exec_env rt then Some exec_env else None
  | _ => None
  end.

(** The handle a teardown call releases. *)
Definition releases (e : event) : option resource :=
  match e with
  | wasm_runtime_destroy_exec_env => Some exec_env
  | wasm_runtime_deinstantiate => Some module_inst
  | wasm_runtime_unload => Some module
  | _ => None
  end.

Fixpoint choose {A B : Type} (f : A -> option B) (l : list A) : list B :=
  match l with
  | [] => []
  | a :: l' =>
      match f a with
      | Some b => b :: choose f l'
      | None => choose f l'
      end
  end.

(** The handles acquired, in the order of their acquisition. *)
Definition acquired (rt : runtime) (t : list event) : list resource :=
  choose (acquires rt) t.

(** The handles released, in the order of their release. *)
Definition released (t : list event) : list resource :=
  choose releases t.

(** The handles a run holds when it leaves, by the answers of the runtime,
    in the order the claim asks them released. *)
Definition held (rt : runtime) : list resource :=
  if load rt then
    if instantiate rt then
      if create_exec_env rt then [exec_env; module_inst; module]
      else [module_inst; module]
    else [module]
  else [].

Definition teardown_call (r : resource) : event :=
  match r with
  | exec_env => wasm_runtime_destroy_exec_env
  | module_inst => wasm_runtime_deinstantiate
  | module => wasm_runtime_unload
  end.

(** What the claim asks of an engine driver [run], for every way the
    runtime can answer: the handles released are exactly the handles
    acquired, each once, last acquired first; that order is a tail of
    "execution environment, instance, module"; and the teardown calls are
    the last calls of the run. *)
Definition ordered_teardown (run : runtime -> Cmd unit) : Prop :=
  forall rt : runtime,
    let t := trace_of (run rt) in
    released t = rev (acquired rt t)
    /\ (exists skipped, [exec_env; module_inst; module] = skipped ++ released t)
    /\ NoDup (released t)
    /\ (exists body,
          t = body ++ map teardown_call (released t) /\ released body = []).

End Teardown.

Module Scenario.

Import Wire.

(** The four readings of the hysteresis scenario: 48.0, 49.5, 50.5, 52.0. *)
Definition readings : list float :=
  [f_lit 48 1; f_lit 495 10; f_lit 505 10; f_lit 52 1].

(** The same readings as sensor packets of the plant (device 0, signal 1),
    by the 32-bit patterns of their values. *)
Definition reading_packets : list (list byte) :=
  [bytes_of 0 1 0x42400000 0; bytes_of 0 1 0x42460000 1;
   bytes_of 0 1 0x424A0000 2; bytes_of 0 1 0x42500000 3].

(** The states [Controller2.onReceiveData] goes through on a sequence of
    packets, every mutex acquisition succeeding. *)
Fixpoint deposit_all (target_temp hysteresis : float)
    (packets : list (list byte)) (st : Controller2.state)
  : list Controller2.state :=
  match packets with
  | [] => []
  | data :: rest =>
      let st' := Controller2.onReceiveData target_temp hysteresis data true st in
      st' :: deposit_all target_temp hysteresis rest st'
  end.

Definition is_set_heater (c : Guest.host_call) : bool :=
  match c with
  | Guest.host_set_heater _ => true
  | _ => false
  end.

(** The band of the claim, 1.0 either side of the target 50.0. *)
Definition BAND_LOW : float := f_lit 49 1.
Definition BAND_HIGH : float := f_lit 51 1.

(** The law in the words of the claim: an output that is off switches
    only when the reading leaves the band below it, an output that is on
    only when the reading leaves the band above it, and the output is
    held otherwise. *)
Definition hold_or_switch (on : bool) (reading : float) : bool :=
  if on then negb (F32.ltb BAND_HIGH reading) else F32.ltb reading BAND_LOW.

(** The output after each reading of a sequence. *)
Fixpoint outputs (on : bool) (readings : list float) : list bool :=
  match readings with
  | [] => []
  | r :: rest =>
      let on' := hold_or_switch on r in
      on' :: outputs on' rest
  end.

(** The new output at each reading that changes it. *)
Fixpoint switches (on : bool) (readings : list float) : list bool :=
  match readings with
  | [] => []
  | r :: rest =>
      let on' := hold_or_switch on r in
      (if Bool.eqb on' on then [] else [on']) ++ switches on' rest
  end.

(** The command of an output: 1.0 when on, 0.0 when off. *)
Definition command (on : bool) : float := if on then one else zero.

(** A buffer the handlers take for a sensor packet of the plant, and the
    reading it carries. *)
Definition sensor_packet (data : list byte) : Prop :=
  exists p, received data = Some p /\ device_id p = 0 /\ id p = 1.

Definition carried (data : list byte) : float := value (cast data).

(** A sensor packet carrying 60.0 degrees. *)
Definition reading_60 : list byte := bytes_of 0 1 0x42700000 0.

(** A command packet of the controller (device 1, signal 1) whose value
    is a NaN. *)
Definition command_nan : list byte := bytes_of 1 1 0x7FC00000 0.

End Scenario.

Module Plant.

(** A command packet of the controller carrying 1.0. *)
Definition command_on : list byte := Wire.bytes_of 1 1 0x3F800000 0.

(** The plant of [bridge1.c] after the command 1.0 arrived. *)
Definition heated : Bridge1.state :=
  Bridge1.onReceiveData command_on true Bridge1.initial.

(** [n] rounds of [physics_simulation_task] with no packet in between and
    the mutex free, for the draws [rand] of [esp_random]; the loop waits
    50 ms between two rounds. *)
Fixpoint bridge1_run (n : nat) (rand : nat -> Z) (st : Bridge1.state)
  : Bridge1.state :=
  match n with
  | O => st
  | S k =>
      fst (Bridge1.physics_simulation_task true (rand k) (50 * Z.of_nat k)
             (bridge1_run k rand st))
  end.

(** [n] rounds of [physics_simulation_loop] of [bridge.c] with the heater
    pin read as [heater_state] every time. *)
Fixpoint bridge_run (n : nat) (heater_state : Z) (rand : nat -> Z) (t : float)
  : float :=
  match n with
  | O => t
  | S k =>
      fst (Bridge.physics_simulation_loop heater_state (rand k)
             (bridge_run k heater_state rand t))
  end.

(** The temperature of [bridge1.c] and of [bridge.c] after [n] rounds
    with the heater fully on from the initial state. *)
Definition temp1 (rand : nat -> Z) (n : nat) : float :=
  Bridge1.current_temp (bridge1_run n rand heated).

Definition temp0 (rand : nat -> Z) (n : nat) : float :=
  bridge_run n 1 rand Bridge.initial.

(** The temperatures [bridge.c] can hold: the initial one, and the one
    after a round from such a temperature, whatever the pin and the draw. *)
Inductive reachable : float -> Prop :=
| reachable_initial : reachable Bridge.initial
| reachable_round (heater_state rand_val : Z) (t : float) :
    reachable t ->
    reachable (fst (Bridge.physics_simulation_loop heater_state rand_val t)).

(** 64.99468231201171875, the binary32 number 8518983 * 2 ^ -17. *)
Definition settled : float := S754_finite false 8518983 (-17).

(** The round from which the temperature no longer moves. *)
Definition settle_ticks : nat := Z.to_nat 8901.

(** A sequence of binary32 numbers converges to [l]. *)
Definition converges_to (x : nat -> float) (l : float) : Prop :=
  forall eps : float,
    F32.ltb zero eps = true ->
    exists N : nat,
      forall n : nat,
        (N <= n)%nat -> F32.ltb (SFabs (F32.sub (x n) l)) eps = true.

(** The heating scenario in the words of the claim, for the temperatures
    [x] of a plant and its maximum [top]: strictly up at each of the 50
    ticks, below [top] throughout them, and approaching [top]. *)
Definition approaches_top (x : nat -> float) (top : float) : Prop :=
  (forall k : nat,
     (k < 50)%nat ->
     F32.ltb (x k) (x (S k)) = true /\ F32.ltb (x (S k)) top = true)
  /\ converges_to x top.

(** 26.9517745971679687..., the binary32 number 14130492 * 2 ^ -19. *)
Definition after_50_ticks : float := S754_finite false 14130492 (-19).

(** [n] steps of [f] from [x], as long as [P] holds between each value
    and the next: the value reached. *)
Fixpoint climb (P : float -> float -> bool) (f : float -> float) (n : nat)
    (x : float) : option float :=
  match n with
  | O => Some x
  | S k => let y := f x in if P x y then climb P f k y else None
  end.

(** The update with the heater fully on, without and with the clamp. *)
Definition heat (t : float) : float := thermal_update t one.

Definition heat_clamped (t : float) : float := clamp_temp (heat t).

(** Strictly up and strictly below the maximum [top]. *)
Definition rising (top : float) (x y : float) : bool :=
  F32.ltb x y && F32.ltb y top.

(** Not down, at least ambient, at most [settled] and below both maxima. *)
Definition bounded (x y : float) : bool :=
  F32.leb x y && F32.leb AMBIENT_TEMP y && F32.leb y settled
  && F32.ltb y MAX_TEMP && F32.ltb y MAX_HEATER_TEMP.

End Plant.

Module Law.

Section Unclamped.

Context {F : Type} `{FloatArith F}.
Local Open Scope float_scope.

(** The update law with no clamp, fed the commands of [cmds] one per
    tick. *)
Definition run (cmds : list F) (t : F) : F :=
  fold_left (fun t c => thermal_update t c) cmds t.

(** [ambient + heating_rate / cooling_rate]. *)
Definition equilibrium : F := AMBIENT_TEMP + HEATING_RATE / COOLING_RATE.

(** The update with the two roles of the temperature told apart: [t_up]
    where the result grows with it, [t_down] where the result falls. *)
Definition update_bound (t_up t_down heater_cmd : F) : F :=
  let energy_in := heater_cmd * HEATING_RATE in
  let energy_out := (t_down - AMBIENT_TEMP) * COOLING_RATE in
  let target_next_temp := t_up + energy_in - energy_out in
  (t_up * THERMAL_MASS)
  + (target_next_temp * (f_lit 1 1 - THERMAL_MASS)).

End Unclamped.

Local Open Scope Q_scope.

(** A command of the range from 0 to 1: over exact rationals, and as a
    binary32 datum. *)
Definition unit_command (c : Q) : Prop := 0 <= c /\ c <= 1.

Definition unit_command32 (c : float) : Prop :=
  valid_binary F32.prec F32.emax c = true /\ within zero one c.

End Law.

Module Rounding.

(** [fexp] at the parameters of binary32. *)
Definition fexp32 (e : Z) : Z := Z.max (e - 24) (-149).

(** A zero, or a finite number below [2 ^ K] in absolute value whose
    exponent does not overflow. *)
Definition fits (K : Z) (x : float) : Prop :=
  match x with
  | S754_zero _ => True
  | S754_finite _ m e => e <= 104 /\ Zpos m < 2 ^ (K - e)
  | _ => False
  end.

(** A mantissa of at most 24 bits. *)
Definition canon (x : float) : Prop :=
  match x with
  | S754_finite _ m _ => Zpos m < 2 ^ 24
  | _ => True
  end.

(** A temperature of [bridge.c] in range, with a mantissa of 24 bits. *)
Definition sane (t : float) : Prop :=
  within AMBIENT_TEMP MAX_TEMP t /\ canon t.

(** The ordinal of a nonnegative binary32 number: its value in units of
    [2 ^ -149], the smallest positive number. *)
Definition key (x : float) : Z :=
  match x with
  | S754_finite false m e => Zpos m * 2 ^ (e + 149)
  | _ => 0
  end.

(** A zero, or a positive finite number in canonical form. *)
Definition good (x : float) : Prop :=
  match x with
  | S754_zero _ => True
  | S754_finite false m e =>
      -149 <= e <= 104 /\ fexp32 (Zpos (digits2_pos m) + e) = e
  | _ => False
  end.

(** [k] is the integer nearest to [A / (2 * H)], the even one of the two
    when [A / (2 * H)] lies half way. *)
Definition nearest_even (A H k : Z) : Prop :=
  (2 * k - 1) * H <= A <= (2 * k + 1) * H
  /\ (A = (2 * k + 1) * H -> Z.even k = true)
  /\ (A = (2 * k - 1) * H -> Z.even k = true).

(** [rounds B r v]: [r] is the value [v * 2 ^ B] rounded to binary32
    (or is a zero, when [v] is). *)
Definition rounds (B : Z) (r : float) (v : Z) : Prop :=
  ((exists s, r = S754_zero s) /\ v = 0)
  \/ exists p E,
       r = binary_round F32.prec F32.emax false p E
       /\ B <= E /\ Zpos p * 2 ^ (E - B) = v.

(** A positive normal number: a full 24-bit mantissa. *)
Definition normal (k : float) : bool :=
  match k with
  | S754_finite false m e =>
      (Zpos (digits2_pos m) =? 24) && (-149 <=? e) && (e <=? 0)
  | _ => false
  end.

Definition mantissa (k : float) : Z :=
  match k with S754_finite _ m _ => Zpos m | _ => 0 end.

Definition exponent (k : float) : Z :=
  match k with S754_finite _ _ e => e | _ => 0 end.

(** [good], decided. *)
Definition goodb (x : float) : bool :=
  match x with
  | S754_zero _ => true
  | S754_finite false m e => valid_binary F32.prec F32.emax x
  | _ => false
  end.

(** A canonical number from 0 to below [2 ^ 51]. *)
Definition tame (x : float) : Prop := good x /\ key x < 2 ^ 200.

Definition tameb (x : float) : bool := goodb x && (key x <? 2 ^ 200).

(** [x] lies between [lo] and [hi], all three canonical and not negative. *)
Definition between (lo x hi : float) : Prop :=
  good lo /\ good x /\ key lo <= key x <= key hi /\ tame hi.

End Rounding.

Module Enclosure.

Import Rounding Law.

(** The checks under which the update of every temperature between [tl]
    and [th], at every command between [cl] and [ch], lies between the two
    bounds. *)
Definition encloses (tl th cl ch : float) : bool :=
  let energy_in := f_mul ch HEATING_RATE in
  let energy_out := f_mul (f_sub th AMBIENT_TEMP) COOLING_RATE in
  let target_next_temp :=
    f_sub (f_add th energy_in)
          (f_mul (f_sub tl AMBIENT_TEMP) COOLING_RATE) in
  goodb tl && tameb th && goodb cl && tameb ch
  && (key AMBIENT_TEMP <=? key tl)
  && tameb energy_in
  && tameb (f_sub th AMBIENT_TEMP)
  && tameb energy_out
  && tameb (f_add th energy_in)
  && (key energy_out <=? key (f_add tl (f_mul cl HEATING_RATE)))
  && tameb target_next_temp
  && tameb (f_mul th THERMAL_MASS)
  && tameb (f_mul target_next_temp (f_sub (f_lit 1 1) THERMAL_MASS))
  && tameb (update_bound th tl ch).

(** Consecutive pairs of a list. *)
Fixpoint pieces (l : list float) : list (float * float) :=
  match l with
  | a :: (b :: _) as rest => (a, b) :: pieces rest
  | _ => []
  end.

(** The temperatures at which the range from 25 to 65 is cut. *)
Definition breakpoints : list float :=
  map F32.of_bits
    [0x41c80000; 0x41c802a2; 0x41d24a46; 0x4281ec2e; 0x4281fffb; 0x42820000].

(** On a piece, for every command from 0 to 1, the update stays between
    the ambient temperature and the equilibrium. *)
Definition piece_ok (p : float * float) : bool :=
  let '(tl, th) := p in
  encloses tl th zero one
  && (key AMBIENT_TEMP <=? key (update_bound tl th zero))
  && (key (update_bound th tl one) <=? key equilibrium).

(** What every state of [bridge1.c] satisfies as long as no packet carried
    a value that is not a number. *)
Definition steady (st : Bridge1.state) : Prop :=
  (good (Bridge1.current_temp st)
   /\ key AMBIENT_TEMP <= key (Bridge1.current_temp st) <= key equilibrium)
  /\ good (Bridge1.heater_cmd st)
  /\ key (Bridge1.heater_cmd st) <= key one.

End Enclosure.

(** ** A packet in memory, as the senders hand it to [esp_now_send] *)

Module Codec.

Import Wire.

(** The 32-bit pattern of a binary32 number: sign bit 31, biased exponent
    in bits 30..23, fraction in bits 22..0; a number below [2 ^ -126] has
    the exponent field 0, and a value that is not a number is the quiet
    pattern [0x7fc00000]. *)
Definition to_bits (x : float) : Z :=
  match x with
  | S754_zero s => Z.b2z s * 2 ^ 31
  | S754_infinity s => Z.b2z s * 2 ^ 31 + 255 * 2 ^ 23
  | S754_nan => 0x7fc00000
  | S754_finite s m e =>
      Z.b2z s * 2 ^ 31
      + (if Zpos m <? 2 ^ 23 then Zpos m
         else (e + 150) * 2 ^ 23 + (Zpos m - 2 ^ 23))
  end.

(** [(uint8_t * ) &packet], [sizeof (packet)]: the ten bytes of a
    [SimPacket] variable. *)
Definition to_bytes (p : SimPacket) : list byte :=
  bytes_of (device_id p) (id p) (to_bits (value p)) (counter p).

(** The fields of a packet fit their C types: [uint8_t], [uint8_t], a
    [float] datum, [uint32_t]. *)
Definition well_formed (p : SimPacket) : Prop :=
  0 <= device_id p < 2 ^ 8
  /\ 0 <= id p < 2 ^ 8
  /\ valid_binary F32.prec F32.emax (value p) = true
  /\ 0 <= counter p < 2 ^ 32.

End Codec.

(** ** The guest program on the host functions of [controller_wamr.c] *)

Module Hosted.

Import Wamr.

(** The levels written to the heater pin by a sequence of external calls. *)
Definition levels (calls : list event) : list Z :=
  flat_map (fun e =>
              match e with
              | gpio_set_level pin level =>
                  if pin =? ControllerWamr.PIN_HEATER_OUT then [level] else []
              | _ => []
              end) calls.

(** The levels the heater pin receives when the host calls of the guest
    are served by [ControllerWamr.host_set_heater]. *)
Definition pin_levels (calls : list Guest.host_call) : list Z :=
  flat_map (fun c =>
              match c with
              | Guest.host_set_heater value =>
                  levels (trace_of (ControllerWamr.host_set_heater value))
              | _ => []
              end) calls.

(** [expected], then the other of 0 and 1, and so on in turn. *)
Fixpoint alternates (expected : Z) (l : list Z) : bool :=
  match l with
  | [] => true
  | v :: rest => (v =? expected) && alternates (1 - expected) rest
  end.

End Hosted.

(** ** The plant of [bridge1.c] in a loop with the controller of
       [controller2.c] *)

Module Loop.

Import Wire.

Section Law.

Variables target_temp hysteresis : float.

(** The two nodes and the [packet_counter] of the controller's loop. *)
Record state : Type := {
  plant : Bridge1.state;
  controller : Controller2.state;
  packet_counter : Z
}.

Definition initial : state :=
  {| plant := Bridge1.initial;
     controller := Controller2.initial;
     packet_counter := 0 |}.

(** A round of the physics task of the plant, or a round of the sending
    loop of the controller.  The packet of the round is lost
    ([delivered = None]) or reaches the receive callback of the other node,
    which finds its mutex free or not. *)
Inductive event : Type :=
| tick (take : bool) (rand_val timestamp : Z) (delivered : option bool)
| send (take : bool) (delivered : option bool).

Definition step (st : state) (ev : event) : state :=
  match ev with
  | tick take rand_val timestamp delivered =>
      let (plant', sensor_packet) :=
        Bridge1.physics_simulation_task take rand_val timestamp (plant st) in
      {| plant := plant';
         controller :=
           match delivered with
           | Some take' =>
               Controller2.onReceiveData target_temp hysteresis
                 (Codec.to_bytes sensor_packet) take' (controller st)
           | None => controller st
           end;
         packet_counter := packet_counter st |}
  | send take delivered =>
      let (packet, packet_counter') :=
        Controller2.app_main take (packet_counter st) (controller st) in
      {| plant :=
           match delivered with
           | Some take' =>
               Bridge1.onReceiveData (Codec.to_bytes packet) take' (plant st)
           | None => plant st
           end;
         controller := controller st;
         packet_counter := packet_counter' |}
  end.

Definition after (evs : list event) : state := fold_left step evs initial.

End Law.

(** Fully off or fully on. *)
Definition off_or_on (c : float) : Prop := c = zero \/ c = one.

End Loop.

(** ** Loading the guest program ([controller_wamr.c]) *)

Module Loader.

Import Wamr.

(** What the thread of the engine finds: whether SPIFFS mounts, whether
    the runtime initialises, the contents of the file if it opens, whether
    [malloc] returns a buffer, and the answers of the runtime to the run.
    [ftell] and [fread], whose results the code does not check, are taken
    to give the length and the contents of the file. *)
Record platform : Type := {
  spiffs_register : bool;
  full_init : bool;
  file : option (list byte);
  malloc : bool;
  engine : runtime
}.

(** The external calls of [load_wasm_from_spiffs] and
    [wasm_thread_entry]; [run_wasm buffer size calls] is the call of
    [run_wasm] and what it calls in turn, a NULL buffer being [None]. *)
Inductive event : Type :=
| esp_vfs_spiffs_register
| wasm_runtime_full_init
| wasm_runtime_register_natives (module_name : string) (n_native_symbols : Z)
| fopen (filename mode : string)
| fseek_end
| ftell
| fseek_set
| malloc_of (size : Z)
| fread (size : Z)
| fclose
| free (buffer : option (list byte))
| log (level : log_level) (format : string) (arg : option string)
| run_wasm (buffer : option (list byte)) (size : Z) (calls : list Wamr.event).

Local Open Scope string_scope.

(** [load_wasm_from_spiffs (filename, &size)]: the buffer returned (NULL
    is [None]), the value stored in [*size] if one is, and the calls. *)
Definition load_wasm_from_spiffs (pf : platform) (filename : string)
  : option (list byte) * option Z * list event :=
  match file pf with
  | None =>
      (None, None,
       [log LOGI "Opening file: %s" (Some filename); fopen filename "rb";
        log LOGE "Failed to open file" None])
  | Some contents =>
      let fsize := Z.of_nat (List.length contents) in
      if malloc pf then
        (Some contents, Some fsize,
         [log LOGI "Opening file: %s" (Some filename); fopen filename "rb";
          fseek_end; ftell; fseek_set; malloc_of fsize;
          fread fsize; fclose])
      else
        (None, None,
         [log LOGI "Opening file: %s" (Some filename); fopen filename "rb";
          fseek_end; ftell; fseek_set; malloc_of fsize;
          log LOGE "Malloc failed" None; fclose])
  end.

(** [wasm_thread_entry]: the calls of the thread, in order. *)
Definition wasm_thread_entry (pf : platform) : list event :=
  if negb (spiffs_register pf) then
    [esp_vfs_spiffs_register; log LOGE "SPIFFS Mount Failed" None]
  else if negb (full_init pf) then
    [esp_vfs_spiffs_register; wasm_runtime_full_init;
     log LOGE "WAMR Init Failed" None]
  else
    let file_size := 0%Z in
    let '(wasm_file, size, calls) :=
      load_wasm_from_spiffs pf "/spiffs/controller.wasm" in
    let file_size := match size with Some n => n | None => file_size end in
    ([esp_vfs_spiffs_register; wasm_runtime_full_init;
      wasm_runtime_register_natives "env" 4;
      log LOGI "================================================" None;
      log LOGI "Loading WASM container from SPIFFS..." None;
      log LOGI "================================================" None]
     ++ calls
     ++ (match wasm_file with
         | None => [log LOGE "Failed to load WASM file from SPIFFS" None]
         | Some _ => []
         end)
     ++ [run_wasm wasm_file file_size
           (trace_of (ControllerWamr.run_wasm (engine pf)));
         free wasm_file])%list.

(** The runs of the engine, the files opened and the files closed among
    a sequence of calls. *)
Definition runs (calls : list event) : list event :=
  filter (fun e => match e with run_wasm _ _ _ => true | _ => false end) calls.

Definition opened (calls : list event) : list event :=
  filter (fun e => match e with fopen _ _ => true | _ => false end) calls.


End Loader.

(** ** What a run of the engine calls and reports *)

Module Report.

Import Wamr.

(** Every step before the call of the entry point succeeds. *)
Definition ready (rt : runtime) : bool :=
  load rt && instantiate rt && create_exec_env rt && lookup_main rt.

(** The call returns true, or fails with an exception that mentions
    ["terminated"]. *)
Definition ended_well (r : call_result) : bool :=
  match r with
  | call_true => true
  | call_false (Some msg) => strstr msg "terminated"
  | call_false None => false
  end.

Definition entry_calls (calls : list event) : list event :=
  filter (fun e => match e with wasm_runtime_call_wasm => true | _ => false end)
    calls.

Definition exception_reads (calls : list event) : list event :=
  filter (fun e =>
            match e with wasm_runtime_get_exception => true | _ => false end)
    calls.

Definition error_lines (calls : list event) : list event :=
  filter (fun e => match e with esp_log LOGE _ _ => true | _ => false end)
    calls.

Definition global_writes (calls : list event) : list event :=
  filter (fun e =>
            match e with set_global_module_inst _ => true | _ => false end)
    calls.

(** What the calls of a run are expected to show, by the answers [rt] of
    the runtime: the entry point called once if every step before it
    succeeds, the exception read once if that call returns false, and one
    line logged at error level unless the run ended well. *)
Definition outcome (rt : runtime) (calls : list event) : Prop :=
  entry_calls calls = (if ready rt then [wasm_runtime_call_wasm] else [])
  /\ exception_reads calls
     = (if ready rt
        then match call_main rt with
             | call_true => []
             | call_false _ => [wasm_runtime_get_exception]
             end
        else [])
  /\ List.length (error_lines calls)
     = (if ready rt && ended_well (call_main rt) then 0%nat else 1%nat).

End Report.

(** ** Quotients *)

Module Quotient.

Import Rounding.

(** [l] locates the fraction [r / D] of a quotient: zero, below one half,
    one half, above one half. *)
Definition located (l : location) (r D : Z) : Prop :=
  match l with
  | loc_Exact => r = 0
  | loc_Inexact Lt => 0 < 2 * r < D
  | loc_Inexact Eq => 2 * r = D
  | loc_Inexact Gt => D < 2 * r
  end.

(** A canonical number that is zero or at least 1. *)
Definition whole (x : float) : Prop :=
  good x /\ (key x = 0 \/ 2 ^ 149 <= key x).

(** A positive canonical divisor from [2 ^ -60] to below [2 ^ 100]. *)
Definition divisor (y : float) : bool :=
  match y with
  | S754_finite false m e =>
      goodb y && (-60 <=? Zpos (digits2_pos m) + e)
      && (Zpos (digits2_pos m) + e <=? 100)
  | _ => false
  end.

End Quotient.

(** ** The thermostat over ADC and GPIO ([controller/main/controller.c]) *)

Module Thermostat.

Import Wamr.
Local Open Scope float_scope.

Definition PIN_HEATER_OUT : Z := 26.

(** "B. Convert to Calibrated Voltage": [calibrated] tells whether
    [cali_handle] is non-NULL, [cali_mv] is what
    [adc_cali_raw_to_voltage] stores; without calibration the code falls
    back on [adc_raw * 2500 / 4095] in [int] arithmetic. *)
Definition voltage (calibrated : bool) (adc_raw cali_mv : Z) : Z :=
  if calibrated then cali_mv else Z.quot (adc_raw * 2500) 4095.

(** "C. Convert Voltage to Temperature". *)
Definition temperature (voltage_mv : Z) : float :=
  (f_of_int voltage_mv / f_lit 3300 1) * f_lit 100 1.

(** "D. Logic (Thermostat)". *)
Definition heater_cmd (temperature : float) : Z :=
  if temperature < f_lit 50 1 then 1%Z else 0%Z.

(** One round of the [while (1)] loop of [app_main], after the ADC read
    gave [adc_raw]: the level written to the heater pin.  The log line and
    the delay that end the round are left out. *)
Definition app_main (calibrated : bool) (adc_raw cali_mv : Z) : Cmd Z :=
  let voltage_mv := voltage calibrated adc_raw cali_mv in
  let temperature := temperature voltage_mv in
  let heater_cmd := heater_cmd temperature in
  call (gpio_set_level PIN_HEATER_OUT heater_cmd) heater_cmd.

(** The level the thermostat is expected to write: 1 below 1650 mV, that
    is below the raw reading 2703 when the voltage is not calibrated. *)
Definition expected_level (calibrated : bool) (adc_raw cali_mv : Z) : Z :=
  if calibrated then (if (cali_mv <? 1650)%Z then 1%Z else 0%Z)
  else (if (adc_raw <? 2703)%Z then 1%Z else 0%Z).

End Thermostat.


(** * Proofs *)

(** ** Comparisons of binary32 numbers *)

Lemma compare_flip (x y : float) :
  SFcompare x y = option_map CompOpp (SFcompare y x).
Proof.
  destruct x as [[ | ] | [ | ] | | [ | ] m e], y as [[ | ] | [ | ] | | [ | ] m' e'];
    cbn; try reflexivity;
    rewrite (Z.compare_antisym e e'); destruct (e ?= e'); cbn; try reflexivity;
    rewrite (Pos.compare_cont_antisym m' m Eq); cbn;
    try rewrite CompOpp_involutive; reflexivity.
Qed.

Lemma ltb_not_nan (x y : float) :
  F32.ltb x y = true -> F32.is_nan x = false /\ F32.is_nan y = false.
Proof. destruct x, y; cbn; try discriminate; auto. Qed.

Lemma ltb_leb (x y : float) : F32.ltb x y = true -> F32.leb x y = true.
Proof.
  unfold F32.ltb, F32.leb, SFltb, SFleb.
  destruct (SFcompare x y) as [[ | | ] | ]; auto.
Qed.

Lemma not_ltb_leb (x y : float) :
  F32.is_nan x = false -> F32.is_nan y = false ->
  F32.ltb x y = false -> F32.leb y x = true.
Proof.
  intros Hx Hy. unfold F32.ltb, F32.leb, SFltb, SFleb.
  rewrite (compare_flip y x).
  destruct (SFcompare x y) as [[ | | ] | ] eqn:Hc; cbn; try discriminate; auto.
  destruct x, y; cbn in *; discriminate.
Qed.

Lemma leb_not_ltb (x y : float) : F32.leb x y = true -> F32.ltb y x = false.
Proof.
  unfold F32.leb, F32.ltb, SFleb, SFltb. rewrite (compare_flip y x).
  destruct (SFcompare x y) as [[ | | ] | ]; cbn; congruence.
Qed.

Lemma ltb_not_ltb (x y : float) : F32.ltb x y = true -> F32.ltb y x = false.
Proof. intros H. apply leb_not_ltb, ltb_leb, H. Qed.

Lemma outside_not_nan (lo hi v : float) :
  outside lo hi v -> F32.is_nan v = false.
Proof. intros [H | H]; apply ltb_not_nan in H; tauto. Qed.

(** ** The command written through the bridge *)

(** A number, whatever its size, is stored by [host_set_heater] of
    [controller1.c] as a number from 0 to 1. *)
Lemma host_set_heater_clamps (v : float) (st : Controller1.state) :
  F32.is_nan v = false ->
  within zero one
    (Controller1.heater_cmd (Controller1.host_set_heater v true st)).
Proof.
  intros Hnan. unfold Controller1.host_set_heater.
  cbn [Controller1.heater_cmd].
  change (f_lt v (f_lit 0 1)) with (F32.ltb v zero).
  destruct (F32.ltb v zero) eqn:H0.
  - split; reflexivity.
  - change (f_lt (f_lit 1 1) v) with (F32.ltb one v).
    destruct (F32.ltb one v) eqn:H1; [split; reflexivity | ].
    split; apply not_ltb_leb; auto.
Qed.

(** The same for a command packet accepted by the plant of [bridge1.c]. *)
Lemma bridge1_receive_clamps (data : list byte) (p : Wire.SimPacket)
    (st : Bridge1.state) :
  Wire.received data = Some p ->
  Wire.device_id p = 1 -> Wire.id p = 1 ->
  F32.is_nan (Wire.value p) = false ->
  within zero one (Bridge1.heater_cmd (Bridge1.onReceiveData data true st)).
Proof.
  intros Hrecv Hdev Hid Hnan. unfold Bridge1.onReceiveData.
  rewrite Hrecv, Hdev, Hid. cbn [Z.eqb Pos.eqb andb Bridge1.heater_cmd].
  change (f_le (Wire.value p) (f_lit 0 1)) with (F32.leb (Wire.value p) zero).
  destruct (F32.leb (Wire.value p) zero) eqn:H0.
  - split; reflexivity.
  - change (f_le (f_lit 1 1) (Wire.value p)) with (F32.leb one (Wire.value p)).
    destruct (F32.leb one (Wire.value p)) eqn:H1; [split; reflexivity | ].
    assert (Hlt0 : F32.ltb (Wire.value p) zero = false).
    { destruct (F32.ltb (Wire.value p) zero) eqn:E; [ | reflexivity].
      apply ltb_leb in E. congruence. }
    assert (Hlt1 : F32.ltb one (Wire.value p) = false).
    { destruct (F32.ltb one (Wire.value p)) eqn:E; [ | reflexivity].
      apply ltb_leb in E. congruence. }
    split; apply not_ltb_leb; auto.
Qed.

(** Every number below 0 or above 1 given to [host_set_heater] of
    [controller1.c] or received by the plant of [bridge1.c] is stored as
    a number from 0 to 1; a write whose mutex times out stores nothing. *)
Lemma written_commands_are_clamped (v : float) :
  outside zero one v ->
  (forall st,
      within zero one
        (Controller1.heater_cmd (Controller1.host_set_heater v true st))
      /\ Controller1.host_set_heater v false st = st)
  /\ (forall data p st,
        Wire.received data = Some p ->
        Wire.device_id p = 1 -> Wire.id p = 1 -> Wire.value p = v ->
        within zero one
          (Bridge1.heater_cmd (Bridge1.onReceiveData data true st))).
Proof.
  intros Hout. pose proof (outside_not_nan _ _ v Hout) as Hnan. split.
  - intros st. split; [ | reflexivity].
    apply host_set_heater_clamps, Hnan.
  - intros data p st Hrecv Hdev Hid Hv.
    apply (bridge1_receive_clamps data p st Hrecv Hdev Hid).
    rewrite Hv. exact Hnan.
Qed.

(** A NaN is neither below 0 nor above 1: both clamps let it through. *)
Lemma nan_command_is_stored :
  Controller1.heater_cmd
    (Controller1.host_set_heater S754_nan true Controller1.initial)
  = S754_nan
  /\ Bridge1.heater_cmd
       (Bridge1.onReceiveData Scenario.command_nan true Bridge1.initial)
     = S754_nan.
Proof. split; vm_compute; reflexivity. Qed.

(** C1, on [controller_wamr.c]: [host_set_heater] hands its argument to
    [gpio_set_level] as it is.  For the arguments 2 and -1, which lie
    outside the range from 0 to 1, the level written to the heater pin is
    2 and -1: nothing is clamped, although the comment in the body of the
    function says so. *)
Theorem host_set_heater_wamr_forwards_unclamped :
  Wamr.trace_of (ControllerWamr.host_set_heater 2)
  = [Wamr.gpio_set_level ControllerWamr.PIN_HEATER_OUT 2]
  /\ Wamr.trace_of (ControllerWamr.host_set_heater (-1))
     = [Wamr.gpio_set_level ControllerWamr.PIN_HEATER_OUT (-1)].
Proof. split; reflexivity. Qed.

(** ** Packets of the wrong length *)

Lemma received_wrong_length (data : list byte) :
  Z.of_nat (List.length data) <> Wire.sizeof_SimPacket ->
  Wire.received data = None.
Proof.
  intros Hlen. unfold Wire.received.
  destruct (Z.eqb_spec (Z.of_nat (List.length data)) Wire.sizeof_SimPacket);
    [contradiction | reflexivity].
Qed.

(** C2: a buffer whose length is not [sizeof (SimPacket)] yields no packet,
    and the receive handlers of the plant ([bridge1.c]) and of the
    controller ([controller1.c], [controller2.c]) return the state they
    were given, whether or not the mutex is free: neither the stored
    process variable nor the stored command changes. *)
Theorem wrong_length_is_dropped (data : list byte) (take : bool) :
  Z.of_nat (List.length data) <> Wire.sizeof_SimPacket ->
  Wire.received data = None
  /\ (forall st, Bridge1.onReceiveData data take st = st)
  /\ (forall st, Controller1.onReceiveData data take st = st)
  /\ (forall target_temp hysteresis st,
        Controller2.onReceiveData target_temp hysteresis data take st = st).
Proof.
  intros Hlen. pose proof (received_wrong_length data Hlen) as Hnone.
  unfold Bridge1.onReceiveData, Controller1.onReceiveData,
    Controller2.onReceiveData.
  rewrite Hnone. repeat split; reflexivity.
Qed.

Lemma wrong_length_is_dropped_witness :
  Wire.received [x01; x01; x00] = None
  /\ (forall st, Bridge1.onReceiveData [x01; x01; x00] true st = st)
  /\ (forall st, Controller1.onReceiveData [x01; x01; x00] true st = st)
  /\ (forall target_temp hysteresis st,
        Controller2.onReceiveData target_temp hysteresis [x01; x01; x00] true st
        = st).
Proof.
  apply (wrong_length_is_dropped [x01; x01; x00] true).
  vm_compute. discriminate.
Defined.

(** ** Engine teardown *)

Section TeardownProofs.

Import Wamr Teardown.

(** Every way the runtime can answer one run: five answers, and for a
    failed call whether the exception text mentions a termination. *)
Ltac answer_cases rt :=
  let msg := fresh "msg" in
  let Hterm := fresh "Hterm" in
  destruct rt as [[] [] [] [] [ | [msg | ]]];
  try (destruct (strstr msg "terminated") eqn:Hterm);
  cbn; try rewrite Hterm; cbn.

Ltac skipped_prefix :=
  first [ exists []; reflexivity
        | exists [exec_env]; reflexivity
        | exists [exec_env; module_inst]; reflexivity
        | exists [exec_env; module_inst; module]; reflexivity ].

Ltac body_prefix :=
  lazymatch goal with
  | |- exists body, ?t = body ++ ?tail /\ _ =>
      exists (firstn (List.length t - List.length tail) t); split; reflexivity
  end.

Ltac teardown_case :=
  split; [reflexivity | split; [skipped_prefix | split; [ | body_prefix]]];
  repeat constructor; cbn; intuition discriminate.

Lemma run_wasm1_teardown : ordered_teardown Controller1.run_wasm.
Proof. intros rt t; subst t. answer_cases rt; teardown_case. Qed.

Lemma run_wasm_wamr_teardown : ordered_teardown ControllerWamr.run_wasm.
Proof. intros rt t; subst t. answer_cases rt; teardown_case. Qed.

End TeardownProofs.

Lemma run_wasm_releases_held (rt : Wamr.runtime) :
  Teardown.released (Wamr.trace_of (Controller1.run_wasm rt))
  = Teardown.held rt
  /\ Teardown.released (Wamr.trace_of (ControllerWamr.run_wasm rt))
     = Teardown.held rt.
Proof.
  destruct rt as [l i c m r].
  destruct l; [ | split; reflexivity].
  destruct i; [ | split; reflexivity].
  destruct c; [ | split; reflexivity].
  destruct m; [ | split; reflexivity].
  destruct r as [ | [msg | ]]; [split; reflexivity | | split; reflexivity].
  cbv -[Wamr.strstr].
  destruct (Wamr.strstr msg "terminated"); split; reflexivity.
Qed.

(** C3: on every exit path of [run_wasm], in [controller1.c] and in
    [controller_wamr.c] (the load fails, the instantiation fails, no
    execution environment, no ["main"], the call returns, the call is
    terminated, the call raises an exception), the handles released are
    exactly the handles acquired, each once, in the order execution
    environment, instance, module, and the teardown calls come last.
    By the answers of the runtime, the handles released are: none when
    the load fails; the module when the instantiation fails; the instance
    and the module when no execution environment is created; the
    execution environment, the instance and the module otherwise. *)
Theorem teardown_order_on_every_exit_path :
  Teardown.ordered_teardown Controller1.run_wasm
  /\ Teardown.ordered_teardown ControllerWamr.run_wasm
  /\ (forall rt : Wamr.runtime,
        Teardown.released (Wamr.trace_of (Controller1.run_wasm rt))
        = Teardown.held rt
        /\ Teardown.released (Wamr.trace_of (ControllerWamr.run_wasm rt))
           = Teardown.held rt).
Proof.
  split; [apply run_wasm1_teardown | ].
  split; [apply run_wasm_wamr_teardown | apply run_wasm_releases_held].
Qed.

(** ** Hysteresis *)

Lemma reading_packets_carry_readings :
  map (fun data => option_map Wire.value (Wire.received data))
    Scenario.reading_packets
  = map Some Scenario.readings.
Proof. vm_compute. reflexivity. Qed.

(** Inside the band the guest leaves the heater as it is and calls
    [host_set_heater] for nothing. *)
Lemma guest_holds_inside_band (r : float) (s : Z) :
  F32.ltb r (f_lit 49 1) = false ->
  F32.ltb (f_lit 51 1) r = false ->
  Guest.control_round r s
  = (s, [Guest.host_get_temperature; Guest.host_delay 100]).
Proof.
  intros Hlo Hhi. unfold Guest.control_round.
  change (f_lt r (f_sub Guest.TARGET_TEMP Guest.HYSTERESIS))
    with (F32.ltb r (f_lit 49 1)).
  change (f_lt (f_add Guest.TARGET_TEMP Guest.HYSTERESIS) r)
    with (F32.ltb (f_lit 51 1) r).
  rewrite Hlo, Hhi. reflexivity.
Qed.

(** Below a number is below a larger one of the same exponent. *)
Lemma ltb_same_exponent (s : bool) (m a b : positive) (e e0 : Z) :
  (a < b)%positive ->
  F32.ltb (S754_finite s m e) (S754_finite false a e0) = true ->
  F32.ltb (S754_finite s m e) (S754_finite false b e0) = true.
Proof.
  intros Hab. unfold F32.ltb, SFltb. cbn [SFcompare].
  destruct s; [reflexivity | ].
  destruct (Z.compare e e0); try discriminate; try reflexivity.
  destruct (Pos.compare_cont Eq m a) eqn:Hm; try discriminate.
  intros _.
  assert (Hlt : (m < a)%positive) by exact Hm.
  assert (Hlt' : Pos.compare_cont Eq m b = Lt)
    by (change (m < b)%positive; lia).
  rewrite Hlt'. reflexivity.
Qed.

(** Below the band is not above it. *)
Lemma below_band (r : float) :
  F32.ltb r Scenario.BAND_LOW = true -> F32.ltb r Scenario.BAND_HIGH = true.
Proof.
  destruct r as [s | [ | ] | | s m e]; try reflexivity; try discriminate.
  apply (ltb_same_exponent s m 12845056 13369344 e (-18)). reflexivity.
Qed.

Lemma band_order (r : float) :
  F32.ltb r Scenario.BAND_LOW = true -> F32.ltb Scenario.BAND_HIGH r = false.
Proof. intros H. apply ltb_not_ltb, below_band, H. Qed.

(** One round of the guest is one step of the law. *)
Lemma control_round_law (r : float) (on : bool) :
  fst (Guest.control_round r (Z.b2z on))
  = Z.b2z (Scenario.hold_or_switch on r)
  /\ filter Scenario.is_set_heater (snd (Guest.control_round r (Z.b2z on)))
     = (if Bool.eqb (Scenario.hold_or_switch on r) on then []
        else [Guest.host_set_heater (Z.b2z (Scenario.hold_or_switch on r))]).
Proof.
  unfold Guest.control_round, Scenario.hold_or_switch.
  change (f_lt r (f_sub Guest.TARGET_TEMP Guest.HYSTERESIS))
    with (F32.ltb r Scenario.BAND_LOW).
  change (f_lt (f_add Guest.TARGET_TEMP Guest.HYSTERESIS) r)
    with (F32.ltb Scenario.BAND_HIGH r).
  destruct (F32.ltb r Scenario.BAND_LOW) eqn:Hlo.
  - rewrite (band_order r Hlo). destruct on; split; reflexivity.
  - destruct (F32.ltb Scenario.BAND_HIGH r); destruct on; split; reflexivity.
Qed.

Lemma rounds_law (readings : list float) :
  forall on : bool,
    fst (Guest.rounds readings (Z.b2z on))
    = map Z.b2z (Scenario.outputs on readings)
    /\ filter Scenario.is_set_heater (snd (Guest.rounds readings (Z.b2z on)))
       = map (fun on' => Guest.host_set_heater (Z.b2z on'))
           (Scenario.switches on readings).
Proof.
  induction readings as [ | r rest IH]; intros on; [split; reflexivity | ].
  cbn [Guest.rounds Scenario.outputs Scenario.switches].
  destruct (control_round_law r on) as [Hs Hc].
  destruct (Guest.control_round r (Z.b2z on)) as [s calls].
  cbn [fst snd] in Hs, Hc. subst s.
  destruct (IH (Scenario.hold_or_switch on r)) as [IHs IHc].
  destruct (Guest.rounds rest (Z.b2z (Scenario.hold_or_switch on r)))
    as [states calls'].
  cbn [fst snd map] in *. split; [rewrite IHs; reflexivity | ].
  rewrite filter_app, Hc, IHc, map_app.
  destruct (Bool.eqb (Scenario.hold_or_switch on r) on); reflexivity.
Qed.

(** One deposit of [controller2.c], at the target 50.0 and the band 1.0,
    is one step of the law. *)
Lemma deposit_law (data : list byte) (on : bool) (st : Controller2.state) :
  Scenario.sensor_packet data ->
  Controller2.heater_cmd st = Scenario.command on ->
  Controller2.heater_cmd
    (Controller2.onReceiveData (f_lit 50 1) (f_lit 1 1) data true st)
  = Scenario.command (Scenario.hold_or_switch on (Scenario.carried data))
  /\ Controller2.current_temp
       (Controller2.onReceiveData (f_lit 50 1) (f_lit 1 1) data true st)
     = Scenario.carried data.
Proof.
  intros (p & Hr & Hd & Hi) Hst.
  assert (Hp : p = Wire.cast data).
  { unfold Wire.received in Hr.
    destruct (Z.of_nat (List.length data) =? Wire.sizeof_SimPacket);
      [injection Hr as <-; reflexivity | discriminate]. }
  unfold Controller2.onReceiveData, Scenario.carried, Scenario.hold_or_switch.
  rewrite Hr, Hd, Hi. cbn [Z.eqb andb Controller2.heater_cmd
                           Controller2.current_temp].
  rewrite Hp.
  change (f_lt (Wire.value (Wire.cast data)) (f_sub (f_lit 50 1) (f_lit 1 1)))
    with (F32.ltb (Wire.value (Wire.cast data)) Scenario.BAND_LOW).
  change (f_lt (f_add (f_lit 50 1) (f_lit 1 1)) (Wire.value (Wire.cast data)))
    with (F32.ltb Scenario.BAND_HIGH (Wire.value (Wire.cast data))).
  split; [ | reflexivity].
  destruct (F32.ltb (Wire.value (Wire.cast data)) Scenario.BAND_LOW) eqn:Hlo.
  - rewrite (band_order _ Hlo). destruct on; reflexivity.
  - destruct (F32.ltb Scenario.BAND_HIGH (Wire.value (Wire.cast data)));
      destruct on; try reflexivity; exact Hst.
Qed.

Lemma deposit_all_law (packets : list (list byte)) :
  Forall Scenario.sensor_packet packets ->
  forall (on : bool) (st : Controller2.state),
    Controller2.heater_cmd st = Scenario.command on ->
    map Controller2.heater_cmd
      (Scenario.deposit_all (f_lit 50 1) (f_lit 1 1) packets st)
    = map Scenario.command
        (Scenario.outputs on (map Scenario.carried packets))
    /\ map Controller2.current_temp
         (Scenario.deposit_all (f_lit 50 1) (f_lit 1 1) packets st)
       = map Scenario.carried packets.
Proof.
  induction 1 as [ | data packets Hd _ IH]; intros on st Hst;
    [split; reflexivity | ].
  cbn [Scenario.deposit_all map Scenario.outputs].
  destruct (deposit_law data on st Hd Hst) as [Hc Ht].
  destruct (IH _ _ Hc) as [IHc IHt].
  rewrite Hc, Ht, IHc, IHt. split; reflexivity.
Qed.

(** C7: with the band of 1.0 around the target 50.0 and the heater off
    at the start, the readings 48.0, 49.5, 50.5, 52.0 leave the heater ON,
    ON, ON, OFF.  The guest program ([controller.c]) ends its four rounds
    with the heater state 1, 1, 1, 0 and calls [host_set_heater] twice,
    with 1 on the first reading and with 0 on the last; the native law of
    [controller2.c] stores the commands 1.0, 1.0, 1.0, 0.0 as it deposits
    the four readings.  Inside the band the guest keeps the state it has.
    And in general, for every sequence of readings (numbers or not), the
    outputs of both controllers are those of the law of the claim: an
    output that is off switches only on a reading below 49.0, an output
    that is on only on a reading above 51.0, and it is held otherwise; the
    guest calls [host_set_heater] at each switch, with the new output, and
    at no other time. *)
Theorem hysteresis_scenario :
  fst (Guest.main Scenario.readings) = [1; 1; 1; 0]
  /\ filter Scenario.is_set_heater (snd (Guest.main Scenario.readings))
     = [Guest.host_set_heater 1; Guest.host_set_heater 0]
  /\ map Controller2.heater_cmd
       (Scenario.deposit_all (f_lit 50 1) (f_lit 1 1) Scenario.reading_packets
          Controller2.initial)
     = [one; one; one; zero]
  /\ map Controller2.current_temp
       (Scenario.deposit_all (f_lit 50 1) (f_lit 1 1) Scenario.reading_packets
          Controller2.initial)
     = Scenario.readings
  /\ (forall r s,
        F32.ltb r (f_lit 49 1) = false ->
        F32.ltb (f_lit 51 1) r = false ->
        fst (Guest.control_round r s) = s)
  /\ (forall readings : list float,
        fst (Guest.main readings)
        = map Z.b2z (Scenario.outputs false readings)
        /\ filter Scenario.is_set_heater (snd (Guest.main readings))
           = map (fun on => Guest.host_set_heater (Z.b2z on))
               (Scenario.switches false readings))
  /\ (forall packets : list (list byte),
        Forall Scenario.sensor_packet packets ->
        map Controller2.heater_cmd
          (Scenario.deposit_all (f_lit 50 1) (f_lit 1 1) packets
             Controller2.initial)
        = map Scenario.command
            (Scenario.outputs false (map Scenario.carried packets)))
  /\ (forall (r : float) (on : bool),
        fst (Guest.control_round r (Z.b2z on)) <> Z.b2z on ->
        (on = false /\ F32.ltb r (f_lit 49 1) = true)
        \/ (on = true /\ F32.ltb (f_lit 51 1) r = true)).
Proof.
  split; [vm_compute; reflexivity | ].
  split; [vm_compute; reflexivity | ].
  split; [vm_compute; reflexivity | ].
  split; [vm_compute; reflexivity | ].
  split.
  { intros r s Hlo Hhi. rewrite (guest_holds_inside_band r s Hlo Hhi).
    reflexivity. }
  split.
  { intros readings. unfold Guest.main.
    destruct (rounds_law readings false) as [Hs Hc].
    change (Z.b2z false) with 0 in Hs, Hc.
    destruct (Guest.rounds readings 0) as [states calls].
    cbn [fst snd] in *. split; [exact Hs | exact Hc]. }
  split.
  { intros packets Hp.
    apply (deposit_all_law packets Hp false Controller2.initial).
    reflexivity. }
  intros r on Hne.
  rewrite (proj1 (control_round_law r on)) in Hne.
  unfold Scenario.hold_or_switch in Hne.
  change Scenario.BAND_LOW with (f_lit 49 1 : float) in Hne.
  change Scenario.BAND_HIGH with (f_lit 51 1 : float) in Hne.
  destruct on.
  - right. split; [reflexivity | ].
    destruct (F32.ltb (f_lit 51 1) r); [reflexivity | ].
    exfalso. apply Hne. reflexivity.
  - left. split; [reflexivity | ].
    destruct (F32.ltb r (f_lit 49 1)); [reflexivity | ].
    exfalso. apply Hne. reflexivity.
Qed.

(** ** Mutex timeouts *)

(** C8, as stated, fails on [host_get_temperature]: after the reading 60.0
    was deposited, a read whose mutex times out returns 25.0, which is
    not the last reading supplied. *)
Lemma timed_out_read_forgets_last_reading :
  Controller1.current_temp
    (Controller1.onReceiveData Scenario.reading_60 true Controller1.initial)
  = f_lit 60 1
  /\ Controller1.host_get_temperature false
       (Controller1.onReceiveData Scenario.reading_60 true Controller1.initial)
     = f_lit 25 1
  /\ F32.eqb (f_lit 25 1) (f_lit 60 1) = false.
Proof. repeat split; vm_compute; reflexivity. Qed.

Lemma controller1_receive_timeout (data : list byte) (st : Controller1.state) :
  Controller1.onReceiveData data false st = st.
Proof.
  unfold Controller1.onReceiveData.
  destruct (Wire.received data) as [p | ]; [ | reflexivity].
  destruct ((Wire.device_id p =? 0) && (Wire.id p =? 1))%bool; reflexivity.
Qed.

Lemma bridge1_receive_timeout (data : list byte) (st : Bridge1.state) :
  Bridge1.onReceiveData data false st = st.
Proof.
  unfold Bridge1.onReceiveData.
  destruct (Wire.received data) as [p | ]; [ | reflexivity].
  destruct ((Wire.device_id p =? 1) && (Wire.id p =? 1))%bool; reflexivity.
Qed.

Lemma controller2_receive_timeout (target_temp hysteresis : float)
    (data : list byte) (st : Controller2.state) :
  Controller2.onReceiveData target_temp hysteresis data false st = st.
Proof.
  unfold Controller2.onReceiveData.
  destruct (Wire.received data) as [p | ]; [ | reflexivity].
  destruct ((Wire.device_id p =? 0) && (Wire.id p =? 1))%bool; reflexivity.
Qed.

(** C8, amended: when the mutex is not acquired within its bound, a read
    of the command yields 0.0 (the sender loops of [controller1.c] and
    [controller2.c] send 0.0, the plant of [bridge1.c] computes its tick
    with 0.0), a read of the reading by [host_get_temperature] yields the
    fixed value 25.0, and a write (of a command by [host_set_heater], of a
    received value by a receive handler, of an ADC sample by
    [reader_task]) is skipped and leaves the state as it was. *)
Theorem timeout_defaults :
  (forall pc st,
      Wire.value (fst (Controller1.sender_task false pc st)) = zero)
  /\ (forall pc st,
        Wire.value (fst (Controller2.app_main false pc st)) = zero)
  /\ (forall rv ts st,
        Bridge1.current_temp
          (fst (Bridge1.physics_simulation_task false rv ts st))
        = thermal_update (Bridge1.current_temp st) zero)
  /\ (forall st, Controller1.host_get_temperature false st = f_lit 25 1)
  /\ (forall st, ControllerWamr.host_get_temperature false st = f_lit 25 1)
  /\ (forall v st, Controller1.host_set_heater v false st = st)
  /\ (forall data st, Controller1.onReceiveData data false st = st)
  /\ (forall data st, Bridge1.onReceiveData data false st = st)
  /\ (forall target_temp hysteresis data st,
        Controller2.onReceiveData target_temp hysteresis data false st = st)
  /\ (forall mv st, ControllerWamr.reader_task mv false st = st).
Proof.
  repeat split; try reflexivity.
  - apply controller1_receive_timeout.
  - apply bridge1_receive_timeout.
  - apply controller2_receive_timeout.
Qed.

(** ** What a receive handler writes *)

(** C9, as stated, fails on [controller2.c]: its handler, given the
    reading 48.0 with the heater off, also switches the stored command
    from 0.0 to 1.0. *)
Lemma controller2_handler_decides :
  Controller2.heater_cmd Controller2.initial = zero
  /\ Controller2.heater_cmd
       (Controller2.onReceiveData (f_lit 50 1) (f_lit 1 1)
          (Wire.bytes_of 0 1 0x42400000 0) true Controller2.initial)
     = one
  /\ F32.eqb zero one = false.
Proof. repeat split; vm_compute; reflexivity. Qed.

(** C9, amended: the handler of [controller1.c] never changes the stored
    command and the handler of [bridge1.c] never changes the stored
    temperature; the handler of [controller1.c] changes the state only on
    a sensor packet of the plant with the mutex acquired, and then stores
    the value of the packet as the temperature.  The handler of
    [controller2.c] does the same deposit and, with it, sets the stored
    command by the hysteresis law: 1.0 below the band, 0.0 above it,
    unchanged inside. *)
Theorem handler_frame :
  (forall data take st,
      Controller1.heater_cmd (Controller1.onReceiveData data take st)
      = Controller1.heater_cmd st)
  /\ (forall data take st,
        Bridge1.current_temp (Bridge1.onReceiveData data take st)
        = Bridge1.current_temp st)
  /\ (forall data take st,
        Controller1.onReceiveData data take st = st
        \/ exists p,
             Wire.received data = Some p
             /\ Wire.device_id p = 0 /\ Wire.id p = 1 /\ take = true
             /\ Controller1.current_temp (Controller1.onReceiveData data take st)
                = Wire.value p)
  /\ (forall target_temp hysteresis data take st,
        Controller2.onReceiveData target_temp hysteresis data take st = st
        \/ exists p,
             Wire.received data = Some p
             /\ Wire.device_id p = 0 /\ Wire.id p = 1 /\ take = true
             /\ Controller2.current_temp
                  (Controller2.onReceiveData target_temp hysteresis data take st)
                = Wire.value p
             /\ Controller2.heater_cmd
                  (Controller2.onReceiveData target_temp hysteresis data take st)
                = if F32.ltb (Wire.value p) (F32.sub target_temp hysteresis)
                  then one
                  else if F32.ltb (F32.add target_temp hysteresis) (Wire.value p)
                       then zero
                       else Controller2.heater_cmd st).
Proof.
  repeat split; intros.
  - unfold Controller1.onReceiveData.
    destruct (Wire.received data) as [p | ]; [ | reflexivity].
    destruct ((Wire.device_id p =? 0) && (Wire.id p =? 1))%bool;
      destruct take; reflexivity.
  - unfold Bridge1.onReceiveData.
    destruct (Wire.received data) as [p | ]; [ | reflexivity].
    destruct ((Wire.device_id p =? 1) && (Wire.id p =? 1))%bool;
      destruct take; reflexivity.
  - unfold Controller1.onReceiveData.
    destruct (Wire.received data) as [p | ]; [ | left; reflexivity].
    destruct ((Wire.device_id p =? 0) && (Wire.id p =? 1))%bool eqn:Hk;
      [ | left; reflexivity].
    destruct take; [right | left; reflexivity].
    apply andb_true_iff in Hk. destruct Hk as [Hd Hi].
    apply Z.eqb_eq in Hd, Hi. exists p. auto.
  - unfold Controller2.onReceiveData.
    destruct (Wire.received data) as [p | ]; [ | left; reflexivity].
    destruct ((Wire.device_id p =? 0) && (Wire.id p =? 1))%bool eqn:Hk;
      [ | left; reflexivity].
    destruct take; [right | left; reflexivity].
    apply andb_true_iff in Hk. destruct Hk as [Hd Hi].
    apply Z.eqb_eq in Hd, Hi. exists p. repeat split; auto.
Qed.

Import Rounding.

(** ** Rounding to binary32: magnitudes

    What is needed of [binary_round_aux] to follow the update of the
    plant: a rounded result is never a NaN, its mantissa has at most 24
    bits, and it does not overflow while the magnitude of the exact
    result stays small. *)

Lemma digits2_pos_upper (p : positive) : Zpos p < 2 ^ Zpos (digits2_pos p).
Proof.
  induction p as [p IH | p IH | ]; cbn [digits2_pos];
    try rewrite Pos2Z.inj_succ, Z.pow_succ_r by lia; lia.
Qed.

Lemma digits2_pos_lower (p : positive) : 2 ^ Zpos (digits2_pos p) <= 2 * Zpos p.
Proof.
  induction p as [p IH | p IH | ]; cbn [digits2_pos];
    try rewrite Pos2Z.inj_succ, Z.pow_succ_r by lia; lia.
Qed.

Lemma Zdigits2_nonneg (m : Z) : 0 <= Zdigits2 m.
Proof. destruct m; cbn; lia. Qed.

Lemma Zdigits2_upper (m : Z) : 0 <= m -> m < 2 ^ Zdigits2 m.
Proof.
  destruct m as [ | p | p]; cbn; intros; try lia. apply digits2_pos_upper.
Qed.

(** A nonnegative number below [2 ^ k] has at most [k] binary digits. *)
Lemma Zdigits2_le (m k : Z) : 0 <= m -> 0 <= k -> m < 2 ^ k -> Zdigits2 m <= k.
Proof.
  intros Hm Hk Hlt. destruct m as [ | p | p]; cbn; try lia.
  pose proof (digits2_pos_lower p) as Hlow.
  destruct (Z_lt_le_dec k (Zpos (digits2_pos p))) as [Hgt | ]; [ | lia].
  exfalso.
  assert (2 ^ (k + 1) <= 2 ^ Zpos (digits2_pos p))
    by (apply Z.pow_le_mono_r; lia).
  rewrite Z.pow_add_r in H by lia. lia.
Qed.

(** [iter_pos] is plain iteration. *)
Lemma iter_pos_nat {A : Type} (f : A -> A) (p : positive) (x : A) :
  iter_pos f p x = Nat.iter (Pos.to_nat p) f x.
Proof.
  revert x. induction p as [p IH | p IH | ]; intros x; cbn [iter_pos].
  - rewrite !IH, Pos2Nat.inj_xI.
    replace (S (2 * Pos.to_nat p)) with (Pos.to_nat p + (Pos.to_nat p + 1))%nat
      by lia.
    rewrite !Nat.iter_add. reflexivity.
  - rewrite !IH, Pos2Nat.inj_xO.
    replace (2 * Pos.to_nat p)%nat with (Pos.to_nat p + Pos.to_nat p)%nat by lia.
    rewrite Nat.iter_add. reflexivity.
  - reflexivity.
Qed.

Lemma shr_1_halves (mrs : shr_record) :
  0 <= shr_m mrs ->
  0 <= shr_m (shr_1 mrs) /\ 2 * shr_m (shr_1 mrs) <= shr_m mrs.
Proof.
  destruct mrs as [[ | [p | p | ] | p] r s]; cbn; lia.
Qed.

Lemma shr_n_halves (n : nat) (mrs : shr_record) :
  0 <= shr_m mrs ->
  0 <= shr_m (Nat.iter n shr_1 mrs)
  /\ 2 ^ Z.of_nat n * shr_m (Nat.iter n shr_1 mrs) <= shr_m mrs.
Proof.
  intros Hm. induction n as [ | n [IH0 IH]].
  - change (Nat.iter 0 shr_1 mrs) with mrs. change (Z.of_nat 0) with 0.
    rewrite Z.pow_0_r. lia.
  - cbn [Nat.iter nat_rect]. destruct (shr_1_halves _ IH0) as [H0 H1].
    split; [assumption | ].
    rewrite Nat2Z.inj_succ. rewrite Z.pow_succ_r by apply Nat2Z.is_nonneg.
    fold (Nat.iter n shr_1 mrs).
    set (k := 2 ^ Z.of_nat n) in *.
    assert (0 < k) by (apply Z.pow_pos_nonneg; lia). nia.
Qed.

(** The mantissa and the exponent [shr] returns: the exponent grows by
    the shift, the mantissa shrinks by the matching power of two. *)
Lemma shr_spec (mrs : shr_record) (e n : Z) :
  0 <= shr_m mrs ->
  let '(mrs', e') := shr mrs e n in
  0 <= shr_m mrs'
  /\ e' = e + Z.max 0 n
  /\ 2 ^ Z.max 0 n * shr_m mrs' <= shr_m mrs.
Proof.
  intros Hm. destruct n as [ | p | p]; cbn [shr].
  - change (Z.max 0 0) with 0. rewrite Z.pow_0_r. lia.
  - rewrite iter_pos_nat.
    destruct (shr_n_halves (Pos.to_nat p) mrs Hm) as [H0 H1].
    rewrite positive_nat_Z in H1.
    replace (Z.max 0 (Zpos p)) with (Zpos p) by lia. auto.
  - change (Z.max 0 (Zneg p)) with 0. rewrite Z.pow_0_r. lia.
Qed.

Lemma shr_m_of_loc (m : Z) (l : location) : shr_m (shr_record_of_loc m l) = m.
Proof. destruct l as [ | [ | | ]]; reflexivity. Qed.

Lemma round_nearest_even_bounds (m : Z) (l : location) :
  m <= round_nearest_even m l <= m + 1.
Proof.
  destruct l as [ | [ | | ]]; cbn; try lia. destruct (Z.even m); lia.
Qed.

Lemma fexp_32 (e : Z) : fexp F32.prec F32.emax e = fexp32 e.
Proof. reflexivity. Qed.

(** One pass of [shr_fexp] on a mantissa below [2 ^ k]: the result is
    below [2 ^ 24] and keeps the magnitude [k + e]. *)
Lemma shr_fexp_spec (m e k : Z) (l : location) :
  0 <= m -> 0 <= k -> m < 2 ^ k ->
  let '(mrs', e') := shr_fexp F32.prec F32.emax m e l in
  0 <= shr_m mrs'
  /\ e <= e'
  /\ e' <= Z.max e (fexp32 (k + e))
  /\ shr_m mrs' < 2 ^ 24
  /\ (shr_m mrs' < 2 ^ (k + e - e') \/ (shr_m mrs' = 0 /\ k + e < e')).
Proof.
  intros Hm Hk Hlt. unfold shr_fexp. rewrite fexp_32.
  pose proof (Zdigits2_le m k Hm Hk Hlt) as Hd.
  pose proof (Zdigits2_nonneg m) as Hd0.
  pose proof (Zdigits2_upper m Hm) as Hup.
  set (d := Zdigits2 m) in *.
  set (n := fexp32 (d + e) - e).
  pose proof (shr_spec (shr_record_of_loc m l) e n) as Hs.
  rewrite shr_m_of_loc in Hs. specialize (Hs Hm).
  destruct (shr (shr_record_of_loc m l) e n) as [mrs' e'].
  destruct Hs as (H0 & He & Hle).
  assert (Hn : n <= 0 \/ 0 < n) by lia.
  unfold fexp32 in *.
  destruct Hn as [Hn | Hn].
  - replace (Z.max 0 n) with 0 in * by lia.
    rewrite Z.pow_0_r in Hle.
    assert (d <= 24) by lia.
    assert (2 ^ d <= 2 ^ 24) by (apply Z.pow_le_mono_r; lia).
    replace e' with e by lia. replace (k + e - e) with k by lia.
    repeat split; try lia.
  - replace (Z.max 0 n) with n in * by lia.
    assert (Hpn : 0 < 2 ^ n) by (apply Z.pow_pos_nonneg; lia).
    repeat split; try lia.
    + (* below 2 ^ 24 *)
      destruct (Z_lt_le_dec (d - n) 0) as [Hneg | Hpos].
      * assert (2 ^ d <= 2 ^ n) by (apply Z.pow_le_mono_r; lia).
        assert (shr_m mrs' = 0) by nia. lia.
      * assert (2 ^ d = 2 ^ n * 2 ^ (d - n))
          by (rewrite <- Z.pow_add_r by lia; f_equal; lia).
        assert (2 ^ (d - n) <= 2 ^ 24) by (apply Z.pow_le_mono_r; lia).
        nia.
    + destruct (Z_lt_le_dec (k - n) 0) as [Hneg | Hpos].
      * right. assert (2 ^ k <= 2 ^ n) by (apply Z.pow_le_mono_r; lia).
        split; [nia | lia].
      * left. replace (k + e - e') with (k - n) by lia.
        assert (2 ^ k = 2 ^ n * 2 ^ (k - n))
          by (rewrite <- Z.pow_add_r by lia; f_equal; lia).
        nia.
Qed.

(** What [binary_round_aux] returns for a mantissa below [2 ^ k]: never a
    NaN; a finite result has a mantissa below [2 ^ 24] and a magnitude at
    most one above that of the input; an infinity means an overflow. *)
Lemma round_aux_spec (s : bool) (mx ex k : Z) (l : location) :
  0 <= mx -> 0 <= k -> mx < 2 ^ k ->
  match binary_round_aux F32.prec F32.emax s mx ex l with
  | S754_zero s' => s' = s
  | S754_finite s' m e =>
      s' = s /\ Zpos m < 2 ^ 24 /\ e <= 104
      /\ Zpos m < 2 ^ (Z.max (k + ex) (-149) + 1 - e)
  | S754_infinity s' => s' = s /\ 104 < Z.max ex (Z.max (k + ex) (-149) - 23)
  | S754_nan => False
  end.
Proof.
  intros Hm Hk Hlt. unfold binary_round_aux.
  pose proof (shr_fexp_spec mx ex k l Hm Hk Hlt) as H1.
  destruct (shr_fexp F32.prec F32.emax mx ex l) as [mrs' e'].
  destruct H1 as (H10 & H1e & H1e' & H1m & H1k).
  pose proof (round_nearest_even_bounds (shr_m mrs') (loc_of_shr_record mrs'))
    as Hr.
  set (m1 := round_nearest_even (shr_m mrs') (loc_of_shr_record mrs')) in *.
  set (k1 := Z.max 1 (k + ex - e' + 1)).
  assert (Hm1 : m1 < 2 ^ k1).
  { destruct H1k as [Hk1 | [Hz _]].
    - assert (0 <= k + ex - e').
      { destruct (Z_lt_le_dec (k + ex - e') 0) as [Hneg | ]; [ | lia].
        rewrite Z.pow_neg_r in Hk1 by lia. lia. }
      replace k1 with (k + ex - e' + 1) by lia.
      rewrite Z.pow_add_r by lia. change (2 ^ 1) with 2. lia.
    - assert (2 ^ 1 <= 2 ^ k1) by (apply Z.pow_le_mono_r; lia).
      change (2 ^ 1) with 2 in *. lia. }
  pose proof (shr_fexp_spec m1 e' k1 loc_Exact ltac:(lia) ltac:(lia) Hm1) as H2.
  destruct (shr_fexp F32.prec F32.emax m1 e' loc_Exact) as [mrs'' e''].
  destruct H2 as (H20 & H2e & H2e' & H2m & H2k).
  unfold fexp32 in *.
  assert (Hmag : shr_m mrs'' < 2 ^ (Z.max (k + ex) (-149) + 1 - e'')
                 \/ shr_m mrs'' = 0).
  { destruct H2k as [H2k | [Hz _]]; [left | right; assumption].
    eapply Z.lt_le_trans; [exact H2k | ].
    apply Z.pow_le_mono_r; lia. }
  destruct (shr_m mrs'') as [ | m | m] eqn:Hm''; [reflexivity | | lia].
  change (F32.emax - F32.prec) with 104.
  destruct (Z.leb_spec e'' 104) as [Hle | Hgt].
  - repeat split; lia.
  - split; [reflexivity | ]. lia.
Qed.

(** ** Finite numbers of bounded magnitude *)

Lemma fits_exponent (K : Z) (m : positive) (e : Z) :
  Zpos m < 2 ^ (K - e) -> 0 < K - e.
Proof.
  intros H. destruct (Z_lt_le_dec 0 (K - e)) as [ | Hle]; [assumption | ].
  exfalso. destruct (Z.eq_dec (K - e) 0) as [E | NE].
  - rewrite E in H. change (2 ^ 0) with 1 in H. lia.
  - rewrite Z.pow_neg_r in H by lia. lia.
Qed.

Lemma fits_weaken (K K' : Z) (x : float) : K <= K' -> fits K x -> fits K' x.
Proof.
  intros HK. destruct x as [ | | | s m e]; cbn; auto.
  intros [He Hm]. split; [assumption | ].
  eapply Z.lt_le_trans; [exact Hm | ]. apply Z.pow_le_mono_r; lia.
Qed.

Lemma round_aux_fits (s : bool) (mx ex k K : Z) (l : location) :
  0 <= mx -> 0 <= k -> mx < 2 ^ k ->
  ex <= 104 -> k + ex <= K -> -149 <= K -> K <= 127 ->
  fits (K + 1) (binary_round_aux F32.prec F32.emax s mx ex l)
  /\ canon (binary_round_aux F32.prec F32.emax s mx ex l).
Proof.
  intros Hm Hk Hlt Hex HK Hlo Hhi.
  pose proof (round_aux_spec s mx ex k l Hm Hk Hlt) as H.
  destruct (binary_round_aux F32.prec F32.emax s mx ex l) as [ | | | s' m e];
    cbn; auto; try lia.
  destruct H as (_ & Hc & He & Hmag). repeat split; try assumption.
  eapply Z.lt_le_trans; [exact Hmag | ]. apply Z.pow_le_mono_r; lia.
Qed.

Lemma round_aux_canon (s : bool) (mx ex : Z) (l : location) :
  0 <= mx ->
  canon (binary_round_aux F32.prec F32.emax s mx ex l)
  /\ F32.is_nan (binary_round_aux F32.prec F32.emax s mx ex l) = false.
Proof.
  intros Hm.
  pose proof (round_aux_spec s mx ex (Zdigits2 mx) l Hm (Zdigits2_nonneg mx)
                (Zdigits2_upper mx Hm)) as H.
  destruct (binary_round_aux F32.prec F32.emax s mx ex l); cbn in *;
    auto; tauto.
Qed.

(** ** Alignment *)

Lemma iter_xO (p d : positive) : Zpos (Pos.iter xO p d) = Zpos p * 2 ^ Zpos d.
Proof.
  induction d as [ | d IH] using Pos.peano_ind.
  - cbn. lia.
  - rewrite Pos.iter_succ, Pos2Z.inj_succ, Z.pow_succ_r by lia.
    rewrite Pos2Z.inj_xO, IH. lia.
Qed.

Lemma shl_align_spec (p : positive) (e e' : Z) :
  let '(m, e'') := shl_align p e e' in
  e'' <= e /\ Zpos m = Zpos p * 2 ^ (e - e'').
Proof.
  unfold shl_align. destruct (e' - e) as [ | d | d] eqn:Hd.
  - rewrite Z.sub_diag. cbn. lia.
  - rewrite Z.sub_diag. cbn. lia.
  - split; [lia | ]. rewrite iter_xO. f_equal. f_equal. lia.
Qed.

Lemma binary_round_fits (s : bool) (p : positive) (e K : Z) :
  Zpos p < 2 ^ (K - e) -> e <= 104 -> -149 <= K -> K <= 127 ->
  fits (K + 1) (binary_round F32.prec F32.emax s p e)
  /\ canon (binary_round F32.prec F32.emax s p e).
Proof.
  intros Hp He Hlo Hhi. unfold binary_round.
  pose proof (fits_exponent K p e Hp) as Hpos.
  pose proof (shl_align_spec p e
                (fexp F32.prec F32.emax (Zpos (digits2_pos p) + e))) as Ha.
  destruct (shl_align p e (fexp F32.prec F32.emax (Zpos (digits2_pos p) + e)))
    as [mz ez].
  destruct Ha as [Hez Hmz].
  apply (round_aux_fits s (Zpos mz) ez (K - ez) K); try lia.
  rewrite Hmz. replace (K - ez) with ((K - e) + (e - ez)) by lia.
  rewrite Z.pow_add_r by lia.
  assert (0 < 2 ^ (e - ez)) by (apply Z.pow_pos_nonneg; lia). nia.
Qed.

Lemma binary_round_canon (s : bool) (p : positive) (e : Z) :
  canon (binary_round F32.prec F32.emax s p e)
  /\ F32.is_nan (binary_round F32.prec F32.emax s p e) = false.
Proof.
  unfold binary_round.
  destruct (shl_align p e (fexp F32.prec F32.emax (Zpos (digits2_pos p) + e)))
    as [mz ez].
  apply round_aux_canon. lia.
Qed.

Lemma binary_normalize_fits (z e K : Z) :
  Z.abs z < 2 ^ (K - e) -> e <= 104 -> -149 <= K -> K <= 127 ->
  fits (K + 1) (binary_normalize F32.prec F32.emax z e false)
  /\ canon (binary_normalize F32.prec F32.emax z e false).
Proof.
  intros Hz He Hlo Hhi. destruct z as [ | p | p]; cbn [binary_normalize].
  - cbn. auto.
  - apply binary_round_fits; auto.
  - apply binary_round_fits; auto.
Qed.

Lemma binary_normalize_canon (z e : Z) :
  canon (binary_normalize F32.prec F32.emax z e false)
  /\ F32.is_nan (binary_normalize F32.prec F32.emax z e false) = false.
Proof.
  destruct z as [ | p | p]; cbn [binary_normalize].
  - cbn. auto.
  - apply binary_round_canon.
  - apply binary_round_canon.
Qed.

(** ** The operations on finite numbers of bounded magnitude *)

Lemma mul_canon (x y : float) : canon (F32.mul x y).
Proof.
  destruct x as [ | | | sx mx ex], y as [ | | | sy my ey]; cbn; auto.
  apply round_aux_canon. lia.
Qed.

Lemma mul_not_nan (x : float) (sy : bool) (my : positive) (ey : Z) :
  F32.is_nan x = false -> F32.is_nan (F32.mul x (S754_finite sy my ey)) = false.
Proof.
  destruct x as [ | | | sx mx ex]; cbn; auto.
  intros _. apply round_aux_canon. lia.
Qed.

Lemma mul_fits (Kx Ky : Z) (x y : float) :
  fits Kx x -> fits Ky y ->
  (forall s m e, y = S754_finite s m e -> e <= 0) ->
  -149 <= Kx + Ky -> Kx + Ky <= 127 ->
  fits (Kx + Ky + 1) (F32.mul x y).
Proof.
  intros Hx Hy Hey Hlo Hhi.
  destruct x as [ | | | sx mx ex], y as [ | | | sy my ey]; cbn in *;
    auto; try contradiction.
  destruct Hx as [Hex Hmx], Hy as [_ Hmy].
  specialize (Hey sy my ey eq_refl).
  pose proof (fits_exponent _ _ _ Hmx). pose proof (fits_exponent _ _ _ Hmy).
  apply (round_aux_fits (xorb sx sy) (Zpos (mx * my)) (ex + ey)
           ((Kx - ex) + (Ky - ey)) (Kx + Ky)); try lia.
  rewrite Pos2Z.inj_mul, Z.pow_add_r by lia. nia.
Qed.

Lemma aligned_sum_bound (Kx Ky : Z) (mx my : positive) (ex ey : Z) :
  Zpos mx < 2 ^ (Kx - ex) -> Zpos my < 2 ^ (Ky - ey) ->
  Zpos (fst (shl_align mx ex (Z.min ex ey)))
  + Zpos (fst (shl_align my ey (Z.min ex ey)))
  < 2 ^ (Z.max Kx Ky + 1 - Z.min ex ey).
Proof.
  intros Hmx Hmy.
  pose proof (fits_exponent _ _ _ Hmx). pose proof (fits_exponent _ _ _ Hmy).
  pose proof (shl_align_spec mx ex (Z.min ex ey)) as Hax.
  pose proof (shl_align_spec my ey (Z.min ex ey)) as Hay.
  assert (Hex' : snd (shl_align mx ex (Z.min ex ey)) = Z.min ex ey).
  { unfold shl_align. destruct (Z.min ex ey - ex) eqn:E; cbn; lia. }
  assert (Hey' : snd (shl_align my ey (Z.min ex ey)) = Z.min ex ey).
  { unfold shl_align. destruct (Z.min ex ey - ey) eqn:E; cbn; lia. }
  destruct (shl_align mx ex (Z.min ex ey)) as [ax ex'].
  destruct (shl_align my ey (Z.min ex ey)) as [ay ey'].
  cbn [fst snd] in *. subst ex' ey'.
  destruct Hax as [_ Hax], Hay as [_ Hay]. rewrite Hax, Hay.
  set (ez := Z.min ex ey) in *. set (K := Z.max Kx Ky) in *.
  assert (Hpx : Zpos mx * 2 ^ (ex - ez) < 2 ^ (K - ez)).
  { assert (2 ^ (Kx - ex) * 2 ^ (ex - ez) <= 2 ^ (K - ez)).
    { rewrite <- Z.pow_add_r by lia. apply Z.pow_le_mono_r; lia. }
    assert (0 < 2 ^ (ex - ez)) by (apply Z.pow_pos_nonneg; lia). nia. }
  assert (Hpy : Zpos my * 2 ^ (ey - ez) < 2 ^ (K - ez)).
  { assert (2 ^ (Ky - ey) * 2 ^ (ey - ez) <= 2 ^ (K - ez)).
    { rewrite <- Z.pow_add_r by lia. apply Z.pow_le_mono_r; lia. }
    assert (0 < 2 ^ (ey - ez)) by (apply Z.pow_pos_nonneg; lia). nia. }
  replace (K + 1 - ez) with (K - ez + 1) by lia.
  rewrite Z.pow_add_r by lia. change (2 ^ 1) with 2. lia.
Qed.

Lemma sub_fits (Kx Ky : Z) (x y : float) :
  fits Kx x -> fits Ky y ->
  -150 <= Z.max Kx Ky -> Z.max Kx Ky <= 126 ->
  fits (Z.max Kx Ky + 2) (F32.sub x y).
Proof.
  intros Hx Hy Hlo Hhi.
  destruct x as [sx | | | sx mx ex], y as [sy | | | sy my ey]; cbn in *;
    auto; try contradiction.
  - destruct sx, sy; cbn; exact I.
  - destruct Hy as [He Hm]. split; [assumption | ].
    eapply Z.lt_le_trans; [exact Hm | ]. apply Z.pow_le_mono_r; lia.
  - destruct Hx as [He Hm]. split; [assumption | ].
    eapply Z.lt_le_trans; [exact Hm | ]. apply Z.pow_le_mono_r; lia.
  - destruct Hx as [Hex Hmx], Hy as [Hey Hmy].
    pose proof (aligned_sum_bound Kx Ky mx my ex ey Hmx Hmy) as Hsum.
    replace (Z.max Kx Ky + 2) with ((Z.max Kx Ky + 1) + 1) by lia.
    apply binary_normalize_fits; try lia.
    destruct sx, sy; cbn [cond_Zopp]; lia.
Qed.

Lemma add_not_nan_l (K : Z) (x y : float) :
  fits K x -> F32.is_nan y = false -> F32.is_nan (F32.add x y) = false.
Proof.
  destruct x as [sx | | | sx mx ex], y as [sy | sy | | sy my ey]; cbn;
    auto; try contradiction; try discriminate.
  - destruct sx, sy; reflexivity.
  - intros _ _. apply binary_normalize_canon.
Qed.

Lemma sub_not_nan_r (K : Z) (x y : float) :
  F32.is_nan x = false -> fits K y -> F32.is_nan (F32.sub x y) = false.
Proof.
  destruct x as [sx | sx | | sx mx ex], y as [sy | | | sy my ey]; cbn;
    auto; try contradiction; try discriminate.
  - destruct sx, sy; reflexivity.
  - intros _ _. apply binary_normalize_canon.
Qed.

Lemma add_canon (x y : float) : canon x -> canon y -> canon (F32.add x y).
Proof.
  destruct x as [sx | sx | | sx mx ex], y as [sy | sy | | sy my ey]; cbn;
    auto.
  - destruct sx, sy; cbn; auto.
  - destruct sx, sy; cbn; auto.
  - intros _ _. apply binary_normalize_canon.
Qed.

Lemma of_int_not_nan (z : Z) : F32.is_nan (F32.of_int z) = false.
Proof. apply binary_normalize_canon. Qed.

(** ** The clamp of [bridge.c] *)

Lemma sane_fits (t : float) : sane t -> fits 7 t.
Proof.
  intros [[Hlo Hhi] Hc].
  destruct t as [s | s | | s m e]; try (destruct s); try discriminate.
  change (Zpos m < 2 ^ 24) in Hc.
  change (e <= 104 /\ Zpos m < 2 ^ (7 - e)).
  unfold F32.leb, SFleb in Hhi.
  change (MAX_TEMP (F:=float)) with (S754_finite false 13107200 (-17)) in Hhi.
  cbn [SFcompare] in Hhi.
  destruct (Z.compare_spec e (-17)) as [He | He | He]; try discriminate;
    (split; [lia | ]);
    (eapply Z.lt_le_trans; [exact Hc | apply Z.pow_le_mono_r; lia]).
Qed.

(** From a temperature in range and a command that is a number, the
    update yields a number: no intermediate result overflows. *)
Lemma thermal_update_defined (t c : float) :
  sane t -> F32.is_nan c = false ->
  F32.is_nan (thermal_update t c) = false /\ canon (thermal_update t c).
Proof.
  intros Ht Hc. pose proof (sane_fits t Ht) as Hfit.
  change (thermal_update t c)
    with (F32.add (F32.mul t (S754_finite false 15938355 (-24)))
            (F32.mul
               (F32.sub (F32.add t (F32.mul c (S754_finite false 13421773 (-24))))
                  (F32.mul (F32.sub t (S754_finite false 13107200 (-19)))
                     (S754_finite false 10737418 (-29))))
               (S754_finite false 13421776 (-28)))).
  assert (Hamb : fits 5 (S754_finite false 13107200 (-19)))
    by (cbn; split; [lia | reflexivity]).
  assert (Hcr : fits (-5) (S754_finite false 10737418 (-29)))
    by (cbn; split; [lia | reflexivity]).
  assert (Htm : fits 0 (S754_finite false 15938355 (-24)))
    by (cbn; split; [lia | reflexivity]).
  pose proof (sub_fits 7 5 t _ Hfit Hamb ltac:(lia) ltac:(lia)) as Hd.
  change (Z.max 7 5 + 2) with 9 in Hd.
  assert (Hout : fits 5 (F32.mul (F32.sub t (S754_finite false 13107200 (-19)))
                           (S754_finite false 10737418 (-29)))).
  { apply (mul_fits 9 (-5)); auto; try lia.
    intros s m e E; inversion E; lia. }
  assert (Ha : fits 8 (F32.mul t (S754_finite false 15938355 (-24)))).
  { apply (mul_fits 7 0); auto; try lia.
    intros s m e E; inversion E; lia. }
  split.
  - apply (add_not_nan_l 8); [exact Ha | ].
    apply mul_not_nan. apply (sub_not_nan_r 5); [ | exact Hout].
    apply (add_not_nan_l 7); [exact Hfit | ].
    apply mul_not_nan, Hc.
  - apply add_canon; apply mul_canon.
Qed.

Lemma clamp_temp_sane (x : float) :
  F32.is_nan x = false -> canon x -> sane (clamp_temp x).
Proof.
  intros Hnan Hc. unfold clamp_temp, sane, within.
  change (f_lt MAX_TEMP x) with (F32.ltb MAX_TEMP x).
  destruct (F32.ltb MAX_TEMP x) eqn:Hhi.
  - vm_compute. auto.
  - change (f_lt x AMBIENT_TEMP) with (F32.ltb x AMBIENT_TEMP).
    destruct (F32.ltb x AMBIENT_TEMP) eqn:Hlo.
    + vm_compute. auto.
    + repeat split; [ | | assumption]; apply not_ltb_leb; auto.
Qed.

Lemma round_sane (heater_state rand_val : Z) (t : float) :
  sane t -> sane (fst (Bridge.physics_simulation_loop heater_state rand_val t)).
Proof.
  intros Ht. cbn [Bridge.physics_simulation_loop fst].
  destruct (thermal_update_defined t (F32.of_int heater_state) Ht
              (of_int_not_nan heater_state)) as [Hnan Hc].
  apply clamp_temp_sane; assumption.
Qed.

Lemma reachable_sane (t : float) : Plant.reachable t -> sane t.
Proof.
  induction 1 as [ | hs rv t _ IH].
  - vm_compute. auto.
  - apply round_sane, IH.
Qed.

(** A NaN goes through every operation of the update. *)
Lemma add_nan_r (x : float) : F32.add x S754_nan = S754_nan.
Proof. destruct x as [s | s | | s m e]; reflexivity. Qed.

Lemma thermal_update_nan_cmd (t : float) : thermal_update t S754_nan = S754_nan.
Proof.
  assert (E : forall A B C : float,
             F32.add A (F32.mul (F32.sub (F32.add t S754_nan) B) C)
             = S754_nan).
  { intros A B C. rewrite add_nan_r. exact (add_nan_r A). }
  exact (E _ _ _).
Qed.

Lemma thermal_update_nan_temp (c : float) : thermal_update S754_nan c = S754_nan.
Proof. reflexivity. Qed.

(** The receive callback of [bridge1.c] never writes the temperature. *)
Lemma arrival_keeps_temp (data : list byte) (take : bool) (st : Bridge1.state) :
  Bridge1.current_temp (Bridge1.onReceiveData data take st)
  = Bridge1.current_temp st.
Proof.
  unfold Bridge1.onReceiveData.
  destruct (Wire.received data) as [p | ]; [ | reflexivity].
  destruct ((Wire.device_id p =? 1) && (Wire.id p =? 1)); [ | reflexivity].
  destruct take; reflexivity.
Qed.

(** A temperature that is not a number stays so, whatever comes next. *)
Lemma nan_temp_stays (evs : list Bridge1.event) :
  forall st : Bridge1.state,
    Bridge1.current_temp st = S754_nan ->
    Bridge1.current_temp (fold_left Bridge1.step evs st) = S754_nan.
Proof.
  induction evs as [ | ev evs IH]; intros st Hst; [exact Hst | ].
  cbn [fold_left]. apply IH. destruct ev as [data take | take rv ts].
  - cbn [Bridge1.step]. rewrite arrival_keeps_temp. exact Hst.
  - cbn [Bridge1.step Bridge1.physics_simulation_task fst
         Bridge1.current_temp].
    rewrite Hst. apply thermal_update_nan_temp.
Qed.

(** The receive clamp of [bridge1.c] stores a NaN as it came. *)
Lemma nan_command_escapes (data : list byte) (p : Wire.SimPacket)
    (st : Bridge1.state) :
  Wire.received data = Some p ->
  Wire.device_id p = 1 -> Wire.id p = 1 ->
  F32.is_nan (Wire.value p) = true ->
  Bridge1.heater_cmd (Bridge1.onReceiveData data true st) = S754_nan.
Proof.
  intros Hr Hd Hi Hnan. unfold Bridge1.onReceiveData.
  rewrite Hr, Hd, Hi. cbn [Z.eqb andb].
  destruct (Wire.value p) as [s | s | | s m e]; try discriminate.
  reflexivity.
Qed.

(** C4 fails on [bridge1.c].  Its receive callback, commented "Clamp
    heater command to 0-1 range", compares the command with 0 and with 1:
    a command that is not a number fails both comparisons and is stored as
    it came; and its physics task, unlike the loop of [bridge.c], applies
    no clamp after the update.  So, from every state: when a command packet
    of the controller whose value is a NaN is stored and the next round of
    the task takes the mutex, the temperature stored by that round is a
    NaN, it remains a NaN whatever arrives and whatever the rounds do
    afterwards, and it is not in the range from the ambient temperature
    to [MAX_HEATER_TEMP]. *)
Theorem bridge1_nan_command_escapes_clamp (data : list byte)
    (p : Wire.SimPacket) (st : Bridge1.state) (rand_val timestamp : Z)
    (evs : list Bridge1.event) :
  Wire.received data = Some p ->
  Wire.device_id p = 1 -> Wire.id p = 1 ->
  F32.is_nan (Wire.value p) = true ->
  Bridge1.heater_cmd (Bridge1.onReceiveData data true st) = S754_nan
  /\ Bridge1.current_temp
       (fold_left Bridge1.step
          (Bridge1.arrival data true
           :: Bridge1.round true rand_val timestamp :: evs) st)
     = S754_nan
  /\ ~ within AMBIENT_TEMP MAX_HEATER_TEMP
         (Bridge1.current_temp
            (fold_left Bridge1.step
               (Bridge1.arrival data true
                :: Bridge1.round true rand_val timestamp :: evs) st)).
Proof.
  intros Hr Hd Hi Hnan.
  pose proof (nan_command_escapes data p st Hr Hd Hi Hnan) as Hcmd.
  assert (Ht : Bridge1.current_temp
                 (fold_left Bridge1.step
                    (Bridge1.arrival data true
                     :: Bridge1.round true rand_val timestamp :: evs) st)
               = S754_nan).
  { cbn [fold_left]. apply nan_temp_stays.
    cbn [Bridge1.step Bridge1.physics_simulation_task fst
         Bridge1.current_temp].
    rewrite Hcmd. apply thermal_update_nan_cmd. }
  split; [exact Hcmd | ]. split; [exact Ht | ].
  rewrite Ht. intros [Hlo _]. vm_compute in Hlo. discriminate.
Qed.

Lemma bridge1_nan_command_escapes_clamp_witness :
  Bridge1.heater_cmd
    (Bridge1.onReceiveData Scenario.command_nan true Bridge1.initial)
  = S754_nan
  /\ Bridge1.current_temp
       (fold_left Bridge1.step
          [Bridge1.arrival Scenario.command_nan true;
           Bridge1.round true 0 0;
           Bridge1.arrival Plant.command_on true;
           Bridge1.round true 0 50] Bridge1.initial)
     = S754_nan
  /\ ~ within AMBIENT_TEMP MAX_HEATER_TEMP
         (Bridge1.current_temp
            (fold_left Bridge1.step
               [Bridge1.arrival Scenario.command_nan true;
                Bridge1.round true 0 0;
                Bridge1.arrival Plant.command_on true;
                Bridge1.round true 0 50] Bridge1.initial)).
Proof.
  apply (bridge1_nan_command_escapes_clamp Scenario.command_nan
           {| Wire.device_id := 1; Wire.id := 1; Wire.value := S754_nan;
              Wire.counter := 0 |}
           Bridge1.initial 0 0
           [Bridge1.arrival Plant.command_on true; Bridge1.round true 0 50]);
    reflexivity.
Defined.

(** [bridge.c] clamps after its update: every temperature its loop can
    hold, the initial one and the one stored after any number of ticks,
    whatever the heater pin and the noise were at each tick, lies in the
    range from [AMBIENT_TEMP] to [MAX_TEMP]. *)
Theorem bridge_temperature_in_range (t : float) :
  Plant.reachable t -> within AMBIENT_TEMP MAX_TEMP t.
Proof. intros H. apply reachable_sane, H. Qed.

Lemma bridge_temperature_in_range_witness :
  within AMBIENT_TEMP MAX_TEMP
    (fst (Bridge.physics_simulation_loop 1 305419896 Bridge.initial)).
Proof.
  apply (bridge_temperature_in_range
           (fst (Bridge.physics_simulation_loop 1 305419896 Bridge.initial))).
  apply Plant.reachable_round. apply Plant.reachable_initial.
Defined.

(** ** Runs of the plant with the heater held on *)

Import Plant.

Lemma climb_iter (P : float -> float -> bool) (f : float -> float) (n : nat) :
  forall x l, climb P f n x = Some l ->
  Nat.iter n f x = l
  /\ forall k, (k < n)%nat ->
       P (Nat.iter k f x) (Nat.iter (S k) f x) = true.
Proof.
  induction n as [ | n IH]; intros x l H; cbn [climb] in H.
  - inversion H. split; [reflexivity | intros k Hk; lia].
  - destruct (P x (f x)) eqn:HP; [ | discriminate].
    destruct (IH _ _ H) as [Hl Hk]. split.
    + rewrite Nat.iter_succ_r. exact Hl.
    + intros [ | k] Hlt; [exact HP | ].
      rewrite (Nat.iter_succ_r (S k)), (Nat.iter_succ_r k). apply Hk. lia.
Qed.

Lemma iter_settles {A : Type} (f : A -> A) (x l : A) (N : nat) :
  Nat.iter N f x = l -> f l = l ->
  forall n, (N <= n)%nat -> Nat.iter n f x = l.
Proof.
  intros HN Hfix n Hn. induction Hn as [ | n _ IH]; [exact HN | ].
  cbn [Nat.iter nat_rect]. fold (Nat.iter n f x). rewrite IH. exact Hfix.
Qed.

(** The draws of [esp_random] perturb the reading, never the state. *)
Lemma temp1_iter (rand : nat -> Z) (n : nat) :
  temp1 rand n = Nat.iter n heat AMBIENT_TEMP.
Proof.
  unfold temp1.
  assert (H : Bridge1.heater_cmd (bridge1_run n rand heated) = one
              /\ Bridge1.current_temp (bridge1_run n rand heated)
                 = Nat.iter n heat AMBIENT_TEMP).
  { induction n as [ | n [IHc IHt]].
    - split; reflexivity.
    - cbn [bridge1_run Bridge1.physics_simulation_task fst
           Bridge1.current_temp Bridge1.heater_cmd].
      rewrite IHc, IHt. split; reflexivity. }
  apply H.
Qed.

Lemma temp0_clamped_iter (rand : nat -> Z) (n : nat) :
  temp0 rand n = Nat.iter n heat_clamped AMBIENT_TEMP.
Proof.
  unfold temp0. induction n as [ | n IH]; [reflexivity | ].
  cbn [bridge_run Bridge.physics_simulation_loop fst]. rewrite IH.
  reflexivity.
Qed.

Lemma first_50_ticks_1 :
  exists l, climb (rising MAX_HEATER_TEMP) heat 50 AMBIENT_TEMP = Some l.
Proof. vm_compute. eexists. reflexivity. Qed.

Lemma first_50_ticks_0 :
  exists l, climb (rising MAX_TEMP) heat_clamped 50 AMBIENT_TEMP = Some l.
Proof. vm_compute. eexists. reflexivity. Qed.

(** *** Saturation *)

Lemma climb_to_settled :
  climb bounded heat settle_ticks AMBIENT_TEMP = Some settled.
Proof. vm_compute. reflexivity. Qed.

Lemma settled_fixed : heat settled = settled.
Proof. vm_compute. reflexivity. Qed.

Lemma heat_settles (n : nat) :
  (settle_ticks <= n)%nat -> Nat.iter n heat AMBIENT_TEMP = settled.
Proof.
  apply iter_settles; [ | exact settled_fixed].
  apply (climb_iter _ _ _ _ _ climb_to_settled).
Qed.

Lemma heat_bounded (n : nat) :
  bounded (Nat.iter n heat AMBIENT_TEMP) (Nat.iter (S n) heat AMBIENT_TEMP)
  = true.
Proof.
  destruct (Nat.le_gt_cases settle_ticks n) as [Hge | Hlt].
  - rewrite (heat_settles n Hge), (heat_settles (S n) (le_S _ _ Hge)).
    vm_compute. reflexivity.
  - apply (climb_iter _ _ _ _ _ climb_to_settled). exact Hlt.
Qed.

Lemma bounded_parts (x y : float) :
  bounded x y = true ->
  F32.leb x y = true /\ F32.leb AMBIENT_TEMP y = true
  /\ F32.leb y settled = true /\ F32.ltb y MAX_TEMP = true
  /\ F32.ltb y MAX_HEATER_TEMP = true.
Proof.
  unfold bounded. rewrite !andb_true_iff. tauto.
Qed.

(** In range, the clamp of [bridge.c] changes nothing. *)
Lemma clamp_temp_in_range (x : float) :
  F32.leb AMBIENT_TEMP x = true -> F32.ltb x MAX_TEMP = true ->
  clamp_temp x = x.
Proof.
  intros Hlo Hhi. unfold clamp_temp.
  change (f_lt MAX_TEMP x) with (F32.ltb MAX_TEMP x).
  rewrite (ltb_not_ltb _ _ Hhi).
  change (f_lt x AMBIENT_TEMP) with (F32.ltb x AMBIENT_TEMP).
  rewrite (leb_not_ltb _ _ Hlo). reflexivity.
Qed.

(** With the heater on, [bridge.c] never clamps: both plants go through
    the same temperatures. *)
Lemma temp0_iter (rand : nat -> Z) (n : nat) :
  temp0 rand n = Nat.iter n heat AMBIENT_TEMP.
Proof.
  rewrite temp0_clamped_iter. induction n as [ | n IH]; [reflexivity | ].
  cbn [Nat.iter nat_rect]. fold (Nat.iter n heat_clamped AMBIENT_TEMP).
  fold (Nat.iter n heat AMBIENT_TEMP). rewrite IH. unfold heat_clamped.
  destruct (bounded_parts _ _ (heat_bounded n)) as (_ & Hlo & _ & Hhi & _).
  apply (clamp_temp_in_range _ Hlo Hhi).
Qed.

Lemma not_converging (x : nat -> float) (l : float) :
  (forall n, (settle_ticks <= n)%nat -> x n = settled) ->
  F32.ltb (SFabs (F32.sub settled l)) one = false ->
  ~ converges_to x l.
Proof.
  intros Hset Hfar Hconv.
  destruct (Hconv one) as [N HN]; [vm_compute; reflexivity | ].
  specialize (HN (Nat.max N settle_ticks) (Nat.le_max_l _ _)).
  rewrite Hset in HN by apply Nat.le_max_r. congruence.
Qed.

(** C5, as stated, fails: with the command 1.0 held, the temperature
    does not converge to the maximum, neither to [MAX_HEATER_TEMP] in
    [bridge1.c] nor to [MAX_TEMP] in [bridge.c]; it stays more than 1.0
    away from both for ever. *)
Lemma heater_on_does_not_reach_max :
  ~ converges_to (temp1 (fun _ => 0)) MAX_HEATER_TEMP
  /\ ~ converges_to (temp0 (fun _ => 0)) MAX_TEMP.
Proof.
  split; apply not_converging.
  - intros n Hn. rewrite temp1_iter. apply heat_settles, Hn.
  - vm_compute. reflexivity.
  - intros n Hn. rewrite temp0_iter. apply heat_settles, Hn.
  - vm_compute. reflexivity.
Qed.

(** C5, amended: with the command 1.0 held from the initial state, both
    plants go through the same temperatures, whatever the noise draws; the
    temperature never decreases and is at every tick strictly below
    [MAX_TEMP] and [MAX_HEATER_TEMP]; from tick 8901 on it no longer
    moves and equals 64.99468231201171875, just below
    [ambient + heating_rate / cooling_rate = 65]. *)
Theorem heater_on_saturates_below_max (rand : nat -> Z) :
  (forall n, temp0 rand n = temp1 rand n)
  /\ (forall n, F32.leb (temp1 rand n) (temp1 rand (S n)) = true)
  /\ (forall n, F32.ltb (temp1 rand n) MAX_TEMP = true
                /\ F32.ltb (temp1 rand n) MAX_HEATER_TEMP = true)
  /\ (forall n, (settle_ticks <= n)%nat -> temp1 rand n = settled)
  /\ F32.ltb settled (f_lit 65 1) = true.
Proof.
  split; [intros n; rewrite temp0_iter, temp1_iter; reflexivity | ].
  split; [intros n; rewrite !temp1_iter;
          apply (bounded_parts _ _ (heat_bounded n)) | ].
  split.
  - intros [ | n]; [split; vm_compute; reflexivity | ].
    rewrite !temp1_iter.
    destruct (bounded_parts _ _ (heat_bounded n)) as (_ & _ & _ & H1 & H2).
    auto.
  - split; [ | vm_compute; reflexivity].
    intros n Hn. rewrite temp1_iter. apply heat_settles, Hn.
Qed.

(** *** The first 50 ticks *)

Lemma settled_is_limit (x : nat -> float) :
  (forall n, (settle_ticks <= n)%nat -> x n = settled) ->
  converges_to x settled.
Proof.
  intros Hset.
  assert (E : SFabs (F32.sub settled settled) = zero)
    by (vm_compute; reflexivity).
  intros eps Heps. exists settle_ticks. intros n Hn.
  rewrite (Hset n Hn), E. exact Heps.
Qed.

Lemma fifty_ticks : Nat.iter 50 heat AMBIENT_TEMP = after_50_ticks.
Proof. vm_compute. reflexivity. Qed.

(** C6, as stated, fails: the temperature rises at each of the 50 ticks
    and stays below the maximum, but it does not approach the maximum,
    neither [MAX_HEATER_TEMP] in [bridge1.c] nor [MAX_TEMP] in [bridge.c]:
    it stays more than 1.0 below both for ever. *)
Lemma heating_does_not_approach_max :
  ~ approaches_top (temp1 (fun _ => 0)) MAX_HEATER_TEMP
  /\ ~ approaches_top (temp0 (fun _ => 0)) MAX_TEMP.
Proof.
  split; intros [_ Hconv]; revert Hconv; apply not_converging.
  - intros n Hn. rewrite temp1_iter. apply heat_settles, Hn.
  - vm_compute. reflexivity.
  - intros n Hn. rewrite temp0_iter. apply heat_settles, Hn.
  - vm_compute. reflexivity.
Qed.

(** C6, amended: from the initial temperature, which is the ambient 25.0,
    with the command 1.0 stored and held, at each of the first 50 ticks
    the temperature after the tick is strictly above the temperature
    before it and strictly below the maximum ([MAX_HEATER_TEMP] in
    [bridge1.c], [MAX_TEMP] in [bridge.c]), whatever the noise draws are:
    the noise enters the reading, not the temperature.  After the 50
    ticks the temperature is 26.95177459716796875 in both plants.  What
    it approaches is not the maximum: it converges to
    64.99468231201171875, which is below
    [ambient + heating_rate / cooling_rate = 65], itself below both
    maxima. *)
Theorem heating_scenario (rand : nat -> Z) (k : nat) :
  (k < 50)%nat ->
  temp1 rand 0 = AMBIENT_TEMP
  /\ F32.ltb (temp1 rand k) (temp1 rand (S k)) = true
  /\ F32.ltb (temp1 rand (S k)) MAX_HEATER_TEMP = true
  /\ temp0 rand 0 = AMBIENT_TEMP
  /\ F32.ltb (temp0 rand k) (temp0 rand (S k)) = true
  /\ F32.ltb (temp0 rand (S k)) MAX_TEMP = true
  /\ temp1 rand 50 = after_50_ticks
  /\ temp0 rand 50 = after_50_ticks
  /\ converges_to (temp1 rand) settled
  /\ converges_to (temp0 rand) settled
  /\ F32.ltb settled (f_lit 65 1) = true
  /\ F32.ltb (f_lit 65 1) MAX_TEMP = true
  /\ F32.ltb (f_lit 65 1) MAX_HEATER_TEMP = true.
Proof.
  intros Hk.
  assert (Hfirst :
            temp1 rand 0 = AMBIENT_TEMP
            /\ F32.ltb (temp1 rand k) (temp1 rand (S k)) = true
            /\ F32.ltb (temp1 rand (S k)) MAX_HEATER_TEMP = true
            /\ temp0 rand 0 = AMBIENT_TEMP
            /\ F32.ltb (temp0 rand k) (temp0 rand (S k)) = true
            /\ F32.ltb (temp0 rand (S k)) MAX_TEMP = true).
  { rewrite !temp0_clamped_iter, !temp1_iter.
    destruct first_50_ticks_1 as [l1 Hl1], first_50_ticks_0 as [l0 Hl0].
    pose proof (proj2 (climb_iter _ _ _ _ _ Hl1) k Hk) as H1.
    pose proof (proj2 (climb_iter _ _ _ _ _ Hl0) k Hk) as H0.
    unfold rising in H1, H0. rewrite andb_true_iff in H1, H0.
    destruct H1 as [H1a H1b], H0 as [H0a H0b].
    repeat split; assumption. }
  destruct Hfirst as (A1 & A2 & A3 & A4 & A5 & A6).
  split; [exact A1 | ]. split; [exact A2 | ]. split; [exact A3 | ].
  split; [exact A4 | ]. split; [exact A5 | ]. split; [exact A6 | ].
  split; [rewrite temp1_iter; exact fifty_ticks | ].
  split; [rewrite temp0_iter; exact fifty_ticks | ].
  split.
  { apply settled_is_limit. intros n Hn. rewrite temp1_iter.
    apply heat_settles, Hn. }
  split.
  { apply settled_is_limit. intros n Hn. rewrite temp0_iter.
    apply heat_settles, Hn. }
  split; [vm_compute; reflexivity | ].
  split; vm_compute; reflexivity.
Qed.

Lemma heating_scenario_witness :
  temp1 (fun _ => 0) 0 = AMBIENT_TEMP
  /\ F32.ltb (temp1 (fun _ => 0) 49) (temp1 (fun _ => 0) 50) = true
  /\ F32.ltb (temp1 (fun _ => 0) 50) MAX_HEATER_TEMP = true
  /\ temp0 (fun _ => 0) 0 = AMBIENT_TEMP
  /\ F32.ltb (temp0 (fun _ => 0) 49) (temp0 (fun _ => 0) 50) = true
  /\ F32.ltb (temp0 (fun _ => 0) 50) MAX_TEMP = true
  /\ temp1 (fun _ => 0) 50 = after_50_ticks
  /\ temp0 (fun _ => 0) 50 = after_50_ticks
  /\ converges_to (temp1 (fun _ => 0)) settled
  /\ converges_to (temp0 (fun _ => 0)) settled
  /\ F32.ltb settled (f_lit 65 1) = true
  /\ F32.ltb (f_lit 65 1) MAX_TEMP = true
  /\ F32.ltb (f_lit 65 1) MAX_HEATER_TEMP = true.
Proof. apply (heating_scenario (fun _ => 0) 49). lia. Defined.

(** ** The update law without a clamp, in binary32

    The update is a composition of roundings, each monotone in the exact
    value it rounds.  The order of canonical numbers is read on an integer,
    their value in units of [2 ^ -149]; a rounding is characterised by the
    nearest integer it picks; the operations of the law are enclosed
    between their values at the ends of an interval; and five intervals
    cover the temperatures from 25 to 65. *)

Import Law Enclosure.

(** ** The order of canonical numbers is the order of their values *)

Lemma key_nonneg (x : float) : 0 <= key x.
Proof.
  destruct x as [ | | | [ | ] m e]; cbn [key]; lia.
Qed.

Lemma good_mantissa (m : positive) (e : Z) :
  good (S754_finite false m e) ->
  Zpos m < 2 ^ 24 /\ (e = -149 \/ 2 ^ 23 <= Zpos m).
Proof.
  intros [He Hc]. unfold fexp32 in Hc.
  pose proof (digits2_pos_upper m) as Hup.
  pose proof (digits2_pos_lower m) as Hlow.
  set (d := Zpos (digits2_pos m)) in *.
  assert (Hd : d <= 24) by lia.
  split.
  - eapply Z.lt_le_trans; [exact Hup | apply Z.pow_le_mono_r; lia].
  - destruct (Z.eq_dec e (-149)) as [ | Hne]; [left; assumption | right].
    assert (d = 24) by lia.
    replace d with 24 in Hlow by lia. change (2 ^ 24) with (2 * 2 ^ 23) in Hlow.
    lia.
Qed.

Lemma key_positive (m : positive) (e : Z) :
  -149 <= e -> 0 < key (S754_finite false m e).
Proof.
  intros He. cbn [key].
  assert (0 < 2 ^ (e + 149)) by (apply Z.pow_pos_nonneg; lia). lia.
Qed.

Lemma key_exponent_order (m m' : positive) (e e' : Z) :
  good (S754_finite false m e) -> good (S754_finite false m' e') ->
  e < e' -> key (S754_finite false m e) < key (S754_finite false m' e').
Proof.
  intros Hg Hg' Hlt.
  destruct (good_mantissa _ _ Hg) as [Hm _].
  destruct (good_mantissa _ _ Hg') as [_ [He' | Hm']];
    destruct Hg as [He _], Hg' as [He'' _]; [lia | ].
  cbn [key].
  assert (Hp : 2 ^ (e' + 149) = 2 ^ (e + 149) * 2 ^ (e' - e))
    by (rewrite <- Z.pow_add_r by lia; f_equal; lia).
  assert (H2 : 2 <= 2 ^ (e' - e)).
  { change 2 with (2 ^ 1) at 1. apply Z.pow_le_mono_r; lia. }
  assert (0 < 2 ^ (e + 149)) by (apply Z.pow_pos_nonneg; lia).
  rewrite Hp. change (2 ^ 24) with (2 * 2 ^ 23) in Hm. nia.
Qed.

Lemma compare_key (x y : float) :
  good x -> good y -> SFcompare x y = Some (key x ?= key y).
Proof.
  intros Hx Hy.
  destruct x as [sx | | | [ | ] m e], y as [sy | | | [ | ] m' e'];
    try contradiction.
  - reflexivity.
  - cbn [SFcompare]. pose proof (key_positive m' e' ltac:(destruct Hy; lia)).
    change (key (S754_zero sx)) with 0.
    destruct (Z.compare_spec 0 (key (S754_finite false m' e'))); try lia.
    reflexivity.
  - cbn [SFcompare]. pose proof (key_positive m e ltac:(destruct Hx; lia)).
    change (key (S754_zero sy)) with 0.
    destruct (Z.compare_spec (key (S754_finite false m e)) 0); try lia.
    reflexivity.
  - cbn [SFcompare]. f_equal.
    destruct (Z.compare_spec e e') as [Heq | Hlt | Hgt].
    + subst e'. cbn [key].
      assert (0 < 2 ^ (e + 149))
        by (apply Z.pow_pos_nonneg; destruct Hx; lia).
      change (Pos.compare_cont Eq m m') with (Zpos m ?= Zpos m').
      symmetry.
      destruct (Z.compare_spec (Zpos m) (Zpos m')) as [E | L | G].
      * rewrite E. apply Z.compare_refl.
      * apply Z.compare_lt_iff. nia.
      * apply Z.compare_gt_iff. nia.
    + symmetry. apply Z.compare_lt_iff.
      apply key_exponent_order; assumption.
    + symmetry. apply Z.compare_gt_iff.
      apply key_exponent_order; assumption.
Qed.

Lemma leb_key (x y : float) :
  good x -> good y -> F32.leb x y = (key x <=? key y).
Proof.
  intros Hx Hy. unfold F32.leb, SFleb. rewrite (compare_key x y Hx Hy).
  unfold Z.leb. destruct (key x ?= key y); reflexivity.
Qed.

Lemma ltb_key (x y : float) :
  good x -> good y -> F32.ltb x y = (key x <? key y).
Proof.
  intros Hx Hy. unfold F32.ltb, SFltb. rewrite (compare_key x y Hx Hy).
  unfold Z.ltb. destruct (key x ?= key y); reflexivity.
Qed.

(** ** Rounding to binary32: the value *)

Lemma shr_1_spec (m : Z) (r s : bool) :
  0 <= m ->
  shr_1 {| shr_m := m; shr_r := r; shr_s := s |}
  = {| shr_m := Z.div2 m; shr_r := Z.odd m; shr_s := r || s |}.
Proof.
  destruct m as [ | [p | p | ] | p]; intros Hm; try lia; reflexivity.
Qed.

Lemma mod_pow2_succ (M n : Z) :
  0 <= n ->
  M mod 2 ^ (n + 1) = M mod 2 ^ n + 2 ^ n * Z.b2z (Z.testbit M n).
Proof.
  intros Hn. rewrite Z.pow_add_r by lia. change (2 ^ 1) with 2.
  assert (0 < 2 ^ n) by (apply Z.pow_pos_nonneg; lia).
  rewrite Z.rem_mul_r by lia.
  rewrite (Z.testbit_spec' M n Hn). reflexivity.
Qed.

Lemma shr_n_spec (M : Z) (n : nat) :
  0 <= M ->
  Nat.iter (S n) shr_1 {| shr_m := M; shr_r := false; shr_s := false |}
  = {| shr_m := M / 2 ^ Z.of_nat (S n);
       shr_r := Z.testbit M (Z.of_nat n);
       shr_s := negb (M mod 2 ^ Z.of_nat n =? 0) |}.
Proof.
  intros HM. induction n as [ | n IH].
  - cbn [Nat.iter nat_rect]. rewrite shr_1_spec by assumption.
    change (Z.of_nat 1) with 1. change (Z.of_nat 0) with 0.
    rewrite Z.pow_1_r, Z.pow_0_r, Z.mod_1_r, Z.div2_div, Z.bit0_odd.
    reflexivity.
  - change (Nat.iter (S (S n)) shr_1 ?x) with (shr_1 (Nat.iter (S n) shr_1 x)).
    rewrite IH.
    assert (Hp : 0 < 2 ^ Z.of_nat (S n)) by (apply Z.pow_pos_nonneg; lia).
    rewrite shr_1_spec by (apply Z.div_pos; lia).
    f_equal.
    + rewrite Z.div2_div, Z.div_div by lia.
      f_equal. rewrite (Nat2Z.inj_succ (S n)), Z.pow_succ_r by lia. lia.
    + rewrite (Z.testbit_odd M (Z.of_nat (S n))), Z.shiftr_div_pow2 by lia.
      reflexivity.
    + rewrite (Nat2Z.inj_succ n). unfold Z.succ.
      rewrite (mod_pow2_succ M (Z.of_nat n)) by lia.
      assert (0 < 2 ^ Z.of_nat n) by (apply Z.pow_pos_nonneg; lia).
      pose proof (Z.mod_pos_bound M (2 ^ Z.of_nat n) ltac:(lia)) as Hb.
      destruct (Z.testbit M (Z.of_nat n)); cbn [Z.b2z orb].
      * symmetry. apply negb_true_iff, Z.eqb_neq. lia.
      * rewrite Z.mul_0_r, Z.add_0_r. reflexivity.
Qed.

(** A right shift by [n] followed by the rounding of the shifted-out
    bits yields the nearest integer to [M / 2 ^ n], ties to even. *)
Lemma round_shift_spec (M E n : Z) :
  0 <= M -> 0 <= n ->
  let '(mrs, e') := shr (shr_record_of_loc M loc_Exact) E n in
  e' = E + n
  /\ nearest_even (2 * M) (2 ^ n)
       (round_nearest_even (shr_m mrs) (loc_of_shr_record mrs)).
Proof.
  intros HM Hn. destruct n as [ | p | p]; [ | | lia].
  - cbn [shr shr_record_of_loc loc_of_shr_record shr_m round_nearest_even].
    split; [lia | ]. unfold nearest_even. rewrite Z.pow_0_r. lia.
  - cbn [shr shr_record_of_loc]. rewrite iter_pos_nat.
    destruct (Pos2Nat.is_succ p) as [n Hp]. rewrite Hp.
    rewrite (shr_n_spec M n HM).
    assert (HZ : Zpos p = Z.of_nat (S n)) by (rewrite <- Hp; lia).
    rewrite <- HZ. split; [reflexivity | ].
    assert (Hn' : Z.of_nat n = Zpos p - 1) by lia.
    rewrite Hn'. set (h := 2 ^ (Zpos p - 1)).
    assert (Hh : 0 < h) by (apply Z.pow_pos_nonneg; lia).
    assert (H2h : 2 ^ Zpos p = 2 * h).
    { unfold h. rewrite <- Z.pow_succ_r by lia. f_equal. lia. }
    pose proof (mod_pow2_succ M (Zpos p - 1) ltac:(lia)) as Hmod.
    replace (Zpos p - 1 + 1) with (Zpos p) in Hmod by lia.
    fold h in Hmod. rewrite H2h in Hmod |- *.
    pose proof (Z.div_mod M (2 * h) ltac:(lia)) as Hdm.
    pose proof (Z.mod_pos_bound M h Hh) as Hlow.
    assert (Hq : 0 <= M / (2 * h)) by (apply Z.div_pos; lia).
    set (q := M / (2 * h)) in *. set (low := M mod h) in *.
    set (X := q * h).
    assert (HX : M = 2 * X + h * Z.b2z (Z.testbit M (Zpos p - 1)) + low)
      by (unfold X; lia).
    unfold nearest_even. cbn [shr_m loc_of_shr_record].
    destruct (Z.testbit M (Zpos p - 1)); cbn [Z.b2z] in HX;
      destruct (Z.eqb_spec low 0) as [Hz | Hnz];
      cbn [negb loc_of_shr_record round_nearest_even].
    + (* half way *)
      destruct (Z.even q) eqn:Hev.
      * replace ((2 * q - 1) * (2 * h)) with (4 * X - 2 * h) by (unfold X; lia).
        replace ((2 * q + 1) * (2 * h)) with (4 * X + 2 * h) by (unfold X; lia).
        repeat split; auto; lia.
      * replace ((2 * (q + 1) - 1) * (2 * h)) with (4 * X + 2 * h)
          by (unfold X; lia).
        replace ((2 * (q + 1) + 1) * (2 * h)) with (4 * X + 6 * h)
          by (unfold X; lia).
        assert (Z.even (q + 1) = true).
        { rewrite Z.even_add, Hev. reflexivity. }
        repeat split; auto; lia.
    + replace ((2 * (q + 1) - 1) * (2 * h)) with (4 * X + 2 * h)
        by (unfold X; lia).
      replace ((2 * (q + 1) + 1) * (2 * h)) with (4 * X + 6 * h)
        by (unfold X; lia).
      repeat split; try lia.
    + replace ((2 * q - 1) * (2 * h)) with (4 * X - 2 * h) by (unfold X; lia).
      replace ((2 * q + 1) * (2 * h)) with (4 * X + 2 * h) by (unfold X; lia).
      repeat split; try lia.
    + replace ((2 * q - 1) * (2 * h)) with (4 * X - 2 * h) by (unfold X; lia).
      replace ((2 * q + 1) * (2 * h)) with (4 * X + 2 * h) by (unfold X; lia).
      repeat split; try lia.
Qed.

Lemma shr_fexp_none (m e : Z) :
  fexp32 (Zdigits2 m + e) <= e ->
  shr_fexp F32.prec F32.emax m e loc_Exact
  = ({| shr_m := m; shr_r := false; shr_s := false |}, e).
Proof.
  intros H. unfold shr_fexp. rewrite fexp_32.
  destruct (fexp32 (Zdigits2 m + e) - e) as [ | p | p] eqn:Hz;
    try reflexivity; lia.
Qed.

Lemma shr_fexp_unfold (m e : Z) (l : location) :
  shr_fexp F32.prec F32.emax m e l
  = shr (shr_record_of_loc m l) e (fexp32 (Zdigits2 m + e) - e).
Proof. reflexivity. Qed.

Lemma Zdigits2_lower (m : Z) : 0 < m -> 2 ^ Zdigits2 m <= 2 * m.
Proof.
  destruct m as [ | p | p]; cbn [Zdigits2]; intros; try lia.
  apply digits2_pos_lower.
Qed.

(** The result of rounding the exact value [p * 2 ^ E], given at an
    exponent fine enough and of a magnitude that does not overflow: it is
    canonical, and its value is the nearest multiple of [2 ^ fexp32 g],
    ties to even. *)
Lemma round_key (p : positive) (E : Z) :
  E <= fexp32 (Zpos (digits2_pos p) + E) ->
  Zpos (digits2_pos p) + E <= 127 ->
  good (binary_round_aux F32.prec F32.emax false (Zpos p) E loc_Exact)
  /\ exists k,
       key (binary_round_aux F32.prec F32.emax false (Zpos p) E loc_Exact)
       = k * 2 ^ (fexp32 (Zpos (digits2_pos p) + E) + 149)
       /\ nearest_even (2 * Zpos p)
            (2 ^ (fexp32 (Zpos (digits2_pos p) + E) - E)) k
       /\ 0 <= k <= 2 ^ (Zpos (digits2_pos p) + E
                         - fexp32 (Zpos (digits2_pos p) + E))
       /\ (-149 < fexp32 (Zpos (digits2_pos p) + E) -> 2 ^ 23 <= k).
Proof.
  intros Hfine Hmag.
  pose proof (digits2_pos_upper p) as Hup.
  pose proof (digits2_pos_lower p) as Hlow.
  set (d := Zpos (digits2_pos p)) in *.
  set (g := d + E) in *. set (e' := fexp32 g) in *.
  set (n := e' - E).
  assert (Hn : 0 <= n) by (unfold n; lia).
  assert (He'lo : -149 <= e') by (unfold e', fexp32; lia).
  assert (He'hi : e' <= 103) by (unfold e', fexp32; lia).
  unfold binary_round_aux.
  rewrite (shr_fexp_unfold (Zpos p) E).
  change (Zdigits2 (Zpos p)) with d. fold g. fold e'. fold n.
  pose proof (round_shift_spec (Zpos p) E n ltac:(lia) Hn) as Hs.
  destruct (shr (shr_record_of_loc (Zpos p) loc_Exact) E n) as [mrs' e1].
  destruct Hs as [He1 Hne].
  replace e1 with e' by (unfold n in He1; lia).
  set (k := round_nearest_even (shr_m mrs') (loc_of_shr_record mrs')) in *.
  assert (Hpn : 0 < 2 ^ n) by (apply Z.pow_pos_nonneg; lia).
  destruct Hne as (Hnear & Htie1 & Htie2).
  (* bounds on k *)
  assert (Hk0 : 0 <= k) by nia.
  assert (Hkq : k <= 2 ^ (g - e')).
  { destruct (Z_lt_le_dec (g - e') 0) as [Hneg | Hpos].
    - rewrite Z.pow_neg_r by lia.
      assert (2 * 2 ^ d <= 2 ^ n).
      { rewrite <- Z.pow_succ_r by lia. apply Z.pow_le_mono_r; unfold n, g in *; lia. }
      nia.
    - assert (2 ^ d = 2 ^ (g - e') * 2 ^ n).
      { rewrite <- Z.pow_add_r by lia. f_equal. unfold n, g. lia. }
      assert (0 < 2 ^ (g - e')) by (apply Z.pow_pos_nonneg; lia).
      nia. }
  assert (Hk23 : -149 < e' -> 2 ^ 23 <= k).
  { intros Hnorm.
    assert (He' : e' = g - 24) by (unfold e', fexp32 in *; lia).
    assert (2 ^ d = 2 ^ 24 * 2 ^ n).
    { rewrite <- Z.pow_add_r by lia. f_equal. unfold n, g in *. lia. }
    change (2 ^ 24) with 16777216 in *. change (2 ^ 23) with 8388608. nia. }
  assert (Hk24 : k <= 2 ^ 24).
  { eapply Z.le_trans; [exact Hkq | ].
    destruct (Z_lt_le_dec (g - e') 0);
      [rewrite Z.pow_neg_r by lia; lia | apply Z.pow_le_mono_r; unfold e', fexp32; lia]. }
  assert (Hcases : k = 0 \/ (0 < k < 2 ^ 24) \/ k = 2 ^ 24) by lia.
  destruct Hcases as [Hz | [Hmid | Hcarry]].
  - (* the result is zero *)
    rewrite Hz in *.
    rewrite shr_fexp_none by (cbn [Zdigits2]; unfold fexp32; lia).
    cbn [shr_m]. split; [exact I | ].
    exists 0. repeat split; auto; lia.
  - (* no carry *)
    assert (Hd1 : Zdigits2 k <= 24) by (apply Zdigits2_le; lia).
    pose proof (Zdigits2_nonneg k) as Hd0.
    rewrite shr_fexp_none by (unfold fexp32; lia).
    cbn [shr_m].
    destruct k as [ | m | m] eqn:Hkm; try lia.
    change (F32.emax - F32.prec) with 104.
    destruct (Z.leb_spec e' 104) as [_ | Hbad]; [ | lia].
    split.
    + split; [lia | ].
      change (Zpos (digits2_pos m)) with (Zdigits2 (Zpos m)).
      destruct (Z.eq_dec e' (-149)) as [Hsub | Hnorm].
      * unfold fexp32. lia.
      * specialize (Hk23 ltac:(lia)).
        pose proof (Zdigits2_upper (Zpos m) ltac:(lia)) as Hup1.
        assert (23 < Zdigits2 (Zpos m)).
        { apply (Z.pow_lt_mono_r_iff 2); lia. }
        unfold fexp32. lia.
    + exists (Zpos m). repeat split; auto; try lia.
  - (* the mantissa rounds up to 2 ^ 24 *)
    assert (Hq : g - e' = 24).
    { destruct (Z_lt_le_dec (g - e') 24) as [Hlt | ]; [ | unfold e', fexp32 in *; lia].
      exfalso. rewrite Hcarry in Hkq.
      destruct (Z_lt_le_dec (g - e') 0);
        [rewrite (Z.pow_neg_r 2 (g - e')) in Hkq by lia; lia | ].
      assert (2 ^ (g - e') < 2 ^ 24) by (apply Z.pow_lt_mono_r; lia). lia. }
    rewrite Hcarry. change (2 ^ 24) with 16777216.
    rewrite shr_fexp_unfold.
    change (Zdigits2 16777216) with 25.
    assert (Hone : fexp32 (25 + e') - e' = 1) by (unfold fexp32; lia).
    rewrite Hone. cbn [shr shr_record_of_loc iter_pos shr_1 shr_m].
    change (F32.emax - F32.prec) with 104.
    destruct (Z.leb_spec (e' + 1) 104) as [_ | Hbad]; [ | lia].
    split.
    + split; [lia | ]. change (Zpos (digits2_pos 8388608)) with 24.
      unfold fexp32. lia.
    + exists k. split; [ | unfold nearest_even; repeat split; auto; lia].
      rewrite Hcarry. cbn [key].
      replace (e' + 1 + 149) with (Z.succ (e' + 149)) by lia.
      rewrite Z.pow_succ_r by lia. change (2 ^ 24) with 16777216. lia.
Qed.

(** ** Rounding to binary32 is monotone *)

Lemma nearest_even_scale (A H k c : Z) :
  0 < c -> nearest_even A H k -> nearest_even (A * c) (H * c) k.
Proof.
  intros Hc (Hb & H1 & H2). unfold nearest_even.
  repeat split; try nia.
  - intros E. apply H1. nia.
  - intros E. apply H2. nia.
Qed.

Lemma nearest_even_mono (A1 A2 H k1 k2 : Z) :
  0 < H -> nearest_even A1 H k1 -> nearest_even A2 H k2 ->
  A1 <= A2 -> k1 <= k2.
Proof.
  intros HH (Hb1 & _ & Hlo1) (Hb2 & Hhi2 & _) HA.
  destruct (Z_le_gt_dec k1 k2) as [ | Hgt]; [assumption | exfalso].
  assert (Hk : k1 = k2 + 1) by nia.
  assert (E1 : A1 = (2 * k1 - 1) * H) by nia.
  assert (E2 : A2 = (2 * k2 + 1) * H) by nia.
  specialize (Hlo1 E1). specialize (Hhi2 E2).
  rewrite Hk, Z.even_add, Hhi2 in Hlo1. discriminate.
Qed.

(** The magnitude [digits + exponent] grows with the value. *)
Lemma magnitude_mono (p1 p2 : positive) (E1 E2 B : Z) :
  B <= E1 -> B <= E2 ->
  Zpos p1 * 2 ^ (E1 - B) <= Zpos p2 * 2 ^ (E2 - B) ->
  Zpos (digits2_pos p1) + E1 <= Zpos (digits2_pos p2) + E2.
Proof.
  intros HB1 HB2 Hle.
  pose proof (digits2_pos_lower p1) as Hlow. pose proof (digits2_pos_upper p2) as Hup.
  set (d1 := Zpos (digits2_pos p1)) in *. set (d2 := Zpos (digits2_pos p2)) in *.
  assert (Hd1 : 0 < d1) by (unfold d1; lia).
  assert (0 < 2 ^ (E1 - B)) by (apply Z.pow_pos_nonneg; lia).
  assert (0 < 2 ^ (E2 - B)) by (apply Z.pow_pos_nonneg; lia).
  assert (Hchain : 2 ^ (d1 + (E1 - B)) < 2 * 2 ^ (d2 + (E2 - B))).
  { rewrite !Z.pow_add_r by (unfold d2; lia). nia. }
  rewrite <- Z.pow_succ_r in Hchain by (unfold d2; lia).
  apply (Z.pow_lt_mono_r_iff 2) in Hchain; [lia | lia | unfold d2; lia].
Qed.

Lemma fexp32_mono (g1 g2 : Z) : g1 <= g2 -> fexp32 g1 <= fexp32 g2.
Proof. unfold fexp32. lia. Qed.

(** Two exact values given at fine exponents, in order: their rounded
    results are in the same order. *)
Lemma round_aux_mono (p1 p2 : positive) (E1 E2 B : Z) :
  B <= E1 -> B <= E2 ->
  E1 <= fexp32 (Zpos (digits2_pos p1) + E1) ->
  E2 <= fexp32 (Zpos (digits2_pos p2) + E2) ->
  Zpos (digits2_pos p2) + E2 <= 127 ->
  Zpos p1 * 2 ^ (E1 - B) <= Zpos p2 * 2 ^ (E2 - B) ->
  key (binary_round_aux F32.prec F32.emax false (Zpos p1) E1 loc_Exact)
  <= key (binary_round_aux F32.prec F32.emax false (Zpos p2) E2 loc_Exact).
Proof.
  intros HB1 HB2 Hf1 Hf2 Hm2 Hle.
  pose proof (magnitude_mono p1 p2 E1 E2 B HB1 HB2 Hle) as Hg.
  destruct (round_key p1 E1 Hf1 ltac:(lia)) as (_ & k1 & Hk1 & Hn1 & Hb1 & _).
  destruct (round_key p2 E2 Hf2 Hm2) as (_ & k2 & Hk2 & Hn2 & Hb2 & Hnorm2).
  rewrite Hk1, Hk2.
  set (g1 := Zpos (digits2_pos p1) + E1) in *.
  set (g2 := Zpos (digits2_pos p2) + E2) in *.
  pose proof (fexp32_mono g1 g2 Hg) as He.
  assert (Hlo1 : -149 <= fexp32 g1) by (unfold fexp32; lia).
  destruct (Z.eq_dec (fexp32 g1) (fexp32 g2)) as [Heq | Hne].
  - (* same exponent: the nearest integers are in order *)
    rewrite <- Heq in *. set (e' := fexp32 g1) in *.
    assert (Hk : k1 <= k2).
    { apply (nearest_even_scale _ _ _ (2 ^ (E1 - B))) in Hn1;
        [ | apply Z.pow_pos_nonneg; lia].
      apply (nearest_even_scale _ _ _ (2 ^ (E2 - B))) in Hn2;
        [ | apply Z.pow_pos_nonneg; lia].
      rewrite <- Z.pow_add_r in Hn1, Hn2 by lia.
      replace (e' - E1 + (E1 - B)) with (e' - B) in Hn1 by lia.
      replace (e' - E2 + (E2 - B)) with (e' - B) in Hn2 by lia.
      assert (HH : 0 < 2 ^ (e' - B)) by (apply Z.pow_pos_nonneg; lia).
      apply (nearest_even_mono _ _ _ _ _ HH Hn1 Hn2).
      rewrite <- !Z.mul_assoc. lia. }
    assert (0 < 2 ^ (e' + 149)) by (apply Z.pow_pos_nonneg; lia). nia.
  - (* a larger exponent: a power of two lies between the two results *)
    assert (Hnorm : 2 ^ 23 <= k2) by (apply Hnorm2; lia).
    assert (He2 : fexp32 g2 = g2 - 24) by (unfold fexp32 in *; lia).
    assert (Hg12 : g1 + 1 <= g2) by (unfold fexp32 in *; lia).
    assert (Hup1 : k1 * 2 ^ (fexp32 g1 + 149) <= 2 ^ (g1 + 149)).
    { destruct (Z_lt_le_dec (g1 - fexp32 g1) 0) as [Hneg | Hpos].
      - rewrite (Z.pow_neg_r 2 (g1 - fexp32 g1)) in Hb1 by lia.
        replace k1 with 0 by lia. rewrite Z.mul_0_l. apply Z.pow_nonneg. lia.
      - replace (g1 + 149) with ((g1 - fexp32 g1) + (fexp32 g1 + 149)) by lia.
        rewrite (Z.pow_add_r 2 (g1 - fexp32 g1)) by lia.
        apply Z.mul_le_mono_nonneg_r; [apply Z.pow_nonneg; lia | lia]. }
    assert (Hlow2 : 2 ^ (g2 + 148) <= k2 * 2 ^ (fexp32 g2 + 149)).
    { rewrite He2. replace (g2 + 148) with (23 + (g2 - 24 + 149)) by lia.
      rewrite (Z.pow_add_r 2 23) by lia.
      apply Z.mul_le_mono_nonneg_r; [apply Z.pow_nonneg; lia | lia]. }
    assert (2 ^ (g1 + 149) <= 2 ^ (g2 + 148)) by (apply Z.pow_le_mono_r; lia).
    lia.
Qed.

(** *** Alignment to a fine exponent *)

Lemma shl_align_exponent (p : positive) (e e' : Z) :
  snd (shl_align p e e') = Z.min e e'.
Proof.
  unfold shl_align. destruct (e' - e) as [ | d | d] eqn:Hd; cbn [snd]; lia.
Qed.

Lemma digits2_pos_shift (p q : positive) (k : Z) :
  0 <= k -> Zpos q = Zpos p * 2 ^ k ->
  Zpos (digits2_pos q) = Zpos (digits2_pos p) + k.
Proof.
  intros Hk Hq.
  pose proof (digits2_pos_lower p) as Hlp. pose proof (digits2_pos_upper p) as Hup.
  pose proof (digits2_pos_lower q) as Hlq. pose proof (digits2_pos_upper q) as Huq.
  set (dp := Zpos (digits2_pos p)) in *. set (dq := Zpos (digits2_pos q)) in *.
  assert (0 < dp) by (unfold dp; lia). assert (0 < dq) by (unfold dq; lia).
  assert (0 < 2 ^ k) by (apply Z.pow_pos_nonneg; lia).
  assert (Ha : 2 ^ dq < 2 ^ (dp + k + 1)).
  { rewrite !Z.pow_add_r by lia. change (2 ^ 1) with 2. nia. }
  assert (Hb : 2 ^ (dp + k) < 2 ^ (dq + 1)).
  { rewrite (Z.pow_add_r 2 dq 1), (Z.pow_add_r 2 dp k) by lia.
    change (2 ^ 1) with 2. nia. }
  apply (Z.pow_lt_mono_r_iff 2) in Ha; [ | lia | lia].
  apply (Z.pow_lt_mono_r_iff 2) in Hb; [ | lia | lia].
  lia.
Qed.

(** [binary_round] first brings the mantissa to a fine exponent. *)
Lemma binary_round_aligned (p : positive) (E : Z) :
  exists q e,
    binary_round F32.prec F32.emax false p E
    = binary_round_aux F32.prec F32.emax false (Zpos q) e loc_Exact
    /\ e <= E /\ Zpos q = Zpos p * 2 ^ (E - e)
    /\ Zpos (digits2_pos q) + e = Zpos (digits2_pos p) + E
    /\ e <= fexp32 (Zpos (digits2_pos q) + e).
Proof.
  unfold binary_round. rewrite fexp_32.
  pose proof (shl_align_spec p E (fexp32 (Zpos (digits2_pos p) + E))) as Hs.
  pose proof (shl_align_exponent p E (fexp32 (Zpos (digits2_pos p) + E))) as He.
  destruct (shl_align p E (fexp32 (Zpos (digits2_pos p) + E))) as [q e].
  cbn [snd] in He. destruct Hs as [Hle Hq].
  exists q, e. split; [reflexivity | ].
  pose proof (digits2_pos_shift p q (E - e) ltac:(lia) Hq) as Hd.
  repeat split; try lia.
  rewrite Hd. replace (Zpos (digits2_pos p) + (E - e) + e)
    with (Zpos (digits2_pos p) + E) by lia.
  lia.
Qed.

Lemma binary_round_good (p : positive) (E : Z) :
  Zpos (digits2_pos p) + E <= 127 ->
  good (binary_round F32.prec F32.emax false p E).
Proof.
  intros Hm. destruct (binary_round_aligned p E) as (q & e & Heq & _ & _ & Hd & Hf).
  rewrite Heq. apply round_key; [exact Hf | lia].
Qed.

Lemma binary_round_mono (p1 p2 : positive) (E1 E2 B : Z) :
  B <= E1 -> B <= E2 ->
  Zpos (digits2_pos p2) + E2 <= 127 ->
  Zpos p1 * 2 ^ (E1 - B) <= Zpos p2 * 2 ^ (E2 - B) ->
  key (binary_round F32.prec F32.emax false p1 E1)
  <= key (binary_round F32.prec F32.emax false p2 E2).
Proof.
  intros HB1 HB2 Hm2 Hle.
  destruct (binary_round_aligned p1 E1) as (q1 & e1 & Heq1 & Hle1 & Hq1 & Hd1 & Hf1).
  destruct (binary_round_aligned p2 E2) as (q2 & e2 & Heq2 & Hle2 & Hq2 & Hd2 & Hf2).
  rewrite Heq1, Heq2.
  set (B' := Z.min B (Z.min e1 e2)).
  apply (round_aux_mono q1 q2 e1 e2 B'); try (unfold B'; lia).
  rewrite Hq1, Hq2.
  assert (Hc : 0 < 2 ^ (B - B')) by (apply Z.pow_pos_nonneg; unfold B'; lia).
  assert (R1 : Zpos p1 * 2 ^ (E1 - e1) * 2 ^ (e1 - B')
               = Zpos p1 * 2 ^ (E1 - B) * 2 ^ (B - B')).
  { rewrite <- !Z.mul_assoc, <- !Z.pow_add_r by (unfold B'; lia).
    do 2 f_equal. lia. }
  assert (R2 : Zpos p2 * 2 ^ (E2 - e2) * 2 ^ (e2 - B')
               = Zpos p2 * 2 ^ (E2 - B) * 2 ^ (B - B')).
  { rewrite <- !Z.mul_assoc, <- !Z.pow_add_r by (unfold B'; lia).
    do 2 f_equal. lia. }
  rewrite R1, R2. nia.
Qed.

(** At a fine exponent [binary_round] shifts nothing. *)
Lemma binary_round_fine (p : positive) (E : Z) :
  E <= fexp32 (Zpos (digits2_pos p) + E) ->
  binary_round F32.prec F32.emax false p E
  = binary_round_aux F32.prec F32.emax false (Zpos p) E loc_Exact.
Proof.
  intros Hf. unfold binary_round, shl_align. rewrite fexp_32.
  destruct (fexp32 (Zpos (digits2_pos p) + E) - E) as [ | d | d] eqn:Hd;
    try reflexivity; lia.
Qed.

(** ** The exact value behind a binary32 result *)

Lemma binary_round_id (m : positive) (e : Z) :
  good (S754_finite false m e) ->
  binary_round F32.prec F32.emax false m e = S754_finite false m e.
Proof.
  intros [He Hf]. rewrite binary_round_fine by lia.
  unfold binary_round_aux.
  rewrite shr_fexp_none by (cbn [Zdigits2]; lia).
  cbn [shr_m loc_of_shr_record round_nearest_even].
  rewrite shr_fexp_none by (cbn [Zdigits2]; lia).
  cbn [shr_m].
  replace (e <=? F32.emax - F32.prec) with true; [reflexivity | ].
  symmetry. apply Z.leb_le. unfold F32.emax, F32.prec. lia.
Qed.

Lemma good_rounds (x : float) : good x -> rounds (-149) x (key x).
Proof.
  destruct x as [s | s | | [ | ] m e]; cbn [good]; try contradiction; intros Hg.
  - left. split; [exists s; reflexivity | reflexivity].
  - right. exists m, e. split; [symmetry; apply binary_round_id; exact Hg | ].
    split; [lia | ]. cbn [key]. reflexivity.
Qed.

Lemma rounds_magnitude (B E v : Z) (p : positive) :
  B <= E -> Zpos p * 2 ^ (E - B) = v -> v < 2 ^ (127 - B) ->
  Zpos (digits2_pos p) + E <= 127.
Proof.
  intros HB Hv Hlt.
  pose proof (digits2_pos_lower p) as Hl.
  set (d := Zpos (digits2_pos p)) in *.
  assert (0 < d) by (unfold d; lia).
  assert (0 < 2 ^ (E - B)) by (apply Z.pow_pos_nonneg; lia).
  assert (Hc : 2 ^ (d + (E - B)) < 2 ^ (128 - B)).
  { rewrite Z.pow_add_r by lia.
    replace (128 - B) with (Z.succ (127 - B)) by lia.
    destruct (Z_lt_le_dec (127 - B) 0) as [Hn | Hp].
    - rewrite (Z.pow_neg_r 2 (127 - B)) in Hlt by lia. nia.
    - rewrite Z.pow_succ_r by lia. nia. }
  apply (Z.pow_lt_mono_r_iff 2) in Hc; [lia | lia | ].
  destruct (Z_lt_le_dec (128 - B) 0) as [Hn | Hp]; [ | lia].
  rewrite (Z.pow_neg_r 2 (128 - B)) in Hc by lia.
  assert (0 < 2 ^ (d + (E - B))) by (apply Z.pow_pos_nonneg; lia). lia.
Qed.

Lemma rounds_good (B : Z) (r : float) (v : Z) :
  rounds B r v -> v < 2 ^ (127 - B) -> good r.
Proof.
  intros [[[s ->] _] | (p & E & -> & HB & Hv)] Hlt; [exact I | ].
  apply binary_round_good. eapply rounds_magnitude; eassumption.
Qed.

Lemma rounds_mono (B : Z) (r1 r2 : float) (v1 v2 : Z) :
  rounds B r1 v1 -> rounds B r2 v2 ->
  v1 <= v2 -> v2 < 2 ^ (127 - B) ->
  key r1 <= key r2.
Proof.
  intros [[[s1 ->] _] | (p1 & E1 & -> & HB1 & Hv1)] H2 Hle Hlt.
  - apply key_nonneg.
  - destruct H2 as [[_ ->] | (p2 & E2 & -> & HB2 & Hv2)].
    + assert (0 < 2 ^ (E1 - B)) by (apply Z.pow_pos_nonneg; lia). nia.
    + apply (binary_round_mono p1 p2 E1 E2 B); try assumption; try lia.
      eapply rounds_magnitude; eassumption.
Qed.

(** *** Sums and differences *)

Lemma aligned_key (m : positive) (e ez : Z) :
  -149 <= ez -> ez <= e ->
  Zpos (fst (shl_align m e ez)) * 2 ^ (ez + 149) = Zpos m * 2 ^ (e + 149).
Proof.
  intros Hz He.
  pose proof (shl_align_spec m e ez) as Hs.
  pose proof (shl_align_exponent m e ez) as Hx.
  destruct (shl_align m e ez) as [q e'']. cbn [fst snd] in *.
  destruct Hs as [_ Hq]. rewrite Hq, Hx.
  replace (Z.min e ez) with ez by lia.
  rewrite <- Z.mul_assoc, <- Z.pow_add_r by lia.
  do 2 f_equal. lia.
Qed.

Lemma add_rounds (x y : float) :
  good x -> good y -> rounds (-149) (F32.add x y) (key x + key y).
Proof.
  destruct x as [sx | sx | | [ | ] mx ex]; cbn [good]; try contradiction;
    destruct y as [sy | sy | | [ | ] my ey]; cbn [good]; try contradiction;
    intros Hx Hy.
  - left. split; [ | reflexivity].
    unfold F32.add, SFadd. destruct sx, sy; eexists; reflexivity.
  - change (F32.add (S754_zero sx) (S754_finite false my ey))
      with (S754_finite false my ey).
    change (key (S754_zero sx)) with 0. rewrite Z.add_0_l.
    apply good_rounds. exact Hy.
  - change (F32.add (S754_finite false mx ex) (S754_zero sy))
      with (S754_finite false mx ex).
    change (key (S754_zero sy)) with 0. rewrite Z.add_0_r.
    apply good_rounds. exact Hx.
  - right. unfold F32.add, SFadd. cbn [cond_Zopp Z.add binary_normalize].
    eexists _, (Z.min ex ey). split; [reflexivity | ].
    split; [lia | ].
    rewrite Pos2Z.inj_add, Z.mul_add_distr_r.
    replace (Z.min ex ey - -149) with (Z.min ex ey + 149) by lia.
    rewrite !aligned_key by lia. reflexivity.
Qed.

Lemma sub_rounds (x y : float) :
  good x -> good y -> key y <= key x ->
  rounds (-149) (F32.sub x y) (key x - key y).
Proof.
  destruct x as [sx | sx | | [ | ] mx ex]; cbn [good]; try contradiction;
    destruct y as [sy | sy | | [ | ] my ey]; cbn [good]; try contradiction;
    intros Hx Hy Hle.
  - left. split; [ | reflexivity].
    unfold F32.sub, SFsub. destruct sx, sy; eexists; reflexivity.
  - exfalso. pose proof (key_positive my ey). cbn [key] in *. lia.
  - change (F32.sub (S754_finite false mx ex) (S754_zero sy))
      with (S754_finite false mx ex).
    change (key (S754_zero sy)) with 0. rewrite Z.sub_0_r.
    apply good_rounds. exact Hx.
  - unfold F32.sub, SFsub. cbn [cond_Zopp].
    assert (Hax := aligned_key mx ex (Z.min ex ey) ltac:(lia) ltac:(lia)).
    assert (Hay := aligned_key my ey (Z.min ex ey) ltac:(lia) ltac:(lia)).
    set (ax := fst (shl_align mx ex (Z.min ex ey))) in *.
    set (ay := fst (shl_align my ey (Z.min ex ey))) in *.
    assert (Hdiff : (Zpos ax - Zpos ay) * 2 ^ (Z.min ex ey + 149)
                    = key (S754_finite false mx ex) - key (S754_finite false my ey)).
    { cbn [key]. rewrite Z.mul_sub_distr_r. lia. }
    destruct (Zpos ax - Zpos ay) as [ | d | d] eqn:Hd.
    + left. split; [eexists; reflexivity | lia].
    + right. exists d, (Z.min ex ey). split; [reflexivity | ].
      split; [lia | ].
      replace (Z.min ex ey - -149) with (Z.min ex ey + 149) by lia.
      exact Hdiff.
    + exfalso.
      assert (0 < 2 ^ (Z.min ex ey + 149)) by (apply Z.pow_pos_nonneg; lia).
      nia.
Qed.

Lemma goodb_good (x : float) : goodb x = true -> good x.
Proof.
  destruct x as [s | s | | [ | ] m e]; cbn [goodb good]; try discriminate; auto.
  unfold valid_binary, SpecFloat.bounded, canonical_mantissa. rewrite fexp_32.
  intros Hb. apply andb_prop in Hb. destruct Hb as [Hc He].
  apply Z.eqb_eq in Hc. apply Z.leb_le in He.
  unfold F32.emax, F32.prec in He. unfold fexp32 in *. lia.
Qed.

Lemma good_goodb (x : float) : good x -> goodb x = true.
Proof.
  destruct x as [s | s | | [ | ] m e]; cbn [goodb good]; try contradiction; auto.
  intros [He Hf].
  unfold valid_binary, SpecFloat.bounded, canonical_mantissa. rewrite fexp_32.
  apply andb_true_intro. split; [apply Z.eqb_eq; exact Hf | ].
  apply Z.leb_le. unfold F32.emax, F32.prec. lia.
Qed.

Lemma tameb_tame (x : float) : tameb x = true -> tame x.
Proof.
  unfold tameb, tame. intros Hb. apply andb_prop in Hb. destruct Hb as [Hg Hk].
  split; [apply goodb_good; exact Hg | apply Z.ltb_lt; exact Hk].
Qed.

Lemma between_refl (x : float) : tame x -> between x x x.
Proof. intros Ht. unfold between. destruct Ht as [Hg Hk]. repeat split; auto; lia. Qed.

(** *** Products with a positive normal constant *)

Lemma digits2_pos_mul (p q : positive) :
  Zpos (digits2_pos p) + Zpos (digits2_pos q) - 1 <= Zpos (digits2_pos (p * q)).
Proof.
  pose proof (digits2_pos_lower p) as Hp. pose proof (digits2_pos_lower q) as Hq.
  pose proof (digits2_pos_upper (p * q)) as Hpq.
  set (dp := Zpos (digits2_pos p)) in *. set (dq := Zpos (digits2_pos q)) in *.
  set (d := Zpos (digits2_pos (p * q))) in *.
  assert (0 < dp) by (unfold dp; lia). assert (0 < dq) by (unfold dq; lia).
  assert (0 < d) by (unfold d; lia).
  assert (Hc : 2 ^ (dp + dq) < 2 ^ (d + 2)).
  { rewrite !Z.pow_add_r by lia. change (2 ^ 2) with 4.
    rewrite Pos2Z.inj_mul in Hpq. nia. }
  apply (Z.pow_lt_mono_r_iff 2) in Hc; lia.
Qed.

Lemma mul_rounds (x k : float) :
  good x -> normal k = true ->
  rounds (exponent k - 149) (F32.mul x k) (key x * mantissa k).
Proof.
  intros Hx Hk.
  destruct k as [s | s | | [ | ] mk ek]; cbn [normal] in Hk; try discriminate.
  apply andb_prop in Hk. destruct Hk as [Hk He0].
  apply andb_prop in Hk. destruct Hk as [Hd He].
  apply Z.eqb_eq in Hd. apply Z.leb_le in He, He0.
  destruct x as [sx | sx | | [ | ] mx ex]; cbn [good] in Hx; try contradiction.
  - left. split; [eexists; reflexivity | reflexivity].
  - right. exists (mx * mk)%positive, (ex + ek). cbn [exponent mantissa key].
    split; [ | split; [lia | ]].
    + unfold F32.mul, SFmul. cbn [xorb]. symmetry. apply binary_round_fine.
      pose proof (digits2_pos_mul mx mk).
      assert (0 < Zpos (digits2_pos mx)) by lia.
      unfold fexp32. lia.
    + rewrite Pos2Z.inj_mul.
      replace (ex + ek - (ek - 149)) with (ex + 149) by lia. ring.
Qed.

Lemma between_mul (xl x xh k : float) :
  between xl x xh -> normal k = true -> tameb (F32.mul xh k) = true ->
  between (F32.mul xl k) (F32.mul x k) (F32.mul xh k).
Proof.
  intros (Hgl & Hgx & [Hlo Hhi] & Hgh & Hkh) Hk Ht.
  pose proof (mul_rounds xl k Hgl Hk) as Rl.
  pose proof (mul_rounds x k Hgx Hk) as Rx.
  pose proof (mul_rounds xh k Hgh Hk) as Rh.
  assert (Hm : 0 < mantissa k < 2 ^ 24 /\ exponent k <= 0).
  { destruct k as [s | s | | [ | ] mk ek]; cbn [normal] in Hk; try discriminate.
    apply andb_prop in Hk. destruct Hk as [Hk He0].
    apply andb_prop in Hk. destruct Hk as [Hd He].
    apply Z.eqb_eq in Hd. apply Z.leb_le in He0.
    pose proof (digits2_pos_upper mk) as Hu. rewrite Hd in Hu.
    cbn [mantissa exponent]. lia. }
  destruct Hm as [[Hm0 Hm1] He].
  pose proof (key_nonneg xl). pose proof (key_nonneg x).
  assert (Hbound : key xh * mantissa k < 2 ^ (127 - (exponent k - 149))).
  { assert (2 ^ 224 <= 2 ^ (127 - (exponent k - 149)))
      by (apply Z.pow_le_mono_r; lia).
    change (2 ^ 224) with (2 ^ 200 * 2 ^ 24) in *. nia. }
  assert (Hbx : key x * mantissa k <= key xh * mantissa k) by nia.
  assert (Hbl : key xl * mantissa k <= key x * mantissa k) by nia.
  unfold between. repeat split.
  - eapply rounds_good; [exact Rl | lia].
  - eapply rounds_good; [exact Rx | lia].
  - eapply rounds_mono; [exact Rl | exact Rx | lia | lia].
  - eapply rounds_mono; [exact Rx | exact Rh | lia | lia].
  - apply tameb_tame; exact Ht.
  - apply tameb_tame; exact Ht.
Qed.

Lemma between_add (xl x xh yl y yh : float) :
  between xl x xh -> between yl y yh -> tameb (F32.add xh yh) = true ->
  between (F32.add xl yl) (F32.add x y) (F32.add xh yh).
Proof.
  intros (Hgl & Hgx & [Hlo Hhi] & Hgh & Hkh) (Hgl' & Hgy & [Hlo' Hhi'] & Hgh' & Hkh') Ht.
  pose proof (add_rounds xl yl Hgl Hgl') as Rl.
  pose proof (add_rounds x y Hgx Hgy) as Rx.
  pose proof (add_rounds xh yh Hgh Hgh') as Rh.
  assert (Hbound : key xh + key yh < 2 ^ (127 - -149)).
  { change (127 - -149) with 276.
    assert (2 ^ 201 <= 2 ^ 276) by (apply Z.pow_le_mono_r; lia).
    change (2 ^ 201) with (2 * 2 ^ 200) in *. lia. }
  unfold between. repeat split.
  - eapply rounds_good; [exact Rl | lia].
  - eapply rounds_good; [exact Rx | lia].
  - eapply rounds_mono; [exact Rl | exact Rx | lia | lia].
  - eapply rounds_mono; [exact Rx | exact Rh | lia | lia].
  - apply tameb_tame; exact Ht.
  - apply tameb_tame; exact Ht.
Qed.

Lemma between_sub (xl x xh yl y yh : float) :
  between xl x xh -> between yl y yh -> key yh <= key xl ->
  tameb (F32.sub xh yl) = true ->
  between (F32.sub xl yh) (F32.sub x y) (F32.sub xh yl).
Proof.
  intros (Hgl & Hgx & [Hlo Hhi] & Hgh & Hkh) (Hgl' & Hgy & [Hlo' Hhi'] & Hgh' & Hkh')
    Hsep Ht.
  pose proof (sub_rounds xl yh Hgl Hgh' ltac:(lia)) as Rl.
  pose proof (sub_rounds x y Hgx Hgy ltac:(lia)) as Rx.
  pose proof (sub_rounds xh yl Hgh Hgl' ltac:(lia)) as Rh.
  pose proof (key_nonneg yl).
  assert (Hbound : key xh - key yl < 2 ^ (127 - -149)).
  { change (127 - -149) with 276.
    assert (2 ^ 200 <= 2 ^ 276) by (apply Z.pow_le_mono_r; lia). lia. }
  unfold between. repeat split.
  - eapply rounds_good; [exact Rl | lia].
  - eapply rounds_good; [exact Rx | lia].
  - eapply rounds_mono; [exact Rl | exact Rx | lia | lia].
  - eapply rounds_mono; [exact Rx | exact Rh | lia | lia].
  - apply tameb_tame; exact Ht.
  - apply tameb_tame; exact Ht.
Qed.

Lemma constants_normal :
  normal HEATING_RATE = true /\ normal COOLING_RATE = true
  /\ normal THERMAL_MASS = true
  /\ normal (f_sub (f_lit 1 1) THERMAL_MASS) = true
  /\ tameb AMBIENT_TEMP = true.
Proof. repeat split; vm_compute; reflexivity. Qed.

Lemma update_between (tl t th cl c ch : float) :
  good t -> key tl <= key t <= key th ->
  good c -> key cl <= key c <= key ch ->
  encloses tl th cl ch = true ->
  between (update_bound tl th cl) (thermal_update t c) (update_bound th tl ch).
Proof.
  intros Hgt Hkt Hgc Hkc He.
  destruct constants_normal as (NH & NC & NM & NW & TA).
  unfold encloses in He. cbn zeta in He.
  repeat (let Hx := fresh "Hx" in
          apply andb_prop in He; destruct He as [He Hx]).
  assert (Bt : between tl t th).
  { unfold between. repeat split; try lia; try assumption.
    - apply goodb_good. assumption.
    - apply tameb_tame. assumption.
    - apply tameb_tame. assumption. }
  assert (Bc : between cl c ch).
  { unfold between. repeat split; try lia; try assumption.
    - apply goodb_good. assumption.
    - apply tameb_tame. assumption.
    - apply tameb_tame. assumption. }
  assert (Ba : between (AMBIENT_TEMP : float) AMBIENT_TEMP AMBIENT_TEMP)
    by (apply between_refl, tameb_tame; exact TA).
  unfold thermal_update, update_bound. cbn zeta.
  apply between_add; [ | | assumption].
  - apply between_mul; assumption.
  - apply between_mul; [ | assumption | assumption].
    apply between_sub; [ | | | assumption].
    + apply between_add; [assumption | | assumption].
      apply between_mul; assumption.
    + apply between_mul; [ | assumption | assumption].
      apply between_sub; [assumption | assumption | | assumption].
      apply Z.leb_le. assumption.
    + apply Z.leb_le. assumption.
Qed.

Lemma pieces_cover (l : list float) :
  forall (a : float) (k : Z),
    l <> [] -> key a <= k <= key (last l a) ->
    exists p, In p (pieces (a :: l)) /\ key (fst p) <= k <= key (snd p).
Proof.
  induction l as [ | b l IH]; intros a k Hne Hk; [congruence | ].
  destruct (Z_le_gt_dec k (key b)) as [Hle | Hgt].
  - exists (a, b). split; [left; reflexivity | cbn [fst snd]; lia].
  - destruct l as [ | b' l'].
    + cbn [last] in Hk. lia.
    + destruct (IH b k ltac:(discriminate)) as (p & Hin & Hp).
      * change (last (b :: b' :: l') a) with (last (b' :: l') a) in Hk.
        replace (last (b' :: l') b) with (last (b' :: l') a);
          [lia | ].
        clear. revert b'. induction l' as [ | x l' IH]; intros b'; [reflexivity | ].
        change (last (b' :: x :: l') a) with (last (x :: l') a).
        change (last (b' :: x :: l') b) with (last (x :: l') b).
        apply IH.
      * exists p. split; [right; exact Hin | exact Hp].
Qed.

Lemma breakpoints_checked :
  forallb piece_ok (pieces breakpoints) = true
  /\ key (hd zero breakpoints) = key AMBIENT_TEMP
  /\ key (last breakpoints zero) = key equilibrium.
Proof. repeat split; vm_compute; reflexivity. Qed.

(** One tick, in binary32: a canonical temperature between 25 and 65 and a
    canonical command between 0 and 1 give a canonical temperature between
    25 and 65. *)
Lemma update_keeps32 (t c : float) :
  good t -> key AMBIENT_TEMP <= key t <= key equilibrium ->
  good c -> key c <= key one ->
  good (thermal_update t c)
  /\ key AMBIENT_TEMP <= key (thermal_update t c) <= key equilibrium.
Proof.
  intros Hgt Hkt Hgc Hkc.
  destruct breakpoints_checked as (Hall & Hhd & Hlast).
  destruct (pieces_cover (List.tl breakpoints) (hd zero breakpoints) (key t))
    as ([lo hi] & Hin & Hp).
  - discriminate.
  - rewrite Hhd.
    change (last (List.tl breakpoints) (hd zero breakpoints))
      with (last breakpoints zero).
    rewrite Hlast. exact Hkt.
  - change (hd zero breakpoints :: List.tl breakpoints) with breakpoints in Hin.
    rewrite forallb_forall in Hall. specialize (Hall _ Hin).
    unfold piece_ok in Hall.
    apply andb_prop in Hall. destruct Hall as [Hall Hup].
    apply andb_prop in Hall. destruct Hall as [Henc Hlow].
    apply Z.leb_le in Hup, Hlow. cbn [fst snd] in Hp.
    pose proof (key_nonneg c) as Hc0.
    assert (Hz : key zero = 0) by reflexivity.
    destruct (update_between lo t hi zero c one Hgt Hp Hgc ltac:(lia) Henc)
      as (_ & Hg & Hk & _).
    split; [exact Hg | lia].
Qed.

Lemma unit_command32_good (c : float) :
  unit_command32 c -> good c /\ key c <= key one.
Proof.
  intros (Hv & Hlo & Hhi).
  assert (Hg : good c).
  { destruct c as [s | [ | ] | | [ | ] m e]; try discriminate.
    - exact I.
    - apply goodb_good. exact Hv. }
  split; [exact Hg | ].
  rewrite leb_key in Hhi; [apply Z.leb_le; exact Hhi | exact Hg | ].
  apply goodb_good. reflexivity.
Qed.

Lemma good_within (lo hi t : float) :
  good lo -> good hi -> good t -> key lo <= key t <= key hi ->
  valid_binary F32.prec F32.emax t = true /\ within lo hi t.
Proof.
  intros Hl Hh Ht Hk. split.
  - apply good_goodb in Ht.
    destruct t as [s | s | | [ | ] m e]; try discriminate; auto.
  - unfold within. rewrite !leb_key by assumption.
    split; apply Z.leb_le; lia.
Qed.

Lemma run_keeps32 (cmds : list float) :
  Forall unit_command32 cmds ->
  forall t : float,
    good t -> key AMBIENT_TEMP <= key t <= key equilibrium ->
    good (run cmds t)
    /\ key AMBIENT_TEMP <= key (run cmds t) <= key equilibrium.
Proof.
  induction 1 as [ | c cmds Hc _ IH]; intros t Hg Hk; [split; assumption | ].
  apply unit_command32_good in Hc. destruct Hc as [Hgc Hkc].
  destruct (update_keeps32 t c Hg Hk Hgc Hkc) as [Hg' Hk'].
  exact (IH _ Hg' Hk').
Qed.

Lemma unclamped_binary32 (cmds : list float) :
  Forall unit_command32 cmds ->
  valid_binary F32.prec F32.emax (run cmds AMBIENT_TEMP) = true
  /\ within AMBIENT_TEMP equilibrium (run cmds AMBIENT_TEMP).
Proof.
  intros Hc.
  assert (Ha : good (AMBIENT_TEMP : float)) by (apply goodb_good; reflexivity).
  assert (He : good (equilibrium : float)) by (apply goodb_good; reflexivity).
  destruct (run_keeps32 cmds Hc AMBIENT_TEMP Ha) as [Hg Hk].
  - split; [lia | ]. apply Z.leb_le. reflexivity.
  - apply good_within; assumption.
Qed.

Lemma digits2_pos_unique (p : positive) (d : Z) :
  2 ^ (d - 1) <= Zpos p < 2 ^ d -> Zpos (digits2_pos p) = d.
Proof.
  intros [Hlo Hhi].
  pose proof (digits2_pos_lower p) as Hl. pose proof (digits2_pos_upper p) as Hu.
  set (dp := Zpos (digits2_pos p)) in *.
  assert (0 < dp) by (unfold dp; lia).
  assert (Hd : 0 < d).
  { destruct (Z_lt_le_dec 0 d); [assumption | ].
    destruct (Z.eq_dec d 0) as [-> | ]; [cbn in Hhi; lia | ].
    rewrite (Z.pow_neg_r 2 d) in Hhi by lia. lia. }
  assert (Ha : 2 ^ dp < 2 ^ (d + 1)).
  { rewrite Z.pow_add_r by lia. change (2 ^ 1) with 2. lia. }
  assert (Hb : 2 ^ (d - 1) < 2 ^ dp) by lia.
  apply (Z.pow_lt_mono_r_iff 2) in Ha; [ | lia | lia].
  apply (Z.pow_lt_mono_r_iff 2) in Hb; [ | lia | lia].
  lia.
Qed.

(** Every 32-bit pattern decodes to a canonical number. *)
Lemma of_bits_valid (w : Z) :
  valid_binary F32.prec F32.emax (F32.of_bits w) = true.
Proof.
  unfold F32.of_bits.
  change 255 with (Z.ones 8). change 8388607 with (Z.ones 23).
  rewrite !Z.land_ones by lia.
  pose proof (Z.mod_pos_bound (Z.shiftr w 23) (2 ^ 8) ltac:(lia)) as He.
  pose proof (Z.mod_pos_bound w (2 ^ 23) ltac:(lia)) as Hm.
  set (e := Z.shiftr w 23 mod 2 ^ 8) in *. set (m := w mod 2 ^ 23) in *.
  change (2 ^ 8) with 256 in He. change (2 ^ 23) with 8388608 in Hm.
  destruct (e =? 0) eqn:He0.
  - destruct m as [ | p | p] eqn:Hp; try reflexivity.
    cbn [valid_binary]. unfold SpecFloat.bounded, canonical_mantissa. rewrite fexp_32.
    pose proof (digits2_pos_lower p) as Hl.
    assert (Hd : Zpos (digits2_pos p) <= 23).
    { assert (Hc : 2 ^ Zpos (digits2_pos p) < 2 ^ 24)
        by (change (2 ^ 24) with 16777216; lia).
      apply (Z.pow_lt_mono_r_iff 2) in Hc; lia. }
    apply andb_true_intro. split; [apply Z.eqb_eq | apply Z.leb_le].
    + unfold fexp32. lia.
    + unfold F32.emax, F32.prec. lia.
  - apply Z.eqb_neq in He0.
    change (Z.ones 8) with 255.
    destruct (e =? 255) eqn:He1.
    + destruct (m =? 0); reflexivity.
    + apply Z.eqb_neq in He1.
      destruct (m + 8388608) as [ | p | p] eqn:Hp; try reflexivity.
      cbn [valid_binary]. unfold SpecFloat.bounded, canonical_mantissa. rewrite fexp_32.
      assert (Hd : Zpos (digits2_pos p) = 24).
      { apply digits2_pos_unique.
        change (2 ^ (24 - 1)) with 8388608. change (2 ^ 24) with 16777216. lia. }
      rewrite Hd.
      apply andb_true_intro. split; [apply Z.eqb_eq | apply Z.leb_le].
      * unfold fexp32. lia.
      * unfold F32.emax, F32.prec. lia.
Qed.

(** The two clamps of [onReceiveData] of [bridge1.c] leave a canonical
    number from 0 to 1, unless the value is not a number. *)
Lemma command_clamped (v : float) :
  valid_binary F32.prec F32.emax v = true -> F32.is_nan v = false ->
  let c := if F32.leb v (f_lit 0 1) then f_lit 0 1 else v in
  let c' := if F32.leb (f_lit 1 1) c then f_lit 1 1 else c in
  good c' /\ key c' <= key one.
Proof.
  intros Hv Hn.
  assert (H1 : good one) by (apply goodb_good; reflexivity).
  assert (H0 : good zero) by exact I.
  assert (Hk1 : key zero <= key one) by (apply Z.leb_le; reflexivity).
  assert (L10 : F32.leb (f_lit 1 1) (f_lit 0 1) = false) by reflexivity.
  destruct v as [s | [ | ] | | [ | ] m e]; try discriminate.
  - replace (F32.leb (S754_zero s) (f_lit 0 1)) with true
      by (destruct s; reflexivity).
    cbn zeta. rewrite L10. split; assumption.
  - replace (F32.leb (S754_infinity true) (f_lit 0 1)) with true by reflexivity.
    cbn zeta. rewrite L10. split; assumption.
  - replace (F32.leb (S754_infinity false) (f_lit 0 1)) with false by reflexivity.
    cbn zeta.
    replace (F32.leb (f_lit 1 1) (S754_infinity false)) with true by reflexivity.
    split; [assumption | apply Z.le_refl].
  - replace (F32.leb (S754_finite true m e) (f_lit 0 1)) with true by reflexivity.
    cbn zeta. rewrite L10. split; assumption.
  - assert (Hg : good (S754_finite false m e)) by (apply goodb_good; exact Hv).
    change (f_lit 0 1 : float) with zero. change (f_lit 1 1 : float) with one.
    rewrite (leb_key _ zero Hg H0).
    assert (Hp : 0 < key (S754_finite false m e))
      by (apply key_positive; cbn [good] in Hg; lia).
    replace (key (S754_finite false m e) <=? key zero) with false
      by (symmetry; apply Z.leb_gt; exact Hp).
    cbn zeta. rewrite (leb_key one _ H1 Hg).
    destruct (key one <=? key (S754_finite false m e)) eqn:Hc.
    + split; [assumption | lia].
    + apply Z.leb_gt in Hc. split; [assumption | lia].
Qed.

Lemma step_steady (st : Bridge1.state) (ev : Bridge1.event) :
  steady st -> Bridge1.carries_nan ev = false -> steady (Bridge1.step st ev).
Proof.
  intros [Ht [Hg Hk]] Hn. destruct ev as [data take | take rand_val timestamp].
  - cbn [Bridge1.step Bridge1.carries_nan] in *. unfold Bridge1.onReceiveData.
    destruct (Wire.received data) as [p | ] eqn:Hr; [ | split; auto].
    assert (Hv : valid_binary F32.prec F32.emax (Wire.value p) = true).
    { unfold Wire.received in Hr.
      destruct (Z.of_nat (List.length data) =? Wire.sizeof_SimPacket);
        [ | discriminate].
      injection Hr as <-. apply of_bits_valid. }
    destruct ((Wire.device_id p =? 1) && (Wire.id p =? 1)); [ | split; auto].
    destruct take; [ | split; auto].
    split; [exact Ht | ]. cbn [Bridge1.heater_cmd].
    exact (command_clamped (Wire.value p) Hv Hn).
  - cbn [Bridge1.step]. unfold Bridge1.physics_simulation_task.
    cbn [fst Bridge1.current_temp Bridge1.heater_cmd].
    split; [ | split; assumption].
    destruct Ht as [Hgt Hkt].
    apply update_keeps32; try assumption.
    + destruct take; [assumption | exact I].
    + destruct take; [assumption | apply Z.leb_le; reflexivity].
Qed.

Lemma run_steady (evs : list Bridge1.event) :
  Forall (fun ev => Bridge1.carries_nan ev = false) evs ->
  forall st, steady st -> steady (fold_left Bridge1.step evs st).
Proof.
  induction 1 as [ | ev evs Hev _ IH]; intros st Hst; [exact Hst | ].
  cbn [fold_left]. apply IH, step_steady; assumption.
Qed.

Lemma initial_steady : steady Bridge1.initial.
Proof.
  unfold steady. cbn [Bridge1.initial Bridge1.current_temp Bridge1.heater_cmd].
  repeat split; try exact I; try (apply goodb_good; reflexivity);
    apply Z.leb_le; reflexivity.
Qed.

(** [bridge1.c] applies no clamp after its update.  As long as no arriving
    packet carries a value that is not a number, after every sequence of
    packet arrivals and rounds of the physics task, whatever the outcomes
    of the mutex acquisitions and the draws of the noise, the stored
    temperature is a binary32 number from the ambient 25 to 65. *)
Theorem bridge1_temperature_bounded (evs : list Bridge1.event) :
  Forall (fun ev => Bridge1.carries_nan ev = false) evs ->
  valid_binary F32.prec F32.emax (Bridge1.current_temp (Bridge1.after evs)) = true
  /\ within AMBIENT_TEMP equilibrium (Bridge1.current_temp (Bridge1.after evs)).
Proof.
  intros Hev.
  destruct (run_steady evs Hev _ initial_steady) as [[Hg Hk] _].
  apply good_within; try assumption; apply goodb_good; reflexivity.
Qed.

Lemma bridge1_temperature_bounded_witness :
  valid_binary F32.prec F32.emax
    (Bridge1.current_temp
       (Bridge1.after
          [Bridge1.arrival command_on true; Bridge1.round true 7 0;
           Bridge1.round false 9 50])) = true
  /\ within AMBIENT_TEMP equilibrium
       (Bridge1.current_temp
          (Bridge1.after
             [Bridge1.arrival command_on true; Bridge1.round true 7 0;
              Bridge1.round false 9 50])).
Proof.
  apply (bridge1_temperature_bounded
           [Bridge1.arrival command_on true; Bridge1.round true 7 0;
            Bridge1.round false 9 50]).
  repeat constructor.
Defined.

(** ** The update law over exact rationals *)

Local Open Scope Q_scope.

Lemma equilibrium_value : equilibrium == 65.
Proof. reflexivity. Qed.

Lemma thermal_update_exact (t c : Q) :
  thermal_update t c == (999 # 1000) * t + (4 # 100) * c + (25 # 1000).
Proof.
  unfold thermal_update, AMBIENT_TEMP, HEATING_RATE, COOLING_RATE,
    THERMAL_MASS.
  cbn [f_add f_sub f_mul f_lit exact Z.to_pos]. field.
Qed.

Lemma thermal_update_keeps (t c : Q) :
  25 <= t <= 65 -> unit_command c -> 25 <= thermal_update t c <= 65.
Proof.
  intros Ht [Hc0 Hc1]. rewrite thermal_update_exact. lra.
Qed.

Lemma run_keeps (cmds : list Q) :
  Forall unit_command cmds ->
  forall t, 25 <= t <= 65 -> 25 <= run cmds t <= 65.
Proof.
  induction 1 as [ | c cmds Hc _ IH]; intros t Ht; [exact Ht | ].
  apply IH, thermal_update_keeps; assumption.
Qed.

Lemma unclamped_exact (cmds : list Q) :
  Forall unit_command cmds ->
  AMBIENT_TEMP <= run cmds AMBIENT_TEMP
  /\ run cmds AMBIENT_TEMP <= equilibrium
  /\ equilibrium == 65
  /\ equilibrium < MAX_TEMP
  /\ equilibrium < MAX_HEATER_TEMP.
Proof.
  intros Hc.
  assert (H : 25 <= run cmds AMBIENT_TEMP <= 65).
  { apply run_keeps; [exact Hc | ]. split; vm_compute; discriminate. }
  repeat split; try reflexivity.
  - apply H.
  - rewrite equilibrium_value. apply H.
Qed.

(** C10: with no clamp after it, the update law keeps the temperature
    between the ambient 25 and [ambient + heating_rate / cooling_rate],
    which is 65, for every sequence of commands of the range from 0 to 1,
    starting from the ambient temperature; that bound lies below the
    declared maxima, 100 and 200.  This holds of the law as the C code
    computes it, in binary32 with every operation rounded, and of the law
    read over exact rationals. *)
Theorem unclamped_law_is_bounded (cmds : list float) (exact_cmds : list Q) :
  Forall unit_command32 cmds ->
  Forall unit_command exact_cmds ->
  (valid_binary F32.prec F32.emax (run cmds AMBIENT_TEMP) = true
   /\ within AMBIENT_TEMP equilibrium (run cmds AMBIENT_TEMP)
   /\ (equilibrium : float) = F32.of_int 65
   /\ F32.ltb equilibrium MAX_TEMP = true
   /\ F32.ltb equilibrium MAX_HEATER_TEMP = true)
  /\ (AMBIENT_TEMP <= run exact_cmds AMBIENT_TEMP
      /\ run exact_cmds AMBIENT_TEMP <= equilibrium
      /\ equilibrium == 65
      /\ equilibrium < MAX_TEMP
      /\ equilibrium < MAX_HEATER_TEMP).
Proof.
  intros Hc He. split; [ | exact (unclamped_exact exact_cmds He)].
  destruct (unclamped_binary32 cmds Hc) as [Hv Hw].
  split; [exact Hv | ]. split; [exact Hw | ].
  repeat split; vm_compute; reflexivity.
Qed.

Lemma unclamped_law_is_bounded_witness :
  (valid_binary F32.prec F32.emax
     (run [one; zero; F32.lit 1 2] AMBIENT_TEMP) = true
   /\ within AMBIENT_TEMP equilibrium
        (run [one; zero; F32.lit 1 2] AMBIENT_TEMP)
   /\ (equilibrium : float) = F32.of_int 65
   /\ F32.ltb equilibrium MAX_TEMP = true
   /\ F32.ltb equilibrium MAX_HEATER_TEMP = true)
  /\ (AMBIENT_TEMP <= run [1; 0; 1 # 2] AMBIENT_TEMP
      /\ run [1; 0; 1 # 2] AMBIENT_TEMP <= equilibrium
      /\ equilibrium == 65
      /\ equilibrium < MAX_TEMP
      /\ equilibrium < MAX_HEATER_TEMP).
Proof.
  apply (unclamped_law_is_bounded [one; zero; F32.lit 1 2] [1; 0; 1 # 2]).
  - repeat constructor.
  - repeat constructor; vm_compute; discriminate.
Defined.

(** * The rest of the two nodes *)

Local Open Scope Z_scope.

(** ** Packets in memory *)

Lemma octet_value (z : Z) :
  Z.of_N (Byte.to_N (Wire.octet z)) = z mod 2 ^ 8.
Proof.
  unfold Wire.octet. change 255 with (Z.ones 8). rewrite Z.land_ones by lia.
  pose proof (Z.mod_pos_bound z (2 ^ 8) ltac:(lia)) as Hb.
  change (2 ^ 8) with 256 in *.
  destruct (Byte.of_N (Z.to_N (z mod 256))) as [b | ] eqn:Hof.
  - apply Byte.to_of_N in Hof. rewrite Hof. lia.
  - exfalso. apply Byte.of_N_None_iff in Hof. lia.
Qed.

Lemma word_of_le_bytes (w : Z) (pre post : list byte) :
  Wire.word_at (pre ++ Wire.le_bytes w ++ post) (List.length pre)
  = w mod 2 ^ 32.
Proof.
  unfold Wire.word_at, Wire.byte_at, Wire.le_bytes. cbn [map].
  assert (Hn : forall k d,
             nth (List.length pre + k)
               (pre ++ d) x00 = nth k d x00).
  { intros k d. rewrite app_nth2 by lia. f_equal. lia. }
  rewrite <- (Nat.add_0_r (List.length pre)) at 1.
  rewrite !Hn. cbn [nth app].
  rewrite !octet_value.
  rewrite !Z.shiftl_mul_pow2, !Z.shiftr_div_pow2 by lia.
  change (8 * 0) with 0. change (8 * 1) with 8. change (8 * 2) with 16.
  change (8 * 3) with 24. rewrite Z.pow_0_r, Z.div_1_r.
  change (2 ^ 8) with 256. change (2 ^ 16) with 65536.
  change (2 ^ 24) with 16777216. change (2 ^ 32) with 4294967296.
  Z.div_mod_to_equations. lia.
Qed.

Lemma cast_bytes_of (dev kind value_bits ctr : Z) :
  Wire.cast (Wire.bytes_of dev kind value_bits ctr)
  = {| Wire.device_id := dev mod 2 ^ 8;
       Wire.id := kind mod 2 ^ 8;
       Wire.value := F32.of_bits (value_bits mod 2 ^ 32);
       Wire.counter := ctr mod 2 ^ 32 |}.
Proof.
  unfold Wire.cast, Wire.bytes_of. f_equal.
  - unfold Wire.byte_at. cbn [app nth]. apply octet_value.
  - unfold Wire.byte_at. cbn [app nth]. apply octet_value.
  - f_equal.
    exact (word_of_le_bytes value_bits [Wire.octet dev; Wire.octet kind]
             (Wire.le_bytes ctr)).
  - pose proof (word_of_le_bytes ctr
                  ([Wire.octet dev; Wire.octet kind] ++ Wire.le_bytes value_bits)
                  []) as Hw.
    rewrite app_nil_r, <- app_assoc in Hw. exact Hw.
Qed.

Lemma bytes_of_length (dev kind value_bits ctr : Z) :
  Z.of_nat (List.length (Wire.bytes_of dev kind value_bits ctr))
  = Wire.sizeof_SimPacket.
Proof. reflexivity. Qed.

(** The three fields of a 32-bit pattern. *)
Lemma pattern_fields (s : bool) (e f : Z) :
  0 <= e < 2 ^ 8 -> 0 <= f < 2 ^ 23 ->
  let w := Z.b2z s * 2 ^ 31 + e * 2 ^ 23 + f in
  Z.testbit w 31 = s
  /\ Z.land (Z.shiftr w 23) 255 = e
  /\ Z.land w 8388607 = f
  /\ 0 <= w < 2 ^ 32.
Proof.
  intros He Hf w.
  change 255 with (Z.ones 8). change 8388607 with (Z.ones 23).
  rewrite !Z.land_ones, Z.shiftr_div_pow2 by lia.
  assert (Hb : 0 <= Z.b2z s <= 1) by (destruct s; cbn; lia).
  assert (Ht : Z.b2z (Z.testbit w 31) = Z.b2z s).
  { rewrite Z.testbit_spec' by lia. unfold w.
    change (2 ^ 8) with 256 in *. change (2 ^ 23) with 8388608 in *.
    change (2 ^ 31) with 2147483648 in *.
    Z.div_mod_to_equations. lia. }
  split; [apply Z.b2z_inj; exact Ht | ].
  unfold w.
  change (2 ^ 8) with 256 in *. change (2 ^ 23) with 8388608 in *.
  change (2 ^ 31) with 2147483648 in *. change (2 ^ 32) with 4294967296.
  repeat split; Z.div_mod_to_equations; lia.
Qed.

Lemma valid_mantissa (s : bool) (m : positive) (e : Z) :
  valid_binary F32.prec F32.emax (S754_finite s m e) = true ->
  -149 <= e <= 104 /\ Zpos m < 2 ^ 24
  /\ (Zpos m < 2 ^ 23 -> e = -149).
Proof.
  cbn [valid_binary]. unfold SpecFloat.bounded, canonical_mantissa.
  rewrite fexp_32. intros Hv. apply andb_prop in Hv. destruct Hv as [Hc He].
  apply Z.eqb_eq in Hc. apply Z.leb_le in He.
  unfold F32.emax, F32.prec in He.
  pose proof (digits2_pos_lower m) as Hl. pose proof (digits2_pos_upper m) as Hu.
  set (d := Zpos (digits2_pos m)) in *.
  assert (0 < d) by (unfold d; lia).
  assert (Hd : d <= 24) by (unfold fexp32 in Hc; lia).
  split; [unfold fexp32 in Hc; lia | ]. split.
  - assert (2 ^ d <= 2 ^ 24) by (apply Z.pow_le_mono_r; lia). lia.
  - intros Hsmall.
    assert (Hd' : d <= 23).
    { destruct (Z_le_gt_dec d 23); [assumption | exfalso].
      assert (d = 24) by lia.
      assert (Hp : 2 ^ d = 2 * 2 ^ 23) by (replace d with 24 by lia; reflexivity).
      lia. }
    unfold fexp32 in Hc. lia.
Qed.

Lemma to_bits_range (x : float) :
  valid_binary F32.prec F32.emax x = true -> 0 <= Codec.to_bits x < 2 ^ 32.
Proof.
  intros Hv. destruct x as [s | s | | s m e]; cbn [Codec.to_bits].
  - destruct s; cbn; lia.
  - destruct s; cbn; lia.
  - lia.
  - destruct (valid_mantissa s m e Hv) as (He & Hm & Hsub).
    change (2 ^ 23) with 8388608 in *. change (2 ^ 24) with 16777216 in *.
    change (2 ^ 31) with 2147483648. change (2 ^ 32) with 4294967296.
    destruct (Z.ltb_spec (Zpos m) 8388608); destruct s; cbn [Z.b2z]; lia.
Qed.

(** Decoding the pattern of a binary32 datum gives the datum back. *)
Lemma of_bits_to_bits (x : float) :
  valid_binary F32.prec F32.emax x = true ->
  F32.of_bits (Codec.to_bits x) = x.
Proof.
  intros Hv. destruct x as [s | s | | s m e].
  - destruct s; reflexivity.
  - destruct s; reflexivity.
  - reflexivity.
  - destruct (valid_mantissa s m e Hv) as (He & Hm & Hsub).
    cbn [Codec.to_bits].
    destruct (Z.ltb_spec (Zpos m) (2 ^ 23)) as [Hlt | Hge].
    + specialize (Hsub Hlt). subst e.
      destruct (pattern_fields s 0 (Zpos m) ltac:(lia) ltac:(lia))
        as (Hs & Hef & Hf & _).
      cbn zeta in Hs, Hef, Hf. rewrite Z.mul_0_l, Z.add_0_r in Hs, Hef, Hf.
      unfold F32.of_bits. rewrite Hs, Hef, Hf. reflexivity.
    + change (2 ^ 23) with 8388608 in *. change (2 ^ 24) with 16777216 in *.
      destruct (pattern_fields s (e + 150) (Zpos m - 8388608)
                  ltac:(change (2 ^ 8) with 256; lia)
                  ltac:(change (2 ^ 23) with 8388608; lia))
        as (Hs & Hef & Hf & _).
      cbn zeta in Hs, Hef, Hf.
      change (2 ^ 23) with 8388608 in *.
      rewrite <- Z.add_assoc in Hs, Hef, Hf.
      unfold F32.of_bits. rewrite Hs, Hef, Hf.
      destruct (Z.eqb_spec (e + 150) 0) as [H0 | _]; [lia | ].
      destruct (Z.eqb_spec (e + 150) 255) as [H255 | _]; [lia | ].
      replace (Zpos m - 8388608 + 8388608) with (Zpos m) by lia.
      f_equal. lia.
Qed.

(** A packet variable read back from its ten bytes. *)
Lemma received_to_bytes (p : Wire.SimPacket) :
  Codec.well_formed p -> Wire.received (Codec.to_bytes p) = Some p.
Proof.
  intros (Hd & Hi & Hv & Hc).
  unfold Wire.received, Codec.to_bytes.
  rewrite bytes_of_length, Z.eqb_refl, cast_bytes_of.
  pose proof (to_bits_range _ Hv) as Hr.
  rewrite !Z.mod_small by lia.
  rewrite of_bits_to_bits by exact Hv.
  destruct p; reflexivity.
Qed.

(** What a sender hands to [esp_now_send], [(uint8_t * ) &packet] and
    [sizeof (packet)], is ten bytes, and the receive callbacks read back
    from them the packet that was sent, field by field. *)
Theorem sent_packet_is_received (p : Wire.SimPacket) :
  Codec.well_formed p ->
  Z.of_nat (List.length (Codec.to_bytes p)) = Wire.sizeof_SimPacket
  /\ Wire.received (Codec.to_bytes p) = Some p.
Proof.
  intros Hp. split; [apply bytes_of_length | apply received_to_bytes, Hp].
Qed.

Lemma sent_packet_is_received_witness :
  Z.of_nat
    (List.length
       (Codec.to_bytes
          {| Wire.device_id := 0; Wire.id := 1; Wire.value := F32.lit 615 10;
             Wire.counter := 4000 |}))
  = Wire.sizeof_SimPacket
  /\ Wire.received
       (Codec.to_bytes
          {| Wire.device_id := 0; Wire.id := 1; Wire.value := F32.lit 615 10;
             Wire.counter := 4000 |})
     = Some {| Wire.device_id := 0; Wire.id := 1; Wire.value := F32.lit 615 10;
               Wire.counter := 4000 |}.
Proof.
  apply (sent_packet_is_received
           {| Wire.device_id := 0; Wire.id := 1; Wire.value := F32.lit 615 10;
              Wire.counter := 4000 |}).
  unfold Codec.well_formed.
  cbn [Wire.device_id Wire.id Wire.value Wire.counter].
  split; [lia | ]. split; [lia | ]. split; [reflexivity | lia].
Defined.

(** ** The guest program and the heater pin *)

Lemma control_round_state (r : float) (s : Z) :
  s = 0 \/ s = 1 ->
  let '(s', calls) := Guest.control_round r s in
  (s' = 0 \/ s' = 1)
  /\ Hosted.pin_levels calls = (if s' =? s then [] else [s']).
Proof.
  intros [-> | ->]; unfold Guest.control_round;
    destruct (f_lt r (f_sub Guest.TARGET_TEMP Guest.HYSTERESIS));
    destruct (f_lt (f_add Guest.TARGET_TEMP Guest.HYSTERESIS) r);
    cbn; auto.
Qed.

Lemma pin_levels_app (a b : list Guest.host_call) :
  Hosted.pin_levels (a ++ b) = Hosted.pin_levels a ++ Hosted.pin_levels b.
Proof. apply flat_map_app. Qed.

Lemma rounds_alternate (readings : list float) :
  forall s : Z,
    s = 0 \/ s = 1 ->
    Forall (fun s' => s' = 0 \/ s' = 1) (fst (Guest.rounds readings s))
    /\ Hosted.alternates (1 - s)
         (Hosted.pin_levels (snd (Guest.rounds readings s))) = true.
Proof.
  induction readings as [ | r rest IH]; intros s Hs.
  - split; [constructor | reflexivity].
  - cbn [Guest.rounds].
    pose proof (control_round_state r s Hs) as Hr.
    destruct (Guest.control_round r s) as [s' calls].
    destruct Hr as [Hs' Hcalls].
    specialize (IH s' Hs').
    destruct (Guest.rounds rest s') as [states calls'].
    cbn [fst snd] in *. destruct IH as [IHs IHa].
    split; [constructor; assumption | ].
    rewrite pin_levels_app, Hcalls.
    destruct (Z.eqb_spec s' s) as [-> | Hne]; [exact IHa | ].
    cbn [app Hosted.alternates].
    replace (s' =? 1 - s) with true
      by (symmetry; apply Z.eqb_eq; lia).
    replace (1 - (1 - s)) with (1 - s') by lia. exact IHa.
Qed.

(** The guest program of [controller/containers/controller.c], for every
    sequence of temperatures its reads return (numbers or not): its
    heater state is 0 or 1 after every round, and the values it passes to
    [host_set_heater], which [controller_wamr.c] writes to the heater pin
    as they are, are 1, 0, 1, 0, ... in turn.  It calls [host_set_heater]
    only to change the level of the pin. *)
Theorem guest_drives_pin_in_turn (readings : list float) :
  Forall (fun s => s = 0 \/ s = 1) (fst (Guest.main readings))
  /\ Hosted.alternates 1 (Hosted.pin_levels (snd (Guest.main readings)))
     = true.
Proof.
  unfold Guest.main.
  pose proof (rounds_alternate readings 0 ltac:(auto)) as H.
  destruct (Guest.rounds readings 0) as [states calls].
  cbn [fst snd] in *. exact H.
Qed.

(** ** The plant in a loop with the native controller *)

Lemma received_bytes_of (dev kind value_bits ctr : Z) :
  Wire.received (Wire.bytes_of dev kind value_bits ctr)
  = Some {| Wire.device_id := dev mod 2 ^ 8;
            Wire.id := kind mod 2 ^ 8;
            Wire.value := F32.of_bits (value_bits mod 2 ^ 32);
            Wire.counter := ctr mod 2 ^ 32 |}.
Proof.
  unfold Wire.received.
  rewrite bytes_of_length, Z.eqb_refl, cast_bytes_of. reflexivity.
Qed.

Lemma controller2_keeps_off_or_on (target_temp hysteresis : float)
    (data : list byte) (take : bool) (st : Controller2.state) :
  Loop.off_or_on (Controller2.heater_cmd st) ->
  Loop.off_or_on
    (Controller2.heater_cmd
       (Controller2.onReceiveData target_temp hysteresis data take st)).
Proof.
  intros Hst. unfold Controller2.onReceiveData.
  destruct (Wire.received data) as [p | ]; [ | exact Hst].
  destruct ((Wire.device_id p =? 0) && (Wire.id p =? 1)); [ | exact Hst].
  destruct take; [ | exact Hst].
  cbn [Controller2.heater_cmd].
  destruct (f_lt (Wire.value p) (f_sub target_temp hysteresis));
    [right; reflexivity | ].
  destruct (f_lt (f_add target_temp hysteresis) (Wire.value p));
    [left; reflexivity | exact Hst].
Qed.

(** The command the sending loop of [controller2.c] emits reaches the
    plant of [bridge1.c] as it is. *)
Lemma command_delivered (take take' : bool) (n : Z)
    (st : Controller2.state) (pl : Bridge1.state) :
  Loop.off_or_on (Controller2.heater_cmd st) ->
  Bridge1.onReceiveData
    (Codec.to_bytes (fst (Controller2.app_main take n st))) take' pl
  = if take' then
      {| Bridge1.current_temp := Bridge1.current_temp pl;
         Bridge1.heater_cmd :=
           if take then Controller2.heater_cmd st else zero |}
    else pl.
Proof.
  intros Hst. unfold Controller2.app_main, Codec.to_bytes, Bridge1.onReceiveData.
  cbn [fst Wire.device_id Wire.id Wire.value Wire.counter].
  rewrite received_bytes_of.
  cbn [Wire.device_id Wire.id Wire.value].
  change ((1 mod 2 ^ 8 =? 1) && (1 mod 2 ^ 8 =? 1)) with true. cbn iota.
  destruct take; [destruct Hst as [-> | ->] | ]; reflexivity.
Qed.

Lemma off_or_on_steady (t c : float) :
  steady {| Bridge1.current_temp := t; Bridge1.heater_cmd := c |} ->
  forall c', Loop.off_or_on c' ->
  steady {| Bridge1.current_temp := t; Bridge1.heater_cmd := c' |}.
Proof.
  intros [Ht _] c' Hc. split; [exact Ht | ].
  cbn [Bridge1.heater_cmd].
  destruct Hc as [-> | ->]; split; try exact I;
    try (apply goodb_good; reflexivity); apply Z.leb_le; reflexivity.
Qed.

Lemma loop_step_safe (target_temp hysteresis : float)
    (st : Loop.state) (ev : Loop.event) :
  steady (Loop.plant st)
  /\ Loop.off_or_on (Bridge1.heater_cmd (Loop.plant st))
  /\ Loop.off_or_on (Controller2.heater_cmd (Loop.controller st)) ->
  steady (Loop.plant (Loop.step target_temp hysteresis st ev))
  /\ Loop.off_or_on
       (Bridge1.heater_cmd (Loop.plant (Loop.step target_temp hysteresis st ev)))
  /\ Loop.off_or_on
       (Controller2.heater_cmd
          (Loop.controller (Loop.step target_temp hysteresis st ev))).
Proof.
  intros (Hs & Hp & Hc).
  destruct ev as [take rand_val timestamp delivered | take delivered].
  - cbn [Loop.step].
    pose proof (step_steady (Loop.plant st)
                  (Bridge1.round take rand_val timestamp) Hs eq_refl) as Hs'.
    cbn [Bridge1.step] in Hs'.
    destruct (Bridge1.physics_simulation_task take rand_val timestamp
                (Loop.plant st)) as [plant' sensor_packet] eqn:Hr.
    cbn [fst Loop.plant Loop.controller] in *.
    split; [exact Hs' | ]. split.
    + unfold Bridge1.physics_simulation_task in Hr.
      injection Hr as <- _. exact Hp.
    + destruct delivered as [take' | ]; [ | exact Hc].
      apply controller2_keeps_off_or_on. exact Hc.
  - cbn [Loop.step].
    pose proof (command_delivered take) as Hd.
    destruct (Controller2.app_main take (Loop.packet_counter st)
                (Loop.controller st)) as [packet counter'] eqn:Hm.
    cbn [Loop.plant Loop.controller].
    split; [ | split; [ | exact Hc]].
    + destruct delivered as [take' | ]; [ | exact Hs].
      specialize (Hd take' (Loop.packet_counter st) (Loop.controller st)
                    (Loop.plant st) Hc).
      rewrite Hm in Hd. cbn [fst] in Hd. rewrite Hd.
      destruct take'; [ | exact Hs].
      destruct (Loop.plant st) as [t c] eqn:Hpl.
      apply (off_or_on_steady t c Hs).
      destruct take; [exact Hc | left; reflexivity].
    + destruct delivered as [take' | ]; [ | exact Hp].
      specialize (Hd take' (Loop.packet_counter st) (Loop.controller st)
                    (Loop.plant st) Hc).
      rewrite Hm in Hd. cbn [fst] in Hd. rewrite Hd.
      destruct take'; [ | exact Hp].
      cbn [Bridge1.heater_cmd].
      destruct take; [exact Hc | left; reflexivity].
Qed.

(** [bridge1.c] in a loop with [controller2.c], for every target and band
    of the controller and every sequence of rounds of the two nodes,
    whatever packets are lost, whatever the outcomes of the mutex
    acquisitions and the draws of the noise: the temperature of the plant
    is a binary32 number from 25 to 65, and the command the controller
    holds and the command the plant holds are each 0.0 or 1.0. *)
Theorem native_loop_is_safe (target_temp hysteresis : float)
    (evs : list Loop.event) :
  valid_binary F32.prec F32.emax
    (Bridge1.current_temp
       (Loop.plant (Loop.after target_temp hysteresis evs))) = true
  /\ within AMBIENT_TEMP equilibrium
       (Bridge1.current_temp
          (Loop.plant (Loop.after target_temp hysteresis evs)))
  /\ Loop.off_or_on
       (Bridge1.heater_cmd
          (Loop.plant (Loop.after target_temp hysteresis evs)))
  /\ Loop.off_or_on
       (Controller2.heater_cmd
          (Loop.controller (Loop.after target_temp hysteresis evs))).
Proof.
  unfold Loop.after.
  assert (Hinv : forall st,
             steady (Loop.plant st)
             /\ Loop.off_or_on (Bridge1.heater_cmd (Loop.plant st))
             /\ Loop.off_or_on (Controller2.heater_cmd (Loop.controller st)) ->
             steady (Loop.plant
                       (fold_left (Loop.step target_temp hysteresis) evs st))
             /\ Loop.off_or_on
                  (Bridge1.heater_cmd
                     (Loop.plant
                        (fold_left (Loop.step target_temp hysteresis) evs st)))
             /\ Loop.off_or_on
                  (Controller2.heater_cmd
                     (Loop.controller
                        (fold_left (Loop.step target_temp hysteresis) evs st)))).
  { induction evs as [ | ev evs IH]; intros st Hst; [exact Hst | ].
    cbn [fold_left]. apply IH, loop_step_safe. exact Hst. }
  destruct (Hinv Loop.initial) as ([[Hg Hk] _] & Hp & Hc).
  { split; [exact initial_steady | ]. split; left; reflexivity. }
  destruct (good_within AMBIENT_TEMP equilibrium _
              ltac:(apply goodb_good; reflexivity)
              ltac:(apply goodb_good; reflexivity) Hg Hk) as [Hv Hw].
  auto.
Qed.

(** ** From [host_set_heater] to the plant *)

Lemma eqb_key (x y : float) :
  good x -> good y -> F32.eqb x y = (key x =? key y).
Proof.
  intros Hx Hy. unfold F32.eqb, SFeqb. rewrite (compare_key x y Hx Hy).
  destruct (Z.compare_spec (key x) (key y)) as [He | Hl | Hg].
  - symmetry. apply Z.eqb_eq. exact He.
  - symmetry. apply Z.eqb_neq. lia.
  - symmetry. apply Z.eqb_neq. lia.
Qed.

(** The clamp of [host_set_heater] of [controller1.c] followed by the
    clamp of [onReceiveData] of [bridge1.c]: the second changes nothing
    but the sign of a zero. *)
Lemma clamps_agree (v : float) :
  valid_binary F32.prec F32.emax v = true -> F32.is_nan v = false ->
  let c := if F32.ltb v (f_lit 0 1) then f_lit 0 1 else v in
  let c := if F32.ltb (f_lit 1 1) c then f_lit 1 1 else c in
  let b := if F32.leb c (f_lit 0 1) then f_lit 0 1 else c in
  let b := if F32.leb (f_lit 1 1) b then f_lit 1 1 else b in
  valid_binary F32.prec F32.emax c = true
  /\ F32.eqb b c = true /\ within zero one b.
Proof.
  intros Hv Hn.
  assert (H1 : good one) by (apply goodb_good; reflexivity).
  assert (H0 : good zero) by exact I.
  destruct v as [s | [ | ] | | [ | ] m e]; try discriminate.
  - destruct s; repeat split; reflexivity.
  - repeat split; reflexivity.
  - repeat split; reflexivity.
  - repeat split; reflexivity.
  - assert (Hg : good (S754_finite false m e)) by (apply goodb_good; exact Hv).
    assert (Hp : 0 < key (S754_finite false m e))
      by (apply key_positive; cbn [good] in Hg; lia).
    change (f_lit 0 1 : float) with zero. change (f_lit 1 1 : float) with one.
    rewrite (ltb_key _ zero Hg H0).
    replace (key (S754_finite false m e) <? key zero) with false
      by (symmetry; apply Z.ltb_ge; change (key zero) with 0; lia).
    cbn zeta. rewrite (ltb_key one _ H1 Hg).
    destruct (Z.ltb_spec (key one) (key (S754_finite false m e))) as [Hgt | Hle].
    + repeat split; reflexivity.
    + rewrite (leb_key _ zero Hg H0).
      replace (key (S754_finite false m e) <=? key zero) with false
        by (symmetry; apply Z.leb_gt; exact Hp).
      rewrite (leb_key one _ H1 Hg).
      destruct (Z.leb_spec (key one) (key (S754_finite false m e))) as [Hge | Hlt].
      * split; [exact Hv | ]. split; [ | split; reflexivity].
        rewrite (eqb_key one _ H1 Hg). apply Z.eqb_eq. lia.
      * split; [exact Hv | ]. split.
        -- rewrite (eqb_key _ _ Hg Hg). apply Z.eqb_refl.
        -- unfold within. rewrite (leb_key zero _ H0 Hg), (leb_key _ one Hg H1).
           split; apply Z.leb_le; [change (key zero) with 0 | ]; lia.
Qed.

Lemma command_path (v : float) (packet_counter : Z)
    (st : Controller1.state) (pl : Bridge1.state) :
  valid_binary F32.prec F32.emax v = true -> F32.is_nan v = false ->
  let st' := Controller1.host_set_heater v true st in
  let packet := fst (Controller1.sender_task true packet_counter st') in
  let pl' := Bridge1.onReceiveData (Codec.to_bytes packet) true pl in
  F32.eqb (Bridge1.heater_cmd pl') (Controller1.heater_cmd st') = true
  /\ within zero one (Bridge1.heater_cmd pl')
  /\ Bridge1.current_temp pl' = Bridge1.current_temp pl.
Proof.
  intros Hv Hn st' packet pl'.
  destruct (clamps_agree v Hv Hn) as (Hc & He & Hw). cbn zeta in Hc, He, Hw.
  set (c := Controller1.heater_cmd st').
  assert (Hvc : valid_binary F32.prec F32.emax c = true) by exact Hc.
  set (b := if F32.leb (f_lit 1 1)
                 (if F32.leb c (f_lit 0 1) then f_lit 0 1 else c)
            then f_lit 1 1
            else if F32.leb c (f_lit 0 1) then f_lit 0 1 else c).
  assert (Heb : F32.eqb b c = true) by exact He.
  assert (Hwb : within zero one b) by exact Hw.
  assert (Hpl : pl' = {| Bridge1.current_temp := Bridge1.current_temp pl;
                         Bridge1.heater_cmd := b |}).
  { unfold pl', packet, b.
    change (fst (Controller1.sender_task true packet_counter st'))
      with {| Wire.device_id := 1; Wire.id := 1; Wire.value := c;
              Wire.counter := packet_counter |}.
    clearbody c.
    unfold Codec.to_bytes, Bridge1.onReceiveData.
    cbn [Wire.device_id Wire.id Wire.value Wire.counter].
    rewrite received_bytes_of.
    cbn [Wire.device_id Wire.id Wire.value].
    change ((1 mod 2 ^ 8 =? 1) && (1 mod 2 ^ 8 =? 1)) with true. cbn iota.
    rewrite Z.mod_small by (apply to_bits_range; exact Hvc).
    rewrite (of_bits_to_bits c Hvc). reflexivity. }
  rewrite Hpl. cbn [Bridge1.heater_cmd Bridge1.current_temp].
  split; [exact Heb | ]. split; [exact Hwb | reflexivity].
Qed.


(** A number the guest writes through [host_set_heater] of
    [controller1.c], once the sending loop has sent it and the receive
    callback of [bridge1.c] has stored it (the mutex free each time), is
    in the plant the command the controller holds: equal as a number, and
    from 0.0 to 1.0. *)
Theorem command_reaches_plant (v : float) (packet_counter : Z)
    (st : Controller1.state) (pl : Bridge1.state) :
  valid_binary F32.prec F32.emax v = true -> F32.is_nan v = false ->
  F32.eqb
    (Bridge1.heater_cmd
       (Bridge1.onReceiveData
          (Codec.to_bytes
             (fst (Controller1.sender_task true packet_counter
                     (Controller1.host_set_heater v true st))))
          true pl))
    (Controller1.heater_cmd (Controller1.host_set_heater v true st))
  = true
  /\ within zero one
       (Bridge1.heater_cmd
          (Bridge1.onReceiveData
             (Codec.to_bytes
                (fst (Controller1.sender_task true packet_counter
                        (Controller1.host_set_heater v true st))))
             true pl))
  /\ Bridge1.current_temp
       (Bridge1.onReceiveData
          (Codec.to_bytes
             (fst (Controller1.sender_task true packet_counter
                     (Controller1.host_set_heater v true st))))
          true pl)
     = Bridge1.current_temp pl.
Proof.
  intros Hv Hn. exact (command_path v packet_counter st pl Hv Hn).
Qed.

Lemma command_reaches_plant_witness :
  F32.eqb
    (Bridge1.heater_cmd
       (Bridge1.onReceiveData
          (Codec.to_bytes
             (fst (Controller1.sender_task true 7
                     (Controller1.host_set_heater (F32.lit 3 4) true
                        Controller1.initial))))
          true Bridge1.initial))
    (Controller1.heater_cmd
       (Controller1.host_set_heater (F32.lit 3 4) true Controller1.initial))
  = true
  /\ within zero one
       (Bridge1.heater_cmd
          (Bridge1.onReceiveData
             (Codec.to_bytes
                (fst (Controller1.sender_task true 7
                        (Controller1.host_set_heater (F32.lit 3 4) true
                           Controller1.initial))))
             true Bridge1.initial))
  /\ Bridge1.current_temp
       (Bridge1.onReceiveData
          (Codec.to_bytes
             (fst (Controller1.sender_task true 7
                     (Controller1.host_set_heater (F32.lit 3 4) true
                        Controller1.initial))))
          true Bridge1.initial)
     = Bridge1.current_temp Bridge1.initial.
Proof.
  apply (command_reaches_plant (F32.lit 3 4) 7 Controller1.initial
           Bridge1.initial); reflexivity.
Defined.

(** ** Loading and running the guest program *)

(** [wasm_thread_entry] of [controller_wamr.c]: when SPIFFS does not mount
    or the runtime does not initialise, the thread opens no file and does
    not run the engine. *)
Theorem engine_needs_mount_and_init (pf : Loader.platform) :
  Loader.spiffs_register pf = false \/ Loader.full_init pf = false ->
  Loader.runs (Loader.wasm_thread_entry pf) = []
  /\ Loader.opened (Loader.wasm_thread_entry pf) = [].
Proof.
  unfold Loader.wasm_thread_entry.
  intros [H | H]; rewrite H; cbn [negb];
    [ | destruct (Loader.spiffs_register pf); cbn [negb]];
    split; reflexivity.
Qed.

Lemma engine_needs_mount_and_init_witness :
  Loader.runs
    (Loader.wasm_thread_entry
       {| Loader.spiffs_register := true; Loader.full_init := false;
          Loader.file := Some [x00]; Loader.malloc := true;
          Loader.engine :=
            {| Wamr.load := true; Wamr.instantiate := true;
               Wamr.create_exec_env := true; Wamr.lookup_main := true;
               Wamr.call_main := Wamr.call_true |} |}) = []
  /\ Loader.opened
       (Loader.wasm_thread_entry
          {| Loader.spiffs_register := true; Loader.full_init := false;
             Loader.file := Some [x00]; Loader.malloc := true;
             Loader.engine :=
               {| Wamr.load := true; Wamr.instantiate := true;
                  Wamr.create_exec_env := true; Wamr.lookup_main := true;
                  Wamr.call_main := Wamr.call_true |} |}) = [].
Proof.
  apply (engine_needs_mount_and_init
           {| Loader.spiffs_register := true; Loader.full_init := false;
              Loader.file := Some [x00]; Loader.malloc := true;
              Loader.engine :=
                {| Wamr.load := true; Wamr.instantiate := true;
                   Wamr.create_exec_env := true; Wamr.lookup_main := true;
                   Wamr.call_main := Wamr.call_true |} |}).
  right. reflexivity.
Defined.

(** [wasm_thread_entry] of [controller_wamr.c], once SPIFFS is mounted and
    the runtime initialised: when the file does not open, or [malloc]
    returns no buffer, the thread logs the failure and goes on to call
    [run_wasm] all the same, on a NULL buffer of size 0, and then
    [free (NULL)]. *)
Theorem missing_file_still_runs_engine (pf : Loader.platform) :
  Loader.spiffs_register pf = true -> Loader.full_init pf = true ->
  Loader.file pf = None \/ Loader.malloc pf = false ->
  exists before,
    Loader.wasm_thread_entry pf
    = before
      ++ [Loader.log Wamr.LOGE "Failed to load WASM file from SPIFFS" None;
          Loader.run_wasm None 0
            (Wamr.trace_of (ControllerWamr.run_wasm (Loader.engine pf)));
          Loader.free None].
Proof.
  intros Hm Hi Hf. unfold Loader.wasm_thread_entry, Loader.load_wasm_from_spiffs.
  rewrite Hm, Hi. cbn [negb].
  destruct (Loader.file pf) as [contents | ] eqn:Hfile.
  - destruct Hf as [Hf | Hf]; [discriminate | ]. rewrite Hf.
    match goal with
    | |- exists before, (?a ++ ?b ++ _)%list = _ => exists (a ++ b)%list
    end.
    rewrite <- app_assoc. reflexivity.
  - match goal with
    | |- exists before, (?a ++ ?b ++ _)%list = _ => exists (a ++ b)%list
    end.
    rewrite <- app_assoc. reflexivity.
Qed.

Lemma missing_file_still_runs_engine_witness :
  exists before,
    Loader.wasm_thread_entry
      {| Loader.spiffs_register := true; Loader.full_init := true;
         Loader.file := None; Loader.malloc := true;
         Loader.engine :=
           {| Wamr.load := false; Wamr.instantiate := true;
              Wamr.create_exec_env := true; Wamr.lookup_main := true;
              Wamr.call_main := Wamr.call_true |} |}
    = before
      ++ [Loader.log Wamr.LOGE "Failed to load WASM file from SPIFFS" None;
          Loader.run_wasm None 0
            (Wamr.trace_of
               (ControllerWamr.run_wasm
                  (Loader.engine
                     {| Loader.spiffs_register := true;
                        Loader.full_init := true;
                        Loader.file := None; Loader.malloc := true;
                        Loader.engine :=
                          {| Wamr.load := false; Wamr.instantiate := true;
                             Wamr.create_exec_env := true;
                             Wamr.lookup_main := true;
                             Wamr.call_main := Wamr.call_true |} |})));
          Loader.free None].
Proof.
  apply (missing_file_still_runs_engine
           {| Loader.spiffs_register := true; Loader.full_init := true;
              Loader.file := None; Loader.malloc := true;
              Loader.engine :=
                {| Wamr.load := false; Wamr.instantiate := true;
                   Wamr.create_exec_env := true; Wamr.lookup_main := true;
                   Wamr.call_main := Wamr.call_true |} |});
    [reflexivity | reflexivity | left; reflexivity].
Defined.


(** [run_wasm] of [controller1.c] and of [controller_wamr.c], for every
    combination of answers of the runtime: the entry point is called
    exactly when the load, the instantiation, the creation of the
    execution environment and the lookup of ["main"] all succeed, and then
    once; the exception is read exactly when that call returns false; and
    a line is logged at error level exactly when the run neither completes
    nor ends on an exception that mentions ["terminated"], and then one
    line only. *)
Theorem engine_run_report (rt : Wamr.runtime) :
  Report.outcome rt (Wamr.trace_of (Controller1.run_wasm rt))
  /\ Report.outcome rt (Wamr.trace_of (ControllerWamr.run_wasm rt)).
Proof.
  destruct rt as [l i c m r]. unfold Report.outcome, Report.ready.
  cbn [Wamr.load Wamr.instantiate Wamr.create_exec_env Wamr.lookup_main
         Wamr.call_main].
  destruct l; [ | repeat split; reflexivity].
  destruct i; [ | repeat split; reflexivity].
  destruct c; [ | repeat split; reflexivity].
  destruct m; [ | repeat split; reflexivity].
  destruct r as [ | [msg | ]]; [repeat split; reflexivity | | repeat split; reflexivity].
  cbv -[Wamr.strstr].
  destruct (Wamr.strstr msg "terminated"); repeat split; reflexivity.
Qed.

(** [run_wasm] of [controller1.c]: [global_module_inst] is written exactly
    when the execution environment was created, first with the instance
    and at the end with NULL, so that it never holds an instance once the
    run has returned. *)
Theorem global_instance_is_reset (rt : Wamr.runtime) :
  Report.global_writes (Wamr.trace_of (Controller1.run_wasm rt))
  = if Wamr.load rt && Wamr.instantiate rt && Wamr.create_exec_env rt
    then [Wamr.set_global_module_inst true; Wamr.set_global_module_inst false]
    else [].
Proof.
  destruct rt as [l i c m r].
  cbn [Wamr.load Wamr.instantiate Wamr.create_exec_env].
  destruct l; [ | reflexivity].
  destruct i; [ | reflexivity].
  destruct c; [ | reflexivity].
  destruct m; [ | reflexivity].
  destruct r as [ | [msg | ]]; [reflexivity | | reflexivity].
  cbv -[Wamr.strstr].
  destruct (Wamr.strstr msg "terminated"); reflexivity.
Qed.

(** ** Rounding a quotient to binary32 *)

Import Quotient.

Lemma shr_n_sticky (M : Z) (r s : bool) (n : nat) :
  0 <= M ->
  Nat.iter (S n) shr_1 {| shr_m := M; shr_r := r; shr_s := s |}
  = {| shr_m := M / 2 ^ Z.of_nat (S n);
       shr_r := Z.testbit M (Z.of_nat n);
       shr_s := negb (M mod 2 ^ Z.of_nat n =? 0) || (r || s) |}.
Proof.
  intros HM. induction n as [ | n IH].
  - cbn [Nat.iter nat_rect]. rewrite shr_1_spec by assumption.
    change (Z.of_nat 1) with 1. change (Z.of_nat 0) with 0.
    rewrite Z.pow_1_r, Z.pow_0_r, Z.mod_1_r, Z.div2_div, Z.bit0_odd.
    reflexivity.
  - change (Nat.iter (S (S n)) shr_1 ?x) with (shr_1 (Nat.iter (S n) shr_1 x)).
    rewrite IH.
    assert (Hp : 0 < 2 ^ Z.of_nat (S n)) by (apply Z.pow_pos_nonneg; lia).
    rewrite shr_1_spec by (apply Z.div_pos; lia).
    f_equal.
    + rewrite Z.div2_div, Z.div_div by lia.
      f_equal. rewrite (Nat2Z.inj_succ (S n)), Z.pow_succ_r by lia. lia.
    + rewrite (Z.testbit_odd M (Z.of_nat (S n))), Z.shiftr_div_pow2 by lia.
      reflexivity.
    + rewrite (Nat2Z.inj_succ n). unfold Z.succ.
      rewrite (mod_pow2_succ M (Z.of_nat n)) by lia.
      assert (0 < 2 ^ Z.of_nat n) by (apply Z.pow_pos_nonneg; lia).
      pose proof (Z.mod_pos_bound M (2 ^ Z.of_nat n) ltac:(lia)) as Hb.
      destruct (Z.testbit M (Z.of_nat n)); cbn [Z.b2z orb].
      * replace (M mod 2 ^ Z.of_nat n + 2 ^ Z.of_nat n * 1 =? 0) with false
          by (symmetry; apply Z.eqb_neq; lia).
        reflexivity.
      * rewrite Z.mul_0_r, Z.add_0_r. reflexivity.
Qed.

Lemma located_sticky (l : location) (M r D : Z) :
  0 < D -> 0 <= r < D -> located l r D ->
  shr_r (shr_record_of_loc M l) || shr_s (shr_record_of_loc M l)
  = negb (r =? 0).
Proof.
  intros HD Hr Hl.
  destruct l as [ | [ | | ]]; cbn [located] in Hl;
    cbn [shr_record_of_loc shr_r shr_s orb].
  - subst r. reflexivity.
  - symmetry. apply negb_true_iff, Z.eqb_neq. lia.
  - symmetry. apply negb_true_iff, Z.eqb_neq. lia.
  - symmetry. apply negb_true_iff, Z.eqb_neq. lia.
Qed.

(** A right shift by [n] of the quotient [M + r / D], followed by the
    rounding of what was shifted out, yields the nearest integer to
    [(M + r / D) / 2 ^ n], ties to even. *)
Lemma round_shift_quotient (M E n r D : Z) (l : location) :
  0 <= M -> 0 <= n -> 0 < D -> 0 <= r < D -> located l r D ->
  let '(mrs, e') := shr (shr_record_of_loc M l) E n in
  e' = E + n
  /\ nearest_even (2 * (M * D + r)) (D * 2 ^ n)
       (round_nearest_even (shr_m mrs) (loc_of_shr_record mrs)).
Proof.
  intros HM Hn HD Hr Hl. destruct n as [ | p | p]; [ | | lia].
  - cbn [shr]. split; [lia | ]. rewrite Z.pow_0_r, Z.mul_1_r.
    unfold nearest_even.
    destruct l as [ | [ | | ]]; cbn [located] in Hl;
      cbn [shr_record_of_loc loc_of_shr_record shr_m round_nearest_even].
    + subst r. repeat split; try nia; intros; exfalso; nia.
    + destruct (Z.even M) eqn:Hev.
      * repeat split; auto; try nia; intros; exfalso; nia.
      * assert (Z.even (M + 1) = true) by (rewrite Z.even_add, Hev; reflexivity).
        repeat split; auto; try nia; intros; exfalso; nia.
    + repeat split; try nia; intros; exfalso; nia.
    + repeat split; try nia; intros; exfalso; nia.
  - cbn [shr]. rewrite iter_pos_nat.
    destruct (Pos2Nat.is_succ p) as [n Hp]. rewrite Hp.
    pose proof (located_sticky l M r D HD Hr Hl) as Hst.
    destruct (shr_record_of_loc M l) as [M' r0 s0] eqn:Hrec.
    assert (HM' : M' = M).
    { rewrite <- (shr_m_of_loc M l), Hrec. reflexivity. }
    subst M'. cbn [shr_r shr_s] in Hst.
    rewrite (shr_n_sticky M r0 s0 n HM), Hst.
    assert (HZ : Zpos p = Z.of_nat (S n)) by (rewrite <- Hp; lia).
    rewrite <- HZ. split; [reflexivity | ].
    assert (Hn' : Z.of_nat n = Zpos p - 1) by lia.
    rewrite Hn'. set (h := 2 ^ (Zpos p - 1)).
    assert (Hh : 0 < h) by (apply Z.pow_pos_nonneg; lia).
    assert (H2h : 2 ^ Zpos p = 2 * h).
    { unfold h. rewrite <- Z.pow_succ_r by lia. f_equal. lia. }
    pose proof (mod_pow2_succ M (Zpos p - 1) ltac:(lia)) as Hmod.
    replace (Zpos p - 1 + 1) with (Zpos p) in Hmod by lia.
    fold h in Hmod. rewrite H2h in Hmod |- *.
    pose proof (Z.div_mod M (2 * h) ltac:(lia)) as Hdm.
    pose proof (Z.mod_pos_bound M h Hh) as Hlow.
    assert (Hq : 0 <= M / (2 * h)) by (apply Z.div_pos; lia).
    set (q := M / (2 * h)) in *. set (low := M mod h) in *.
    set (X := q * h * D).
    set (T := low * D + r).
    assert (HT : 0 <= T < h * D) by (unfold T; nia).
    assert (HA : 2 * (M * D + r)
                 = 4 * X + 2 * (h * D) * Z.b2z (Z.testbit M (Zpos p - 1)) + 2 * T).
    { unfold X, T. rewrite Hdm at 1. rewrite Hmod. ring. }
    rewrite HA.
    assert (Hsticky : negb (low =? 0) || negb (r =? 0) = negb (T =? 0)).
    { destruct (Z.eqb_spec low 0) as [Hl0 | Hl0];
        destruct (Z.eqb_spec r 0) as [Hr0 | Hr0]; cbn [negb orb];
        symmetry; try (apply negb_true_iff, Z.eqb_neq; unfold T; nia).
      apply negb_false_iff, Z.eqb_eq. unfold T. nia. }
    rewrite Hsticky.
    set (Y := h * D) in *.
    assert (HY : 0 < Y) by (unfold Y; nia).
    unfold nearest_even. cbn [shr_m loc_of_shr_record].
    destruct (Z.testbit M (Zpos p - 1)); cbn [Z.b2z];
      destruct (Z.eqb_spec T 0) as [Hz | Hnz];
      cbn [negb loc_of_shr_record round_nearest_even].
    + (* half way *)
      destruct (Z.even q) eqn:Hev.
      * replace ((2 * q - 1) * (D * (2 * h))) with (4 * X - 2 * Y)
          by (unfold X, Y; ring).
        replace ((2 * q + 1) * (D * (2 * h))) with (4 * X + 2 * Y)
          by (unfold X, Y; ring).
        repeat split; auto; lia.
      * replace ((2 * (q + 1) - 1) * (D * (2 * h))) with (4 * X + 2 * Y)
          by (unfold X, Y; ring).
        replace ((2 * (q + 1) + 1) * (D * (2 * h))) with (4 * X + 6 * Y)
          by (unfold X, Y; ring).
        assert (Z.even (q + 1) = true).
        { rewrite Z.even_add, Hev. reflexivity. }
        repeat split; auto; lia.
    + replace ((2 * (q + 1) - 1) * (D * (2 * h))) with (4 * X + 2 * Y)
        by (unfold X, Y; ring).
      replace ((2 * (q + 1) + 1) * (D * (2 * h))) with (4 * X + 6 * Y)
        by (unfold X, Y; ring).
      repeat split; try lia.
    + replace ((2 * q - 1) * (D * (2 * h))) with (4 * X - 2 * Y)
        by (unfold X, Y; ring).
      replace ((2 * q + 1) * (D * (2 * h))) with (4 * X + 2 * Y)
        by (unfold X, Y; ring).
      repeat split; try lia.
    + replace ((2 * q - 1) * (D * (2 * h))) with (4 * X - 2 * Y)
        by (unfold X, Y; ring).
      replace ((2 * q + 1) * (D * (2 * h))) with (4 * X + 2 * Y)
        by (unfold X, Y; ring).
      repeat split; try lia.
Qed.

(** The result of rounding the quotient [(p + r / D) * 2 ^ E], given at
    an exponent fine enough and of a magnitude that does not overflow: it
    is canonical, and its value is the nearest multiple of
    [2 ^ fexp32 g], ties to even. *)
Lemma round_key_quotient (p : positive) (E r D : Z) (l : location) :
  0 < D -> 0 <= r < D -> located l r D ->
  E <= fexp32 (Zpos (digits2_pos p) + E) ->
  Zpos (digits2_pos p) + E <= 127 ->
  good (binary_round_aux F32.prec F32.emax false (Zpos p) E l)
  /\ exists k,
       key (binary_round_aux F32.prec F32.emax false (Zpos p) E l)
       = k * 2 ^ (fexp32 (Zpos (digits2_pos p) + E) + 149)
       /\ nearest_even (2 * (Zpos p * D + r))
            (D * 2 ^ (fexp32 (Zpos (digits2_pos p) + E) - E)) k
       /\ 0 <= k <= 2 ^ (Zpos (digits2_pos p) + E
                         - fexp32 (Zpos (digits2_pos p) + E))
       /\ (-149 < fexp32 (Zpos (digits2_pos p) + E) -> 2 ^ 23 <= k).
Proof.
  intros HD Hr Hl Hfine Hmag.
  pose proof (digits2_pos_upper p) as Hup.
  pose proof (digits2_pos_lower p) as Hlow.
  set (d := Zpos (digits2_pos p)) in *.
  set (g := d + E) in *. set (e' := fexp32 g) in *.
  set (n := e' - E).
  assert (Hn : 0 <= n) by (unfold n; lia).
  assert (He'lo : -149 <= e') by (unfold e', fexp32; lia).
  assert (He'hi : e' <= 103) by (unfold e', fexp32; lia).
  unfold binary_round_aux.
  rewrite (shr_fexp_unfold (Zpos p) E).
  change (Zdigits2 (Zpos p)) with d. fold g. fold e'. fold n.
  pose proof (round_shift_quotient (Zpos p) E n r D l ltac:(lia) Hn HD Hr Hl)
    as Hs.
  destruct (shr (shr_record_of_loc (Zpos p) l) E n) as [mrs' e1].
  destruct Hs as [He1 Hne].
  replace e1 with e' by (unfold n in He1; lia).
  set (k := round_nearest_even (shr_m mrs') (loc_of_shr_record mrs')) in *.
  assert (Hpn : 0 < 2 ^ n) by (apply Z.pow_pos_nonneg; lia).
  assert (Hnear : (2 * k - 1) * 2 ^ n <= 2 * Zpos p + 1
                  /\ 2 * Zpos p <= (2 * k + 1) * 2 ^ n).
  { destruct Hne as ([Hlo Hhi] & _ & _). split.
    - assert ((2 * k - 1) * 2 ^ n * D < (2 * Zpos p + 2) * D) by nia.
      assert ((2 * k - 1) * 2 ^ n < 2 * Zpos p + 2)
        by (apply (Z.mul_lt_mono_pos_r D); assumption).
      lia.
    - assert (2 * Zpos p * D <= (2 * k + 1) * 2 ^ n * D) by nia.
      apply (Z.mul_le_mono_pos_r _ _ D); assumption. }
  destruct Hnear as [Hnlo Hnhi].
  (* bounds on k *)
  assert (Hk0 : 0 <= k) by nia.
  assert (Hkq : k <= 2 ^ (g - e')).
  { destruct (Z_lt_le_dec (g - e') 0) as [Hneg | Hpos].
    - rewrite Z.pow_neg_r by lia.
      assert (2 * 2 ^ d <= 2 ^ n).
      { rewrite <- Z.pow_succ_r by lia. apply Z.pow_le_mono_r; unfold n, g in *; lia. }
      nia.
    - assert (2 ^ d = 2 ^ (g - e') * 2 ^ n).
      { rewrite <- Z.pow_add_r by lia. f_equal. unfold n, g. lia. }
      assert (0 < 2 ^ (g - e')) by (apply Z.pow_pos_nonneg; lia).
      nia. }
  assert (Hk23 : -149 < e' -> 2 ^ 23 <= k).
  { intros Hnorm.
    assert (He' : e' = g - 24) by (unfold e', fexp32 in *; lia).
    assert (2 ^ d = 2 ^ 24 * 2 ^ n).
    { rewrite <- Z.pow_add_r by lia. f_equal. unfold n, g in *. lia. }
    change (2 ^ 24) with 16777216 in *. change (2 ^ 23) with 8388608. nia. }
  assert (Hk24 : k <= 2 ^ 24).
  { eapply Z.le_trans; [exact Hkq | ].
    destruct (Z_lt_le_dec (g - e') 0);
      [rewrite Z.pow_neg_r by lia; lia | apply Z.pow_le_mono_r; unfold e', fexp32; lia]. }
  assert (Hcases : k = 0 \/ (0 < k < 2 ^ 24) \/ k = 2 ^ 24) by lia.
  destruct Hcases as [Hz | [Hmid | Hcarry]].
  - (* the result is zero *)
    rewrite Hz in *.
    rewrite shr_fexp_none by (cbn [Zdigits2]; unfold fexp32; lia).
    cbn [shr_m]. split; [exact I | ].
    exists 0. split; [reflexivity | ].
    split; [exact Hne | ]. split; [lia | intros; lia].
  - (* no carry *)
    assert (Hd1 : Zdigits2 k <= 24) by (apply Zdigits2_le; lia).
    pose proof (Zdigits2_nonneg k) as Hd0.
    rewrite shr_fexp_none by (unfold fexp32; lia).
    cbn [shr_m].
    destruct k as [ | m | m] eqn:Hkm; try lia.
    change (F32.emax - F32.prec) with 104.
    destruct (Z.leb_spec e' 104) as [_ | Hbad]; [ | lia].
    split.
    + split; [lia | ].
      change (Zpos (digits2_pos m)) with (Zdigits2 (Zpos m)).
      destruct (Z.eq_dec e' (-149)) as [Hsub | Hnorm].
      * unfold fexp32. lia.
      * specialize (Hk23 ltac:(lia)).
        pose proof (Zdigits2_upper (Zpos m) ltac:(lia)) as Hup1.
        assert (23 < Zdigits2 (Zpos m)).
        { apply (Z.pow_lt_mono_r_iff 2); lia. }
        unfold fexp32. lia.
    + exists (Zpos m). split; [reflexivity | ].
      split; [exact Hne | ]. split; [lia | exact Hk23].
  - (* the mantissa rounds up to 2 ^ 24 *)
    assert (Hq : g - e' = 24).
    { destruct (Z_lt_le_dec (g - e') 24) as [Hlt | ]; [ | unfold e', fexp32 in *; lia].
      exfalso. rewrite Hcarry in Hkq.
      destruct (Z_lt_le_dec (g - e') 0);
        [rewrite (Z.pow_neg_r 2 (g - e')) in Hkq by lia; lia | ].
      assert (2 ^ (g - e') < 2 ^ 24) by (apply Z.pow_lt_mono_r; lia). lia. }
    rewrite Hcarry. change (2 ^ 24) with 16777216.
    rewrite shr_fexp_unfold.
    change (Zdigits2 16777216) with 25.
    assert (Hone : fexp32 (25 + e') - e' = 1) by (unfold fexp32; lia).
    rewrite Hone. cbn [shr shr_record_of_loc iter_pos shr_1 shr_m].
    change (F32.emax - F32.prec) with 104.
    destruct (Z.leb_spec (e' + 1) 104) as [_ | Hbad]; [ | lia].
    split.
    + split; [lia | ]. change (Zpos (digits2_pos 8388608)) with 24.
      unfold fexp32. lia.
    + exists k. split; [ | split; [exact Hne | split; [lia | exact Hk23]]].
      rewrite Hcarry. cbn [key].
      replace (e' + 1 + 149) with (Z.succ (e' + 149)) by lia.
      rewrite Z.pow_succ_r by lia. change (2 ^ 24) with 16777216. lia.
Qed.

Lemma magnitude_mono_quotient (p1 p2 : positive) (E1 E2 B r1 r2 D : Z) :
  0 < D -> 0 <= r1 < D -> 0 <= r2 < D -> B <= E1 -> B <= E2 ->
  (Zpos p1 * D + r1) * 2 ^ (E1 - B) <= (Zpos p2 * D + r2) * 2 ^ (E2 - B) ->
  Zpos (digits2_pos p1) + E1 <= Zpos (digits2_pos p2) + E2.
Proof.
  intros HD Hr1 Hr2 HB1 HB2 Hle.
  pose proof (digits2_pos_lower p1) as Hlow. pose proof (digits2_pos_upper p2) as Hup.
  set (d1 := Zpos (digits2_pos p1)) in *. set (d2 := Zpos (digits2_pos p2)) in *.
  assert (Hd1 : 0 < d1) by (unfold d1; lia).
  assert (Hd2 : 0 < d2) by (unfold d2; lia).
  assert (Ha : 0 < 2 ^ (E1 - B)) by (apply Z.pow_pos_nonneg; lia).
  assert (Hb : 0 < 2 ^ (E2 - B)) by (apply Z.pow_pos_nonneg; lia).
  assert (Hmid : Zpos p1 * 2 ^ (E1 - B) < 2 ^ d2 * 2 ^ (E2 - B)).
  { set (a := 2 ^ (E1 - B)) in *. set (b := 2 ^ (E2 - B)) in *.
    assert (S1 : 0 <= r1 * a) by (apply Z.mul_nonneg_nonneg; lia).
    assert (S2 : r2 * b < D * b) by (apply Z.mul_lt_mono_pos_r; lia).
    assert (S3 : (Zpos p2 + 1) * (D * b) <= 2 ^ d2 * (D * b)).
    { apply Z.mul_le_mono_nonneg_r; [ | lia].
      apply Z.mul_nonneg_nonneg; lia. }
    assert (Zpos p1 * a * D < 2 ^ d2 * b * D).
    { replace (Zpos p1 * a * D) with ((Zpos p1 * D + r1) * a - r1 * a) by ring.
      replace (2 ^ d2 * b * D) with (2 ^ d2 * (D * b)) by ring.
      replace ((Zpos p2 + 1) * (D * b))
        with ((Zpos p2 * D + r2) * b + (D * b - r2 * b)) in S3 by ring.
      lia. }
    apply (Z.mul_lt_mono_pos_r D); assumption. }
  assert (Hchain : 2 ^ (d1 + (E1 - B)) < 2 * 2 ^ (d2 + (E2 - B))).
  { rewrite !Z.pow_add_r by lia. nia. }
  rewrite <- Z.pow_succ_r in Hchain by lia.
  apply (Z.pow_lt_mono_r_iff 2) in Hchain; [lia | lia | lia].
Qed.

(** Two quotients by the same divisor, in order: their rounded results
    are in the same order. *)
Lemma round_quotient_mono (p1 p2 : positive) (E1 E2 B r1 r2 D : Z)
    (l1 l2 : location) :
  0 < D -> 0 <= r1 < D -> 0 <= r2 < D ->
  located l1 r1 D -> located l2 r2 D ->
  B <= E1 -> B <= E2 ->
  E1 <= fexp32 (Zpos (digits2_pos p1) + E1) ->
  E2 <= fexp32 (Zpos (digits2_pos p2) + E2) ->
  Zpos (digits2_pos p2) + E2 <= 127 ->
  (Zpos p1 * D + r1) * 2 ^ (E1 - B) <= (Zpos p2 * D + r2) * 2 ^ (E2 - B) ->
  key (binary_round_aux F32.prec F32.emax false (Zpos p1) E1 l1)
  <= key (binary_round_aux F32.prec F32.emax false (Zpos p2) E2 l2).
Proof.
  intros HD Hr1 Hr2 Hl1 Hl2 HB1 HB2 Hf1 Hf2 Hm2 Hle.
  pose proof (magnitude_mono_quotient p1 p2 E1 E2 B r1 r2 D HD Hr1 Hr2 HB1 HB2 Hle)
    as Hg.
  destruct (round_key_quotient p1 E1 r1 D l1 HD Hr1 Hl1 Hf1 ltac:(lia))
    as (_ & k1 & Hk1 & Hn1 & Hb1 & _).
  destruct (round_key_quotient p2 E2 r2 D l2 HD Hr2 Hl2 Hf2 Hm2)
    as (_ & k2 & Hk2 & Hn2 & Hb2 & Hnorm2).
  rewrite Hk1, Hk2.
  set (g1 := Zpos (digits2_pos p1) + E1) in *.
  set (g2 := Zpos (digits2_pos p2) + E2) in *.
  pose proof (fexp32_mono g1 g2 Hg) as He.
  assert (Hlo1 : -149 <= fexp32 g1) by (unfold fexp32; lia).
  destruct (Z.eq_dec (fexp32 g1) (fexp32 g2)) as [Heq | Hne].
  - rewrite <- Heq in *. set (e' := fexp32 g1) in *.
    assert (Hk : k1 <= k2).
    { apply (nearest_even_scale _ _ _ (2 ^ (E1 - B))) in Hn1;
        [ | apply Z.pow_pos_nonneg; lia].
      apply (nearest_even_scale _ _ _ (2 ^ (E2 - B))) in Hn2;
        [ | apply Z.pow_pos_nonneg; lia].
      rewrite <- !Z.mul_assoc, <- !Z.pow_add_r in Hn1, Hn2 by lia.
      replace (e' - E1 + (E1 - B)) with (e' - B) in Hn1 by lia.
      replace (e' - E2 + (E2 - B)) with (e' - B) in Hn2 by lia.
      assert (HH : 0 < D * 2 ^ (e' - B)).
      { apply Z.mul_pos_pos; [lia | apply Z.pow_pos_nonneg; lia]. }
      apply (nearest_even_mono _ _ _ _ _ HH Hn1 Hn2).
      rewrite !Z.mul_assoc. rewrite <- !(Z.mul_assoc 2). lia. }
    assert (0 < 2 ^ (e' + 149)) by (apply Z.pow_pos_nonneg; lia). nia.
  - assert (Hnorm : 2 ^ 23 <= k2) by (apply Hnorm2; lia).
    assert (He2 : fexp32 g2 = g2 - 24) by (unfold fexp32 in *; lia).
    assert (Hg12 : g1 + 1 <= g2) by (unfold fexp32 in *; lia).
    assert (Hup1 : k1 * 2 ^ (fexp32 g1 + 149) <= 2 ^ (g1 + 149)).
    { destruct (Z_lt_le_dec (g1 - fexp32 g1) 0) as [Hneg | Hpos].
      - rewrite (Z.pow_neg_r 2 (g1 - fexp32 g1)) in Hb1 by lia.
        replace k1 with 0 by lia. rewrite Z.mul_0_l. apply Z.pow_nonneg. lia.
      - replace (g1 + 149) with ((g1 - fexp32 g1) + (fexp32 g1 + 149)) by lia.
        rewrite (Z.pow_add_r 2 (g1 - fexp32 g1)) by lia.
        apply Z.mul_le_mono_nonneg_r; [apply Z.pow_nonneg; lia | lia]. }
    assert (Hlow2 : 2 ^ (g2 + 148) <= k2 * 2 ^ (fexp32 g2 + 149)).
    { rewrite He2. replace (g2 + 148) with (23 + (g2 - 24 + 149)) by lia.
      rewrite (Z.pow_add_r 2 23) by lia.
      apply Z.mul_le_mono_nonneg_r; [apply Z.pow_nonneg; lia | lia]. }
    assert (2 ^ (g1 + 149) <= 2 ^ (g2 + 148)) by (apply Z.pow_le_mono_r; lia).
    lia.
Qed.

Lemma new_location_located (D r : Z) :
  0 < D -> 0 <= r < D -> located (new_location D r) r D.
Proof.
  intros HD Hr. unfold new_location.
  destruct (Z.even D) eqn:Hev.
  - unfold new_location_even.
    destruct (Z.eqb_spec r 0) as [Hz | Hnz]; [exact Hz | ].
    cbn [located].
    destruct (Z.compare_spec (2 * r) D) as [He | Hl | Hg]; lia.
  - unfold new_location_odd.
    destruct (Z.eqb_spec r 0) as [Hz | Hnz]; [exact Hz | ].
    assert (Hodd : Z.odd D = true) by (rewrite <- Z.negb_even, Hev; reflexivity).
    apply Z.odd_spec in Hodd. destruct Hodd as [k Hk].
    destruct (Z.compare_spec (2 * r + 1) D) as [He | Hl | Hg];
      cbn [located]; lia.
Qed.

Lemma pow2_shift_le (a b u v c : Z) :
  0 <= a -> 0 <= b -> 0 <= u -> 0 <= v -> 0 <= u + c -> 0 <= v + c ->
  a * 2 ^ u <= b * 2 ^ v -> a * 2 ^ (u + c) <= b * 2 ^ (v + c).
Proof.
  intros Ha Hb Hu Hv Huc Hvc Hle.
  destruct (Z_le_gt_dec 0 c) as [Hc | Hc].
  - rewrite !Z.pow_add_r by lia.
    assert (0 < 2 ^ c) by (apply Z.pow_pos_nonneg; lia). nia.
  - assert (Eu : 2 ^ u = 2 ^ (u + c) * 2 ^ (- c))
      by (rewrite <- Z.pow_add_r by lia; f_equal; lia).
    assert (Ev : 2 ^ v = 2 ^ (v + c) * 2 ^ (- c))
      by (rewrite <- Z.pow_add_r by lia; f_equal; lia).
    assert (0 < 2 ^ (- c)) by (apply Z.pow_pos_nonneg; lia).
    rewrite Eu, Ev in Hle. nia.
Qed.

(** ** Division in binary32 *)

(** The quotient of two positive numbers, not too small: [SFdiv] rounds
    the integer quotient [q] and the located remainder [r] of
    [mx * 2 ^ s] by [my]. *)
Lemma div_quotient (mx my : positive) (ex ey : Z) :
  -125 <= Zpos (digits2_pos mx) + ex - (Zpos (digits2_pos my) + ey) ->
  exists (q : positive) (r E : Z) (l : location),
    F32.div (S754_finite false mx ex) (S754_finite false my ey)
    = binary_round_aux F32.prec F32.emax false (Zpos q) E l
    /\ 0 <= r < Zpos my
    /\ located l r (Zpos my)
    /\ E <= ex - ey
    /\ Zpos q * Zpos my + r = Zpos mx * 2 ^ (ex - ey - E)
    /\ E <= fexp32 (Zpos (digits2_pos q) + E)
    /\ Zpos (digits2_pos q) + E
       <= Zpos (digits2_pos mx) + ex - (Zpos (digits2_pos my) + ey) + 1.
Proof.
  intros Hx.
  pose proof (digits2_pos_lower mx) as Hl1. pose proof (digits2_pos_upper mx) as Hu1.
  pose proof (digits2_pos_lower my) as Hl2. pose proof (digits2_pos_upper my) as Hu2.
  set (d1 := Zpos (digits2_pos mx)) in *. set (d2 := Zpos (digits2_pos my)) in *.
  assert (Hd1 : 0 < d1) by (unfold d1; lia).
  assert (Hd2 : 0 < d2) by (unfold d2; lia).
  unfold F32.div, SFdiv, SFdiv_core_binary. cbn [xorb Zdigits2].
  rewrite fexp_32. fold d1 d2. cbv zeta.
  set (x := d1 + ex - (d2 + ey)) in *.
  assert (Hfx : fexp32 x = x - 24) by (unfold fexp32; lia).
  rewrite Hfx.
  set (e' := Z.min (x - 24) (ex - ey)).
  set (s := ex - ey - e').
  assert (Hs : 0 <= s /\ 24 - d1 + d2 <= s) by (unfold s, e', x; lia).
  set (m' := match s with
             | 0 => Zpos mx
             | Zpos _ => Z.shiftl (Zpos mx) s
             | Zneg _ => 0
             end).
  assert (Hm' : m' = Zpos mx * 2 ^ s).
  { unfold m'. destruct s as [ | ps | ps] eqn:Hsv; [ | | lia].
    - rewrite Z.pow_0_r. lia.
    - apply Z.shiftl_mul_pow2. lia. }
  clearbody m'.
  pose proof (Z_div_mod m' (Zpos my) ltac:(lia)) as Hdm.
  destruct (Z.div_eucl m' (Zpos my)) as [q r].
  destruct Hdm as [Hdm Hr].
  (* the quotient has at least 24 bits *)
  assert (Hps : 0 < 2 ^ s) by (apply Z.pow_pos_nonneg; lia).
  assert (Hbig : 2 ^ (d2 + 23) <= m').
  { rewrite Hm'.
    assert (2 ^ (d2 + 23) <= 2 ^ (d1 - 1 + s)) by (apply Z.pow_le_mono_r; lia).
    assert (2 * 2 ^ (d1 - 1 + s) = 2 ^ d1 * 2 ^ s).
    { rewrite <- Z.pow_succ_r, <- Z.pow_add_r by lia. f_equal. lia. }
    nia. }
  assert (Hq23 : 2 ^ 23 <= q).
  { rewrite Z.pow_add_r in Hbig by lia.
    change (2 ^ 23) with 8388608 in *.
    destruct (Z_le_gt_dec 8388608 q); [assumption | exfalso].
    assert (q + 1 <= 8388608) by lia.
    assert (Zpos my * (q + 1) <= Zpos my * 8388608)
      by (apply Z.mul_le_mono_nonneg_l; lia).
    nia. }
  destruct q as [ | q | q]; try (change (2 ^ 23) with 8388608 in Hq23; lia).
  exists q, r, e', (new_location (Zpos my) r).
  split; [reflexivity | ].
  split; [lia | ].
  split; [apply new_location_located; lia | ].
  split; [unfold e'; lia | ].
  split; [fold s; lia | ].
  pose proof (digits2_pos_lower q) as Hlq. pose proof (digits2_pos_upper q) as Huq.
  set (dq := Zpos (digits2_pos q)) in *.
  assert (Hdq0 : 0 < dq) by (unfold dq; lia).
  (* the number of bits of the quotient *)
  assert (Hdq_lo : d1 + s - d2 <= dq).
  { assert (Hc : 2 ^ (d1 - 1 + s) < 2 ^ (dq + d2)).
    { assert (2 * 2 ^ (d1 - 1 + s) = 2 ^ d1 * 2 ^ s).
      { rewrite <- Z.pow_succ_r, <- Z.pow_add_r by lia. f_equal. lia. }
      rewrite (Z.pow_add_r 2 dq d2) by lia.
      assert (Zpos my * (Zpos q + 1) <= 2 ^ dq * 2 ^ d2).
      { transitivity (2 ^ d2 * 2 ^ dq); [ | lia].
        apply Z.mul_le_mono_nonneg; lia. }
      nia. }
    apply (Z.pow_lt_mono_r_iff 2) in Hc; lia. }
  assert (Hdq_hi : dq <= d1 + s - d2 + 1).
  { assert (Hc : 2 ^ (dq + d2) < 2 ^ (d1 + s + 2)).
    { rewrite (Z.pow_add_r 2 dq d2), (Z.pow_add_r 2 (d1 + s) 2),
        (Z.pow_add_r 2 d1 s) by lia.
      change (2 ^ 2) with 4.
      assert (2 ^ dq * 2 ^ d2 <= (2 * Zpos q) * (2 * Zpos my))
        by (apply Z.mul_le_mono_nonneg; lia).
      nia. }
    apply (Z.pow_lt_mono_r_iff 2) in Hc; lia. }
  split.
  - transitivity (fexp32 x); [unfold e'; lia | ].
    apply fexp32_mono. unfold s, x in *. lia.
  - unfold s, x in *. lia.
Qed.

Lemma key_magnitude (m : positive) (e : Z) :
  -149 <= e ->
  (2 ^ 149 <= key (S754_finite false m e) -> 1 <= Zpos (digits2_pos m) + e)
  /\ (key (S754_finite false m e) < 2 ^ 200 -> Zpos (digits2_pos m) + e <= 51).
Proof.
  intros He. cbn [key].
  pose proof (digits2_pos_lower m) as Hl. pose proof (digits2_pos_upper m) as Hu.
  set (d := Zpos (digits2_pos m)) in *.
  assert (Hd : 0 < d) by (unfold d; lia).
  assert (Hp : 0 < 2 ^ (e + 149)) by (apply Z.pow_pos_nonneg; lia).
  split; intros Hk.
  - assert (Hc : 2 ^ 149 < 2 ^ (d + (e + 149))).
    { rewrite Z.pow_add_r by lia. nia. }
    apply (Z.pow_lt_mono_r_iff 2) in Hc; lia.
  - assert (Hc : 2 ^ (d + (e + 149)) < 2 ^ 201).
    { rewrite Z.pow_add_r by lia. change (2 ^ 201) with (2 * 2 ^ 200). nia. }
    apply (Z.pow_lt_mono_r_iff 2) in Hc; lia.
Qed.

Lemma divisor_spec (y : float) :
  divisor y = true ->
  exists my ey,
    y = S754_finite false my ey /\ good y
    /\ -60 <= Zpos (digits2_pos my) + ey <= 100.
Proof.
  destruct y as [s | s | | [ | ] my ey]; cbn [divisor]; try discriminate.
  intros H. apply andb_prop in H. destruct H as [H H3].
  apply andb_prop in H. destruct H as [H1 H2].
  exists my, ey. split; [reflexivity | ].
  split; [apply goodb_good; exact H1 | ].
  apply Z.leb_le in H2, H3. lia.
Qed.

Lemma whole_cases (x : float) :
  whole x ->
  (exists s, x = S754_zero s)
  \/ exists m e, x = S754_finite false m e /\ 2 ^ 149 <= key x.
Proof.
  intros [Hg Hk].
  destruct x as [s | s | | [ | ] m e]; cbn [good] in Hg; try contradiction.
  - left. exists s. reflexivity.
  - right. exists m, e. split; [reflexivity | ].
    destruct Hk as [Hz | Hk]; [ | exact Hk].
    pose proof (key_positive m e ltac:(lia)). lia.
Qed.

(** The quotient of a number that is at least 1 and below [2 ^ 51] by a
    divisor, as a rounded quotient. *)
Lemma div_whole (mx my : positive) (ex ey : Z) :
  good (S754_finite false mx ex) ->
  2 ^ 149 <= key (S754_finite false mx ex) ->
  key (S754_finite false mx ex) < 2 ^ 200 ->
  divisor (S754_finite false my ey) = true ->
  exists (q : positive) (r E : Z) (l : location),
    F32.div (S754_finite false mx ex) (S754_finite false my ey)
    = binary_round_aux F32.prec F32.emax false (Zpos q) E l
    /\ 0 <= r < Zpos my
    /\ located l r (Zpos my)
    /\ E <= ex - ey
    /\ Zpos q * Zpos my + r = Zpos mx * 2 ^ (ex - ey - E)
    /\ E <= fexp32 (Zpos (digits2_pos q) + E)
    /\ Zpos (digits2_pos q) + E <= 127.
Proof.
  intros Hg Hlo Hhi Hy.
  destruct (divisor_spec _ Hy) as (my' & ey' & Heq & Hgy & Hmy).
  injection Heq as <- <-.
  destruct (key_magnitude mx ex ltac:(destruct Hg; lia)) as [H1 H2].
  specialize (H1 Hlo). specialize (H2 Hhi).
  destruct (div_quotient mx my ex ey ltac:(lia))
    as (q & r & E & l & Hd & Hr & Hl & HE & Hv & Hf & Hm).
  exists q, r, E, l. repeat split; try assumption; lia.
Qed.

Lemma div_good (x y : float) :
  whole x -> key x < 2 ^ 200 -> divisor y = true -> good (F32.div x y).
Proof.
  intros Hw Hk Hy.
  destruct (divisor_spec _ Hy) as (my & ey & -> & Hgy & Hmy).
  destruct (whole_cases x Hw) as [[s ->] | (mx & ex & -> & Hlo)].
  - exact I.
  - destruct (div_whole mx my ex ey (proj1 Hw) Hlo Hk Hy)
      as (q & r & E & l & Hd & Hr & Hl & HE & Hv & Hf & Hm).
    rewrite Hd.
    apply (round_key_quotient q E r (Zpos my) l); try assumption; lia.
Qed.

(** Division by a positive constant is monotone. *)
Lemma div_mono (x1 x2 y : float) :
  whole x1 -> whole x2 -> divisor y = true ->
  key x1 <= key x2 -> key x2 < 2 ^ 200 ->
  key (F32.div x1 y) <= key (F32.div x2 y).
Proof.
  intros Hw1 Hw2 Hy Hle Hk2.
  destruct (divisor_spec _ Hy) as (my & ey & -> & Hgy & Hmy).
  destruct (whole_cases x1 Hw1) as [[s1 ->] | (m1 & e1 & -> & Hlo1)].
  - apply key_nonneg.
  - destruct (whole_cases x2 Hw2) as [[s2 ->] | (m2 & e2 & -> & Hlo2)].
    + change (key (S754_zero s2)) with 0 in Hle. lia.
    + destruct (div_whole m1 my e1 ey (proj1 Hw1) Hlo1 ltac:(lia) Hy)
        as (q1 & r1 & E1 & l1 & Hd1 & Hr1 & Hl1 & HE1 & Hv1 & Hf1 & Hm1).
      destruct (div_whole m2 my e2 ey (proj1 Hw2) Hlo2 Hk2 Hy)
        as (q2 & r2 & E2 & l2 & Hd2 & Hr2 & Hl2 & HE2 & Hv2 & Hf2 & Hm2).
      rewrite Hd1, Hd2.
      set (B := Z.min (Z.min E1 E2) (- ey - 149)).
      apply (round_quotient_mono q1 q2 E1 E2 B r1 r2 (Zpos my) l1 l2);
        try assumption; try lia; try (unfold B; lia).
      rewrite Hv1, Hv2.
      rewrite <- !Z.mul_assoc, <- !Z.pow_add_r by (unfold B; lia).
      cbn [key] in Hle.
      destruct Hw1 as [[He1 _] _]. destruct Hw2 as [[He2 _] _].
      replace (e1 - ey - E1 + (E1 - B)) with ((e1 + 149) + (- ey - B - 149)) by lia.
      replace (e2 - ey - E2 + (E2 - B)) with ((e2 + 149) + (- ey - B - 149)) by lia.
      apply pow2_shift_le; try lia; unfold B; lia.
Qed.

Lemma between_div (xl x xh y : float) :
  between xl x xh -> 2 ^ 149 <= key xl -> divisor y = true ->
  tameb (F32.div xh y) = true ->
  between (F32.div xl y) (F32.div x y) (F32.div xh y).
Proof.
  intros (Hgl & Hgx & [Hlo Hhi] & Hgh & Hkh) Hone Hy Ht.
  assert (Wl : whole xl) by (split; [assumption | right; lia]).
  assert (Wx : whole x) by (split; [assumption | right; lia]).
  assert (Wh : whole xh) by (split; [assumption | right; lia]).
  unfold between. repeat split.
  - apply div_good; try assumption; lia.
  - apply div_good; try assumption; lia.
  - apply div_mono; try assumption; lia.
  - apply div_mono; try assumption; lia.
  - apply tameb_tame; exact Ht.
  - apply tameb_tame; exact Ht.
Qed.

(** *** Integers *)

Lemma of_int_rounds (n : Z) :
  0 <= n -> rounds (-149) (F32.of_int n) (n * 2 ^ 149).
Proof.
  intros Hn. unfold F32.of_int.
  destruct n as [ | p | p]; [ | | lia].
  - left. split; [exists false; reflexivity | reflexivity].
  - right. exists p, 0. split; [reflexivity | ]. split; [lia | reflexivity].
Qed.

Lemma between_of_int (nl n nh : Z) :
  0 <= nl <= n -> n <= nh -> nh < 2 ^ 50 ->
  between (F32.of_int nl) (F32.of_int n) (F32.of_int nh)
  /\ (1 <= nl -> 2 ^ 149 <= key (F32.of_int nl)).
Proof.
  intros Hl Hh Hb.
  pose proof (of_int_rounds nl ltac:(lia)) as Rl.
  pose proof (of_int_rounds n ltac:(lia)) as Rn.
  pose proof (of_int_rounds nh ltac:(lia)) as Rh.
  pose proof (of_int_rounds 1 ltac:(lia)) as R1.
  pose proof (of_int_rounds (2 ^ 50) ltac:(lia)) as Rt.
  assert (Hp : 0 < 2 ^ 149) by (apply Z.pow_pos_nonneg; lia).
  assert (Hbig : 2 ^ 50 * 2 ^ 149 < 2 ^ (127 - -149)).
  { rewrite <- Z.pow_add_r by lia. apply Z.pow_lt_mono_r; lia. }
  assert (Hlim : nh * 2 ^ 149 < 2 ^ (127 - -149)) by nia.
  split; [unfold between; repeat split | ].
  - eapply rounds_good; [exact Rl | nia].
  - eapply rounds_good; [exact Rn | nia].
  - eapply rounds_mono; [exact Rl | exact Rn | nia | nia].
  - eapply rounds_mono; [exact Rn | exact Rh | nia | nia].
  - eapply rounds_good; [exact Rh | nia].
  - assert (Hk : key (F32.of_int nh) <= key (F32.of_int (2 ^ 50))).
    { eapply rounds_mono; [exact Rh | exact Rt | nia | nia]. }
    assert (Hv : key (F32.of_int (2 ^ 50)) < 2 ^ 200)
      by (apply Z.ltb_lt; vm_compute; reflexivity).
    lia.
  - intros H1.
    assert (Hk : key (F32.of_int 1) <= key (F32.of_int nl)).
    { eapply rounds_mono; [exact R1 | exact Rl | nia | nia]. }
    assert (Hv : key (F32.of_int 1) = 2 ^ 149) by reflexivity.
    lia.
Qed.

(** ** From millivolts to degrees *)

(** [(float) n / y * k] grows with the integer [n]. *)
Lemma scaled_between (nl n nh : Z) (y k : float) :
  1 <= nl <= n -> n <= nh -> nh < 2 ^ 50 ->
  divisor y = true -> normal k = true ->
  tameb (F32.div (F32.of_int nh) y) = true ->
  tameb (F32.mul (F32.div (F32.of_int nh) y) k) = true ->
  between (F32.mul (F32.div (F32.of_int nl) y) k)
          (F32.mul (F32.div (F32.of_int n) y) k)
          (F32.mul (F32.div (F32.of_int nh) y) k).
Proof.
  intros Hl Hh Hb Hy Hk Ht1 Ht2.
  destruct (between_of_int nl n nh ltac:(lia) Hh Hb) as [Hbt Hone].
  apply between_mul; [ | exact Hk | exact Ht2].
  apply between_div; [exact Hbt | apply Hone; lia | exact Hy | exact Ht1].
Qed.

Lemma millivolts_between (nl n nh : Z) :
  1 <= nl <= n -> n <= nh -> nh < 2 ^ 31 ->
  tameb (F32.div (F32.of_int nh) (F32.lit 3300 1)) = true ->
  tameb (F32.mul (F32.div (F32.of_int nh) (F32.lit 3300 1)) (F32.lit 100 1))
  = true ->
  between (Thermostat.temperature nl) (Thermostat.temperature n)
          (Thermostat.temperature nh).
Proof.
  intros Hl Hh Hb Ht1 Ht2.
  apply scaled_between; try assumption; try reflexivity.
  assert (2 ^ 31 < 2 ^ 50) by (apply Z.pow_lt_mono_r; lia). lia.
Qed.

(** The temperature computed from [voltage_mv] millivolts lies on the
    same side of a threshold as [voltage_mv] lies of [cut], when the
    temperatures at [cut - 1] and at [cut] lie on either side. *)
Lemma threshold_below (limit : float) (cut mv : Z) :
  1 < cut < 2 ^ 31 -> 0 <= mv < 2 ^ 31 -> good limit ->
  F32.ltb (Thermostat.temperature 0) limit = true ->
  F32.ltb (Thermostat.temperature (cut - 1)) limit = true ->
  F32.ltb (Thermostat.temperature cut) limit = false ->
  tameb (F32.div (F32.of_int (cut - 1)) (F32.lit 3300 1)) = true ->
  tameb (Thermostat.temperature (cut - 1)) = true ->
  F32.ltb (Thermostat.temperature mv) limit = (mv <? cut).
Proof.
  intros Hcut Hmv Hg H0 Hlo Hhi Ht1 Ht2.
  assert (Hend1 : tameb (F32.div (F32.of_int (2 ^ 31 - 1)) (F32.lit 3300 1))
                  = true) by (vm_compute; reflexivity).
  assert (Hend2 : tameb (Thermostat.temperature (2 ^ 31 - 1)) = true)
    by (vm_compute; reflexivity).
  destruct (Z.ltb_spec mv cut) as [Hlt | Hge].
  - destruct (Z.eq_dec mv 0) as [-> | Hnz]; [exact H0 | ].
    destruct (millivolts_between 1 mv (cut - 1) ltac:(lia) ltac:(lia) ltac:(lia)
                Ht1 Ht2) as (_ & Hgx & [_ Hle] & Hgh & _).
    rewrite (ltb_key _ _ Hgh Hg) in Hlo. apply Z.ltb_lt in Hlo.
    rewrite (ltb_key _ _ Hgx Hg). apply Z.ltb_lt. lia.
  - destruct (millivolts_between cut mv (2 ^ 31 - 1) ltac:(lia) ltac:(lia)
                ltac:(lia) Hend1 Hend2) as (Hgl & Hgx & [Hle _] & _).
    rewrite (ltb_key _ _ Hgl Hg) in Hhi. apply Z.ltb_ge in Hhi.
    rewrite (ltb_key _ _ Hgx Hg). apply Z.ltb_ge. lia.
Qed.

Lemma threshold_above (limit : float) (cut mv : Z) :
  1 <= cut -> cut + 1 < 2 ^ 31 -> 0 <= mv < 2 ^ 31 -> good limit ->
  F32.ltb limit (Thermostat.temperature 0) = false ->
  F32.ltb limit (Thermostat.temperature cut) = false ->
  F32.ltb limit (Thermostat.temperature (cut + 1)) = true ->
  tameb (F32.div (F32.of_int cut) (F32.lit 3300 1)) = true ->
  tameb (Thermostat.temperature cut) = true ->
  F32.ltb limit (Thermostat.temperature mv) = (cut <? mv).
Proof.
  intros Hc1 Hcut Hmv Hg H0 Hlo Hhi Ht1 Ht2.
  assert (Hend1 : tameb (F32.div (F32.of_int (2 ^ 31 - 1)) (F32.lit 3300 1))
                  = true) by (vm_compute; reflexivity).
  assert (Hend2 : tameb (Thermostat.temperature (2 ^ 31 - 1)) = true)
    by (vm_compute; reflexivity).
  destruct (Z.ltb_spec cut mv) as [Hlt | Hge].
  - destruct (millivolts_between (cut + 1) mv (2 ^ 31 - 1) ltac:(lia) ltac:(lia)
                ltac:(lia) Hend1 Hend2) as (Hgl & Hgx & [Hle _] & _).
    rewrite (ltb_key _ _ Hg Hgl) in Hhi. apply Z.ltb_lt in Hhi.
    rewrite (ltb_key _ _ Hg Hgx). apply Z.ltb_lt. lia.
  - destruct (Z.eq_dec mv 0) as [-> | Hnz]; [exact H0 | ].
    destruct (millivolts_between 1 mv cut ltac:(lia) ltac:(lia) ltac:(lia)
                Ht1 Ht2) as (_ & Hgx & [_ Hle] & Hgh & _).
    rewrite (ltb_key _ _ Hg Hgh) in Hlo. apply Z.ltb_ge in Hlo.
    rewrite (ltb_key _ _ Hg Hgx). apply Z.ltb_ge. lia.
Qed.

(** The thermostat of [controller/main/controller.c]: for every voltage
    from 0 mV up, it writes 1 to the heater pin exactly when the voltage
    is below 1650 mV (the 50 degrees of its comparison, in binary32
    arithmetic); without calibration, exactly when the raw 12-bit reading
    is below 2703. *)
Theorem thermostat_threshold (calibrated : bool) (adc_raw cali_mv : Z) :
  0 <= adc_raw <= 4095 -> 0 <= cali_mv < 2 ^ 31 ->
  Thermostat.app_main calibrated adc_raw cali_mv
  = (Thermostat.expected_level calibrated adc_raw cali_mv,
     [Wamr.gpio_set_level Thermostat.PIN_HEATER_OUT
        (Thermostat.expected_level calibrated adc_raw cali_mv)]).
Proof.
  intros Hraw Hmv.
  assert (Hcut : forall mv, 0 <= mv < 2 ^ 31 ->
            Thermostat.heater_cmd (Thermostat.temperature mv)
            = if mv <? 1650 then 1 else 0).
  { intros mv Hr. unfold Thermostat.heater_cmd.
    change (f_lt (Thermostat.temperature mv) (f_lit 50 1))
      with (F32.ltb (Thermostat.temperature mv) (F32.lit 50 1)).
    rewrite (threshold_below (F32.lit 50 1) 1650 mv
               ltac:(change (2 ^ 31) with 2147483648; lia) Hr
               ltac:(apply goodb_good; reflexivity)
               eq_refl eq_refl eq_refl eq_refl eq_refl).
    reflexivity. }
  unfold Thermostat.app_main, Thermostat.expected_level, Wamr.call. cbv zeta.
  destruct calibrated; cbn [Thermostat.voltage].
  - rewrite (Hcut cali_mv Hmv). reflexivity.
  - rewrite Z.quot_div_nonneg by lia.
    assert (Hq : 0 <= adc_raw * 2500 / 4095 < 2 ^ 31).
    { change (2 ^ 31) with 2147483648.
      split; [apply Z.div_pos; lia | ].
      apply Z.div_lt_upper_bound; lia. }
    rewrite (Hcut _ Hq).
    replace (adc_raw * 2500 / 4095 <? 1650) with (adc_raw <? 2703);
      [reflexivity | ].
    destruct (Z.ltb_spec adc_raw 2703) as [Hl | Hg]; symmetry.
    + apply Z.ltb_lt. apply Z.div_lt_upper_bound; lia.
    + apply Z.ltb_ge. apply Z.div_le_lower_bound; lia.
Qed.

Lemma thermostat_threshold_witness :
  Thermostat.app_main false 2702 0
  = (1, [Wamr.gpio_set_level Thermostat.PIN_HEATER_OUT 1]).
Proof.
  apply (thermostat_threshold false 2702 0); [lia | ].
  change (2 ^ 31) with 2147483648. lia.
Defined.

Lemma reader_task_temperature (voltage_mv : Z) (st : ControllerWamr.state) :
  ControllerWamr.current_temp (ControllerWamr.reader_task voltage_mv true st)
  = Thermostat.temperature voltage_mv.
Proof. reflexivity. Qed.

Lemma top_tame_1 :
  tameb (F32.div (F32.of_int (2 ^ 31 - 1)) (F32.lit 3300 1)) = true.
Proof. vm_compute. reflexivity. Qed.

Lemma top_tame_2 :
  tameb (F32.mul (F32.div (F32.of_int (2 ^ 31 - 1)) (F32.lit 3300 1))
           (F32.lit 100 1)) = true.
Proof. vm_compute. reflexivity. Qed.

Lemma temperature_good (mv : Z) :
  0 <= mv < 2 ^ 31 -> good (Thermostat.temperature mv).
Proof.
  intros Hmv.
  destruct (Z.eq_dec mv 0) as [-> | Hnz]; [exact I | ].
  destruct (millivolts_between 1 mv (2 ^ 31 - 1) ltac:(lia) ltac:(lia)
              ltac:(lia) top_tame_1 top_tame_2) as (_ & Hg & _).
  exact Hg.
Qed.

(** [reader_task] of [controller_wamr.c]: the temperature it stores grows
    with the voltage read, it is 0 at 0 mV and 100 at 3300 mV, so that a
    voltage from 0 to 3300 mV gives a temperature from 0 to 100. *)
Theorem reader_task_is_monotone (mv1 mv2 : Z) (st1 st2 : ControllerWamr.state) :
  0 <= mv1 <= mv2 -> mv2 < 2 ^ 31 ->
  F32.leb
    (ControllerWamr.current_temp (ControllerWamr.reader_task mv1 true st1))
    (ControllerWamr.current_temp (ControllerWamr.reader_task mv2 true st2))
  = true
  /\ ControllerWamr.current_temp (ControllerWamr.reader_task 0 true st1)
     = zero
  /\ ControllerWamr.current_temp (ControllerWamr.reader_task 3300 true st1)
     = F32.lit 100 1.
Proof.
  intros H1 H2. rewrite !reader_task_temperature.
  split; [ | split; reflexivity].
  pose proof (temperature_good mv1 ltac:(lia)) as Hg1.
  pose proof (temperature_good mv2 ltac:(lia)) as Hg2.
  rewrite (leb_key _ _ Hg1 Hg2). apply Z.leb_le.
  destruct (Z.eq_dec mv1 0) as [-> | Hnz]; [apply key_nonneg | ].
  destruct (millivolts_between mv1 mv2 (2 ^ 31 - 1) ltac:(lia) ltac:(lia)
              ltac:(lia) top_tame_1 top_tame_2) as (_ & _ & [Hle _] & _).
  exact Hle.
Qed.

Lemma reader_task_is_monotone_witness :
  F32.leb
    (ControllerWamr.current_temp
       (ControllerWamr.reader_task 1200 true ControllerWamr.initial))
    (ControllerWamr.current_temp
       (ControllerWamr.reader_task 1201 true ControllerWamr.initial))
  = true
  /\ ControllerWamr.current_temp
       (ControllerWamr.reader_task 0 true ControllerWamr.initial)
     = zero
  /\ ControllerWamr.current_temp
       (ControllerWamr.reader_task 3300 true ControllerWamr.initial)
     = F32.lit 100 1.
Proof.
  apply (reader_task_is_monotone 1200 1201 ControllerWamr.initial
           ControllerWamr.initial); [lia | ].
  change (2 ^ 31) with 2147483648. lia.
Defined.

(** The guest program on [controller_wamr.c], one round after
    [reader_task] stored the temperature of [voltage_mv] millivolts and
    [host_get_temperature] returned it: the heater state becomes 1 when
    the voltage is at most 1616 mV, 0 when it is at least 1684 mV, and is
    kept in between; the band from 49 to 51 degrees is the band from 1617
    to 1683 mV. *)
Theorem guest_switches_in_millivolts (voltage_mv heater_state : Z)
    (st : ControllerWamr.state) :
  0 <= voltage_mv < 2 ^ 31 -> heater_state = 0 \/ heater_state = 1 ->
  fst (Guest.control_round
         (ControllerWamr.host_get_temperature true
            (ControllerWamr.reader_task voltage_mv true st))
         heater_state)
  = if voltage_mv <? 1617 then 1
    else if 1683 <? voltage_mv then 0
    else heater_state.
Proof.
  intros Hmv Hs.
  change (ControllerWamr.host_get_temperature true
            (ControllerWamr.reader_task voltage_mv true st))
    with (Thermostat.temperature voltage_mv).
  unfold Guest.control_round.
  change (f_lt (Thermostat.temperature voltage_mv)
            (f_sub Guest.TARGET_TEMP Guest.HYSTERESIS))
    with (F32.ltb (Thermostat.temperature voltage_mv)
            (F32.sub (F32.lit 50 1) (F32.lit 1 1))).
  change (f_lt (f_add Guest.TARGET_TEMP Guest.HYSTERESIS)
            (Thermostat.temperature voltage_mv))
    with (F32.ltb (F32.add (F32.lit 50 1) (F32.lit 1 1))
            (Thermostat.temperature voltage_mv)).
  rewrite (threshold_below (F32.sub (F32.lit 50 1) (F32.lit 1 1)) 1617
             voltage_mv ltac:(change (2 ^ 31) with 2147483648; lia) Hmv
             ltac:(apply goodb_good; reflexivity)
             eq_refl eq_refl eq_refl eq_refl eq_refl).
  rewrite (threshold_above (F32.add (F32.lit 50 1) (F32.lit 1 1)) 1683
             voltage_mv ltac:(lia)
             ltac:(change (2 ^ 31) with 2147483648; lia) Hmv
             ltac:(apply goodb_good; reflexivity)
             eq_refl eq_refl eq_refl eq_refl eq_refl).
  destruct (voltage_mv <? 1617); [destruct Hs as [-> | ->]; reflexivity | ].
  destruct (1683 <? voltage_mv); destruct Hs as [-> | ->]; reflexivity.
Qed.

Lemma guest_switches_in_millivolts_witness :
  fst (Guest.control_round
         (ControllerWamr.host_get_temperature true
            (ControllerWamr.reader_task 1616 true ControllerWamr.initial))
         0)
  = 1.
Proof.
  apply (guest_switches_in_millivolts 1616 0 ControllerWamr.initial);
    [change (2 ^ 31) with 2147483648; lia | left; reflexivity].
Defined.

